(** * The subsistence-diet linear program of EEP153_Materials

    A shallow embedding of [solve_subsistence_problem]
    (Project2/diet_problem2.ipynb, first code cell), of the cell-by-cell
    assembly of the same problem in the earlier lecture notebook, and of the
    diagnostics cells of both notebooks.

    Modelling conventions.
    - A float is a [cell]: an exact rational [Num q] or the missing-value
      marker [NaN].  Rounding and infinities are not modelled.
    - A [pd.Series] is its list of (label, value) entries in index order; a
      [pd.DataFrame] is its list of labelled rows together with its column
      labels.  Labels may repeat, as in pandas.
    - Python exceptions are the [Raise] results of the [exc] monad.
    - [scipy.optimize.linprog] is not part of the repository: the backend is
      an argument [lp] of the embedded function. *)

From Stdlib Require Import List String Bool Arith Lia QArith Qabs Lqa.
Import ListNotations.

Close Scope Q_scope.

(** ** Cells: floats with a missing-value marker *)

Inductive cell : Type :=
| Num (q : Q)
| NaN.

Definition isna (c : cell) : bool :=
  match c with NaN => true | Num _ => false end.

Definition cneg (c : cell) : cell :=
  match c with Num q => Num (- q) | NaN => NaN end.

Definition cabs (c : cell) : cell :=
  match c with Num q => Num (Qabs q) | NaN => NaN end.

Definition cadd (a b : cell) : cell :=
  match a, b with Num x, Num y => Num (x + y) | _, _ => NaN end.

Definition csub (a b : cell) : cell :=
  match a, b with Num x, Num y => Num (x - y) | _, _ => NaN end.

Definition cmul (a b : cell) : cell :=
  match a, b with Num x, Num y => Num (x * y) | _, _ => NaN end.

(** [a < b] on floats: false as soon as one side is NaN. *)
Definition cltb (a b : cell) : bool :=
  match a, b with Num x, Num y => negb (Qle_bool y x) | _, _ => false end.

Definition cleb (a b : cell) : bool :=
  match a, b with Num x, Num y => Qle_bool x y | _, _ => false end.

(** [a <= b] as a proposition; it fails when one side is NaN. *)
Definition cle (a b : cell) : Prop :=
  match a, b with Num x, Num y => (x <= y)%Q | _, _ => False end.

(** Equality of float values: rationals up to [Qeq], NaN only with NaN. *)
Definition ceq (a b : cell) : Prop :=
  match a, b with
  | Num x, Num y => (x == y)%Q
  | NaN, NaN => True
  | _, _ => False
  end.

(** [np.dot] of two vectors. *)
Fixpoint dot (u v : list cell) : cell :=
  match u, v with
  | a :: u', b :: v' => cadd (cmul a b) (dot u' v')
  | _, _ => Num 0
  end.

(** ** Exceptions *)

Abbreviation label := string (only parsing).

Inductive exn : Type :=
| KeyError (l : label)
  (** a label asked of [[]] or [.loc] is not in the axis *)
| DuplicateLabels
  (** ValueError: cannot reindex on an axis with duplicate labels *)
| InvalidIndex
  (** InvalidIndexError: reindexing only valid with uniquely valued Index *)
| NoDefinedColumns
  (** ValueError: cannot set a frame with no defined columns *)
| LengthMismatch
  (** ValueError: length of values does not match length of index *)
| NotAligned
  (** ValueError: matrices are not aligned *)
| BackendError (msg : string)
  (** an exception raised inside the numeric backend *).

Inductive exc (A : Type) : Type :=
| Ok (a : A)
| Raise (e : exn).

Arguments Ok {A} a.
Arguments Raise {A} e.

Definition bind {A B : Type} (m : exc A) (k : A -> exc B) : exc B :=
  match m with Ok a => k a | Raise e => Raise e end.

Notation "x <- m ;; k" := (bind m (fun x => k))
  (at level 61, m at next level, right associativity).

(** ** A model of the pandas operations the notebooks use

    The operations follow pandas 2 (the notebooks run on Python 3.11): an
    intersection of indexes has no repeated label, a selection by a list of
    labels returns every entry that carries one of them, and reindexing an
    axis with repeated labels onto a different axis is an error. *)

Module Pd.

Definition Index := list label.
Definition Series := list (label * cell).

Record DataFrame : Type := mkDataFrame {
  rows : list (label * list cell);
  columns : Index
}.

Definition index (df : DataFrame) : Index := map fst (rows df).
Definition sindex (s : Series) : Index := map fst s.
Definition svalues (s : Series) : list cell := map snd s.
Definition values (df : DataFrame) : list (list cell) := map snd (rows df).

Definition mem (l : label) (idx : Index) : bool := existsb (String.eqb l) idx.

Fixpoint is_unique (idx : Index) : bool :=
  match idx with
  | [] => true
  | l :: t => negb (mem l t) && is_unique t
  end.

(** [Index.unique]: the distinct labels, in order of first occurrence. *)
Fixpoint unique (idx : Index) : Index :=
  match idx with
  | [] => []
  | l :: t => l :: filter (fun l' => negb (String.eqb l l')) (unique t)
  end.

(** [a.intersection(b)]: the distinct labels of [a] that occur in [b], in
    the order of [a]. *)
Definition intersection (a b : Index) : Index :=
  filter (fun l => mem l b) (unique a).

(** The entries selected by a list of labels: for each key in turn, every
    entry that carries it. *)
Definition take_labels {V : Type} (keys : Index) (entries : list (label * V))
  : list (label * V) :=
  flat_map (fun k => filter (fun e => String.eqb (fst e) k) entries) keys.

Definition first_missing (keys idx : Index) : option label :=
  find (fun k => negb (mem k idx)) keys.

(** [s.dropna()] *)
Definition dropna (s : Series) : Series :=
  filter (fun e => negb (isna (snd e))) s.

(** [s[keys]] for a list-like of labels. *)
Definition getitem (s : Series) (keys : Index) : exc Series :=
  match first_missing keys (sindex s) with
  | Some k => Raise (KeyError k)
  | None => Ok (take_labels keys s)
  end.

(** The cells of row [r] that sit under the columns labelled [k]; a row
    shorter than the column axis reads as missing there. *)
Fixpoint pick (k : label) (cols : Index) (r : list cell) : list cell :=
  match cols with
  | [] => []
  | c :: cs =>
      (if String.eqb c k then [hd NaN r] else []) ++ pick k cs (tl r)
  end.

(** The cells of row [r] under the columns that a list of labels selects:
    for each key in turn, every column that carries it. *)
Definition select (keys cols : Index) (r : list cell) : list cell :=
  flat_map (fun k => pick k cols r) keys.

(** [df[keys]]: column selection by a list-like of labels. *)
Definition getcols (df : DataFrame) (keys : Index) : exc DataFrame :=
  match first_missing keys (columns df) with
  | Some k => Raise (KeyError k)
  | None =>
      Ok {| rows := map (fun e => (fst e, select keys (columns df) (snd e))) (rows df);
            columns := flat_map (fun k => filter (fun c => String.eqb c k) (columns df))
                                keys |}
  end.

(** [df.fillna(v)] *)
Definition fill (v c : cell) : cell := if isna c then v else c.

Definition fillna (v : cell) (df : DataFrame) : DataFrame :=
  {| rows := map (fun e => (fst e, map (fill v) (snd e))) (rows df);
     columns := columns df |}.

(** [df.loc[keys]]: row selection by a list-like of labels. *)
Definition loc (df : DataFrame) (keys : Index) : exc DataFrame :=
  match first_missing keys (index df) with
  | Some k => Raise (KeyError k)
  | None => Ok {| rows := take_labels keys (rows df); columns := columns df |}
  end.

(** The value under the first entry labelled [l]. *)
Fixpoint lookup {V : Type} (l : label) (entries : list (label * V)) : option V :=
  match entries with
  | [] => None
  | e :: t => if String.eqb (fst e) l then Some (snd e) else lookup l t
  end.

Definition nan_row (cols : Index) : list cell := map (fun _ => NaN) cols.

(** [df.reindex(target, axis=0)].  An axis equal to the target is kept as
    it is; otherwise the axis must be unique, and a target label that is
    not in it gets a row of missing values. *)
Definition reindex_rows (df : DataFrame) (target : Index) : exc DataFrame :=
  if list_eq_dec string_dec (index df) target then Ok df
  else if is_unique (index df) then
    Ok {| rows := map (fun l => (l, match lookup l (rows df) with
                                    | Some r => r
                                    | None => nan_row (columns df)
                                    end)) target;
          columns := columns df |}
  else Raise DuplicateLabels.

(** [df.reindex(target, axis=1)] *)
Definition reindex_cols (df : DataFrame) (target : Index) : exc DataFrame :=
  if list_eq_dec string_dec (columns df) target then Ok df
  else if is_unique (columns df) then
    Ok {| rows := map (fun e => (fst e,
                                 map (fun t => hd NaN (pick t (columns df) (snd e))) target))
                      (rows df);
          columns := target |}
  else Raise DuplicateLabels.

(** Unary minus on a frame and on a series. *)
Definition neg (df : DataFrame) : DataFrame :=
  {| rows := map (fun e => (fst e, map cneg (snd e))) (rows df);
     columns := columns df |}.

Definition sneg (s : Series) : Series := map (fun e => (fst e, cneg (snd e))) s.

(** [pd.concat([a, b])] of two frames, along the rows.  Frames with the same
    columns are stacked; otherwise both are first realigned on the union of
    the columns, which needs unique column labels. *)
Definition concat (a b : DataFrame) : exc DataFrame :=
  if list_eq_dec string_dec (columns a) (columns b) then
    Ok {| rows := rows a ++ rows b; columns := columns a |}
  else if is_unique (columns a) && is_unique (columns b) then
    let u := columns a ++ filter (fun c => negb (mem c (columns a))) (columns b) in
    a' <- reindex_cols a u ;;
    b' <- reindex_cols b u ;;
    Ok {| rows := rows a' ++ rows b'; columns := u |}
  else Raise InvalidIndex.

(** [pd.concat([s, t])] of two series. *)
Definition sconcat (s t : Series) : Series := s ++ t.

(** [df.loc[l] = v] for a scalar [v]: every row labelled [l] is overwritten;
    when there is none, a row is appended (setting with enlargement), which
    pandas refuses on a frame without columns. *)
Definition loc_set (df : DataFrame) (l : label) (v : cell) : exc DataFrame :=
  if mem l (index df) then
    Ok {| rows := map (fun e => if String.eqb (fst e) l
                                then (fst e, map (fun _ => v) (snd e)) else e)
                      (rows df);
          columns := columns df |}
  else match columns df with
       | [] => Raise NoDefinedColumns
       | _ => Ok {| rows := rows df ++ [(l, map (fun _ => v) (columns df))];
                    columns := columns df |}
       end.

(** [s.loc[l] = v] *)
Definition sloc_set (s : Series) (l : label) (v : cell) : Series :=
  if mem l (sindex s) then
    map (fun e => if String.eqb (fst e) l then (fst e, v) else e) s
  else s ++ [(l, v)].

(** [pd.Series(x, index=idx)] *)
Definition mkSeries (x : list cell) (idx : Index) : exc Series :=
  if Nat.eqb (List.length x) (List.length idx) then Ok (combine idx x)
  else Raise LengthMismatch.

(** [s * v] for a scalar [v]. *)
Definition smul (s : Series) (v : cell) : Series :=
  map (fun e => (fst e, cmul (snd e) v)) s.

End Pd.

Import Pd.

(** ** The function [solve_subsistence_problem] *)

(** The linear program the function assembles before it calls the backend:
    the price vector [p], the constraint matrix [A] and the bounds [b]. *)
Record Problem : Type := mkProblem {
  cost : Series;
  A : DataFrame;
  b : Series
}.

(** What [scipy.optimize.linprog] returns. *)
Record OptimizeResult : Type := mkOptimizeResult {
  x : list cell;
  fun_ : cell;
  success : bool;
  status : nat;
  message : string
}.

(** The returned object: the backend's result with the attributes [A], [b]
    and [diet] that the function adds to it. *)
Record Result : Type := mkResult {
  opt : OptimizeResult;
  result_A : DataFrame;
  result_b : Series;
  diet : Series
}.

(** The backend, called as [lp(c, A_ub, b_ub)]: minimise [c . x] subject to
    [A_ub x <= b_ub] and [x >= 0]. *)
Definition backend : Type :=
  list cell -> list (list cell) -> list cell -> exc OptimizeResult.

Definition Hectograms : label := "Hectograms"%string.

(** The price vector: prices that are not missing, for the goods that are
    also columns of the catalogue.  ([Prices] holds magnitudes: the source
    strips units first, and falls back to the series as given, with a
    warning, when the prices carry none.)
<<
    p = p.dropna()
    use = p.index.intersection(FoodNutrients.columns)
    p = p[use]
>> *)
Definition usable_prices (FoodNutrients : DataFrame) (Prices : Series) : exc Series :=
  let p := dropna Prices in
  let use := intersection (sindex p) (columns FoodNutrients) in
  getitem p use.

(** The rows of [Aall] that one bound series constrains, in the order of
    that series.
<<
    Amin = Aall.loc[Aall.index.intersection(dietmin.index)]
    Amin = Amin.reindex(dietmin.index,axis=0)
>>
    and the same for [dietmax].  (The two statements on [idx] that follow in
    the source build a frame that is never used.) *)
Definition bounded_rows (Aall : DataFrame) (bound : Series) : exc DataFrame :=
  Asel <- loc Aall (intersection (index Aall) (sindex bound)) ;;
  reindex_rows Asel (sindex bound).

(** The body of the function up to and including the two final [reindex]
    calls.
<<
    Aall = FoodNutrients[p.index].fillna(0)
    ...
    A = pd.concat([Amin, -Amax])
    b = pd.concat([dietmin, -dietmax])
    A = A.reindex(p.index,axis=1)
    A = A.reindex(b.index,axis=0)
>> *)
Definition assemble (FoodNutrients : DataFrame) (Prices dietmin dietmax : Series)
  : exc Problem :=
  p <- usable_prices FoodNutrients Prices ;;
  Asel <- getcols FoodNutrients (sindex p) ;;
  let Aall := fillna (Num 0) Asel in
  Amin <- bounded_rows Aall dietmin ;;
  Amax <- bounded_rows Aall dietmax ;;
  A0 <- concat Amin (neg Amax) ;;
  let b0 := sconcat dietmin (sneg dietmax) in
  A1 <- reindex_cols A0 (sindex p) ;;
  A2 <- reindex_rows A1 (sindex b0) ;;
  Ok {| cost := p; A := A2; b := b0 |}.

(** The cap on the total quantity.
<<
    if max_weight is not None:
        A.loc['Hectograms'] = -1
        b.loc['Hectograms'] = -max_weight
>> *)
Definition add_max_weight (pb : Problem) (max_weight : option cell) : exc Problem :=
  match max_weight with
  | None => Ok pb
  | Some w =>
      A' <- loc_set (A pb) Hectograms (Num (-1)) ;;
      Ok {| cost := cost pb; A := A'; b := sloc_set (b pb) Hectograms (cneg w) |}
  end.

(** Everything the function does before it calls the backend. *)
Definition build (FoodNutrients : DataFrame) (Prices dietmin dietmax : Series)
    (max_weight : option cell) : exc Problem :=
  pb <- assemble FoodNutrients Prices dietmin dietmax ;;
  add_max_weight pb max_weight.

(** The arguments of the backend call [lp(p, -A, -b, method='interior-point')]. *)
Definition lp_c (pb : Problem) : list cell := svalues (cost pb).
Definition lp_A_ub (pb : Problem) : list (list cell) := values (neg (A pb)).
Definition lp_b_ub (pb : Problem) : list cell := svalues (sneg (b pb)).

(** The diet that is attached to the result.
<<
    if result.success:
        result.diet = pd.Series(result.x,index=p.index)
    else: # No feasible solution?
        warnings.warn(result.message)
        result.diet = pd.Series(result.x,index=p.index)*np.nan
>> *)
Definition make_diet (r : OptimizeResult) (p : Series) : exc Series :=
  if success r then mkSeries (x r) (sindex p)
  else s <- mkSeries (x r) (sindex p) ;; Ok (smul s NaN).

(** The whole function.  The argument [tol] is not used by its body. *)
Definition solve_subsistence_problem (lp : backend)
    (FoodNutrients : DataFrame) (Prices dietmin dietmax : Series)
    (max_weight : option cell) (tol : cell) : exc Result :=
  pb <- build FoodNutrients Prices dietmin dietmax max_weight ;;
  result <- lp (lp_c pb) (lp_A_ub pb) (lp_b_ub pb) ;;
  d <- make_diet result (cost pb) ;;
  Ok {| opt := result; result_A := A pb; result_b := b pb; diet := d |}.

(** ** What the builder computes *)

(** The entries of the price series that the builder keeps. *)
Definition usable (FoodNutrients : DataFrame) (Prices : Series) : Series :=
  take_labels (intersection (sindex (dropna Prices)) (columns FoodNutrients))
              (dropna Prices).

(** The row the builder's steps leave for a nutrient: its catalogue row
    under the usable goods' columns, missing cells filled with zero by
    [fillna(0)]; for a nutrient that labels no catalogue row, the row of
    missing values that [reindex] puts in afterwards.  (The row the
    specification describes is [spec_yield_vector].) *)
Definition yield_vector (FoodNutrients : DataFrame) (Prices : Series) (n : label)
  : list cell :=
  let goods := sindex (usable FoodNutrients Prices) in
  match lookup n (rows FoodNutrients) with
  | Some r => map (fill (Num 0)) (select goods (columns FoodNutrients) r)
  | None => nan_row goods
  end.

(** The nutrient rows of the system the builder assembles: one row per
    entry of the minimum series, then one negated row per entry of the
    maximum series. *)
Definition nutrient_rows (FoodNutrients : DataFrame) (Prices dietmin dietmax : Series)
  : list (label * list cell) :=
  map (fun e => (fst e, yield_vector FoodNutrients Prices (fst e))) dietmin ++
  map (fun e => (fst e, map cneg (yield_vector FoodNutrients Prices (fst e)))) dietmax.

(** ** The earlier lecture notebook: the same problem, cell by cell *)

(** The cells that build [p], [A] and [b].  [bmin] and [bmax] stand for the
    column of the chosen group in the notebook's two bound tables; the
    notebook selects that column when it calls the backend.  The rows are
    taken with [.loc], which does not accept a label that is not in the
    catalogue. *)
Definition lecture_problem (D : DataFrame) (Prices bmin bmax : Series) : exc Problem :=
  p <- usable_prices D Prices ;;
  Asel <- getcols D (sindex p) ;;
  let Aall := fillna (Num 0) Asel in
  Amin <- loc Aall (sindex bmin) ;;
  Amax <- loc Aall (sindex bmax) ;;
  A0 <- concat Amin (neg Amax) ;;
  Ok {| cost := p; A := A0; b := sconcat bmin (sneg bmax) |}.

(** ** Diagnostics cells *)

Definition abs (df : DataFrame) : DataFrame :=
  {| rows := map (fun e => (fst e, map cabs (snd e))) (rows df);
     columns := columns df |}.

Definition sabs (s : Series) : Series := map (fun e => (fst e, cabs (snd e))) s.

(** [df.dot(s)].  The columns of the frame and the index of the series are
    the same axis in both notebooks; the realignment pandas performs on axes
    that differ is not modelled and reads as the alignment error. *)
Definition frame_dot (df : DataFrame) (s : Series) : exc Series :=
  if list_eq_dec string_dec (columns df) (sindex s)
  then Ok (map (fun e => (fst e, dot (snd e) (svalues s))) (rows df))
  else Raise NotAligned.

(** [pd.DataFrame({c1: s1, c2: s2})] for two series on the same index (the
    outer join of different indexes is not modelled either). *)
Definition frame_of_series (c1 : label) (s1 : Series) (c2 : label) (s2 : Series)
  : exc DataFrame :=
  if list_eq_dec string_dec (sindex s1) (sindex s2)
  then Ok {| rows := map (fun e => (fst (fst e), [snd (fst e); snd (snd e)]))
                         (combine s1 s2);
             columns := [c1; c2] |}
  else Raise NotAligned.

(** One row of [df.diff(axis=1)]: each cell minus the cell to its left. *)
Fixpoint diff_cells (prev : cell) (r : list cell) : list cell :=
  match r with
  | [] => []
  | c :: t => csub c prev :: diff_cells c t
  end.

Definition diff_axis1 (df : DataFrame) : DataFrame :=
  {| rows := map (fun e => (fst e, diff_cells NaN (snd e))) (rows df);
     columns := columns df |}.

(** [df.iloc[:, j]] *)
Definition iloc_col (df : DataFrame) (j : nat) : Series :=
  map (fun e => (fst e, nth j (snd e) NaN)) (rows df).

(** The cells that tabulate the outcomes and list the constraining
    nutrients, with the threshold left open.
<<
    tab = pd.DataFrame({"Outcome":np.abs(A).dot(diet),"Recommendation":np.abs(b)})
    excess = tab.diff(axis=1).iloc[:,1]
    excess.loc[np.abs(excess) < threshold].index.tolist()
>> *)
Definition outcome_table (A0 : DataFrame) (b0 diet0 : Series) : exc DataFrame :=
  outcome <- frame_dot (abs A0) diet0 ;;
  frame_of_series "Outcome" outcome "Recommendation" (sabs b0).

Definition binding (tab : DataFrame) (threshold : cell) : list label :=
  let excess := iloc_col (diff_axis1 tab) 1 in
  sindex (filter (fun e => cltb (cabs (snd e)) threshold) excess).

(** Project2/diet_problem2.ipynb: the threshold is [tol*100]. *)
Definition constraining_nutrients (result : Result) (tol : cell) : exc (list label) :=
  tab <- outcome_table (result_A result) (result_b result) (diet result) ;;
  Ok (binding tab (cmul tol (Num 100))).

(** The lecture notebook: [diet] is rebuilt from [result.x], and the
    threshold is [tol]. *)
Definition lecture_constraining_nutrients (pb : Problem) (result : OptimizeResult)
    (tol : cell) : exc (list label) :=
  diet0 <- mkSeries (x result) (sindex (cost pb)) ;;
  tab <- outcome_table (A pb) (b pb) diet0 ;;
  Ok (binding tab tol).

(** The test of the specification for one constraint: the realized outcome
    [|row| . diet] is compared with [|bound|], and the constraint is binding
    when the absolute difference is below the threshold. *)
Definition realized (row : list cell) (diet_values : list cell) : cell :=
  dot (map cabs row) diet_values.

Definition is_binding (row : list cell) (bound : cell) (diet_values : list cell)
    (threshold : cell) : bool :=
  cltb (cabs (csub (cabs bound) (realized row diet_values))) threshold.

(** ** The meaning of the linear programs *)

(** Quantities are non-negative (and so defined). *)
Definition nonneg (q : list cell) : Prop := Forall (cle (Num 0)) q.

(** The feasible set of the backend's problem [lp(c, A_ub, b_ub)]:
    [A_ub q <= b_ub] and [q >= 0]. *)
Definition backend_feasible (c : list cell) (A_ub : list (list cell))
    (b_ub : list cell) (q : list cell) : Prop :=
  List.length q = List.length c /\
  Forall2 (fun row bi => cle (dot row q) bi) A_ub b_ub /\
  nonneg q.

(** The feasible set of the canonical problem of the documentation:
    [A q >= b] and [q >= 0]. *)
Definition canonical_feasible (pb : Problem) (q : list cell) : Prop :=
  List.length q = List.length (cost pb) /\
  Forall2 (fun row bi => cle (snd bi) (dot (snd row) q)) (rows (A pb)) (b pb) /\
  nonneg q.

(** [q] minimises [c . q] over a feasible set, with value [v]. *)
Definition minimum (c : list cell) (feasible : list cell -> Prop)
    (q : list cell) (v : cell) : Prop :=
  feasible q /\ ceq v (dot c q) /\
  forall q', feasible q' -> cle (dot c q) (dot c q').

(** What a correct backend promises about one call: a reported success
    carries a minimiser and its value. *)
Definition backend_sound (c : list cell) (A_ub : list (list cell))
    (b_ub : list cell) (r : OptimizeResult) : Prop :=
  success r = true -> minimum c (backend_feasible c A_ub b_ub) (x r) (fun_ r).

(** ... and a problem that has a minimiser is reported as a success. *)
Definition backend_complete (c : list cell) (A_ub : list (list cell))
    (b_ub : list cell) (r : OptimizeResult) : Prop :=
  (exists q v, minimum c (backend_feasible c A_ub b_ub) q v) -> success r = true.

(** ** Tightening one bound *)

(** The series [s] with the value of its [i]-th entry replaced by [v]. *)
Definition set_bound (s : Series) (i : nat) (v : cell) : Series :=
  firstn i s ++ match skipn i s with
                | [] => []
                | e :: t => (fst e, v) :: t
                end.

(** The second pair of bound series differs from the first in one bound,
    which it tightens: a minimum is raised or a maximum is lowered. *)
Definition tightens_one_bound (dietmin dietmax dietmin' dietmax' : Series) : Prop :=
  (exists i old new,
      nth_error (svalues dietmin) i = Some old /\ cle old new /\
      dietmin' = set_bound dietmin i new /\ dietmax' = dietmax) \/
  (exists j old new,
      nth_error (svalues dietmax) j = Some old /\ cle new old /\
      dietmax' = set_bound dietmax j new /\ dietmin' = dietmin).

(** One entry of the bounds of the tightened problem against the same entry
    of the original: the same label, and the same or a larger value. *)
Definition tighter (e e' : label * cell) : Prop :=
  fst e' = fst e /\ (snd e' = snd e \/ cle (snd e) (snd e')).

(** ** The other cells of the notebooks *)

(** [min] of two prices, a missing one skipped. *)
Definition cmin (a c : cell) : cell :=
  match a, c with
  | Num u, Num v => if Qle_bool u v then Num u else Num v
  | NaN, _ => c
  | _, NaN => a
  end.

(** The minimum of the prices of one group; missing when every price is. *)
Definition group_min (vals : list cell) : cell := fold_right cmin NaN vals.

(** The price series of Project2/diet_problem2.ipynb, from the rows of the
    price sheet, each given by its food and its price per FDC unit:
<<
    Prices = df.groupby('Food',sort=False)['FDC Price'].min()
>>
    ([df.dropna(how='any')] on the line before is not assigned and changes
    nothing.) *)
Definition groupby_min (df : list (label * cell)) : Series :=
  map (fun f => (f, group_min (map snd (filter (fun e => String.eqb (fst e) f) df))))
      (unique (map fst df)).

(** The diet that is printed:
<<
    print(diet[diet >= tol])
>> *)
Definition shown_diet (diet0 : Series) (tol : cell) : Series :=
  filter (fun e => cleb tol (snd e)) diet0.

(** One pass of the loop that changes one price at a time:
<<
    for i,p in enumerate(Prices):
        my_p = Prices.copy()
        my_p[i] = p*s
        result = solve_subsistence_problem(FoodNutrients,my_p,...)
>>
    The prices are labelled by strings, so [my_p[i]] is the [i]-th entry.
    ([enumerate] yields no position past the end of the series.) *)
Definition scaled_at (Prices : Series) (i : nat) (s : cell) : Series :=
  match nth_error (svalues Prices) i with
  | Some p => set_bound Prices i (cmul p s)
  | None => Prices
  end.

Definition price_response_step (lp : backend) (FoodNutrients : DataFrame)
    (Prices dietmin dietmax : Series) (max_weight : option cell) (tol : cell)
    (i : nat) (s : cell) : exc Result :=
  solve_subsistence_problem lp FoodNutrients (scaled_at Prices i s) dietmin dietmax
                            max_weight tol.

(** ** Notions used to state properties of the builder *)

(** Every row of a frame has one cell per column. *)
Definition rectangular (df : DataFrame) : Prop :=
  Forall (fun e => List.length (snd e) = List.length (columns df)) (rows df).

(** The cell of a frame under a row label and a column label, when the row
    exists. *)
Definition cell_at (df : DataFrame) (n g : label) : option cell :=
  match lookup n (rows df) with
  | Some r => Some (hd NaN (pick g (columns df) r))
  | None => None
  end.

(** The total quantity of a quantity vector. *)
Definition total (q : list cell) : cell := fold_right cadd (Num 0) q.


(** Two entries of a price series with the same label that are both missing
    or both defined. *)
Definition same_good (e e' : label * cell) : Prop :=
  fst e' = fst e /\ isna (snd e') = isna (snd e).

(** ** The rows the specification describes *)

(** The yield vector of the specification (4.1, steps 2 and 3): the
    catalogue restricted to the usable goods, with every yield that is not
    known replaced by zero.  A nutrient that labels no catalogue row has no
    known yield under any good. *)
Definition spec_yield_vector (FoodNutrients : DataFrame) (Prices : Series) (n : label)
  : list cell :=
  let goods := sindex (usable FoodNutrients Prices) in
  match lookup n (rows FoodNutrients) with
  | Some r => map (fill (Num 0)) (select goods (columns FoodNutrients) r)
  | None => map (fun _ => Num 0) goods
  end.

(** One row [yield_vector] per minimum bound, then one row [-yield_vector]
    per maximum bound, in the order of the two series. *)
Definition spec_nutrient_rows (FoodNutrients : DataFrame)
    (Prices dietmin dietmax : Series) : list (label * list cell) :=
  map (fun e => (fst e, spec_yield_vector FoodNutrients Prices (fst e))) dietmin ++
  map (fun e => (fst e, map cneg (spec_yield_vector FoodNutrients Prices (fst e))))
      dietmax.

(** ** Worked inputs *)

Module Ex.

Open Scope string_scope.

(** Good A yields 10 units of N, good B yields 5; a second nutrient M is
    known for A only. *)
Definition catalogue : DataFrame :=
  {| rows := [("N", [Num 10; Num 5]); ("M", [Num 3; NaN])];
     columns := ["A"; "B"] |}.

(** Prices: A costs 1 and B costs 2; C is priced but not in the catalogue,
    and the price of D is missing. *)
Definition prices : Series :=
  [("A", Num 1); ("C", Num 7); ("B", Num 2); ("D", NaN)].

Definition dietmin : Series := [("N", Num 20); ("M", Num 1)].
Definition dietmax : Series := [("N", Num 60)].

(** The scenario of the specification: two goods, one nutrient. *)
Definition catalogue2 : DataFrame :=
  {| rows := [("N", [Num 10; Num 5])]; columns := ["A"; "B"] |}.
Definition prices2 : Series := [("A", Num 1); ("B", Num 2)].
Definition min20 : Series := [("N", Num 20)].
Definition min1000 : Series := [("N", Num 1000)].

(** A catalogue that also records the weight of each good, under the label
    the builder uses for its cap row, and bounds that ask for at least 20
    units of N and at least 3 hectograms of food. *)
Definition catalogue_weight : DataFrame :=
  {| rows := [("N", [Num 10; Num 5]); ("Hectograms", [Num 1; Num 1])];
     columns := ["A"; "B"] |}.
Definition min_weight : Series := [("N", Num 20); ("Hectograms", Num 3)].

(** Inputs with repeated labels: a minimum series that bounds N twice, a
    price series that prices A twice, a catalogue with two columns for A,
    and a catalogue with two rows for N. *)
Definition min_twice : Series := [("N", Num 20); ("N", Num 30)].
Definition prices_twice : Series := [("A", Num 1); ("A", Num 3); ("B", Num 2)].
Definition catalogue_two_columns : DataFrame :=
  {| rows := [("N", [Num 10; Num 5; Num 7])]; columns := ["A"; "B"; "A"] |}.
Definition catalogue_two_rows : DataFrame :=
  {| rows := [("N", [Num 10; Num 5]); ("N", [Num 1; NaN])]; columns := ["A"; "B"] |}.

(** The two problems of the scenario, as the builder returns them. *)
Definition problem20 : Problem :=
  {| cost := prices2;
     A := {| rows := [("N", [Num 10; Num 5])]; columns := ["A"; "B"] |};
     b := min20 |}.

Definition problem1000 : Problem :=
  {| cost := prices2;
     A := {| rows := [("N", [Num 10; Num 5]); ("Hectograms", [Num (-1); Num (-1)])];
             columns := ["A"; "B"] |};
     b := [("N", Num 1000); ("Hectograms", Num (-1))] |}.

(** What linprog returns for an infeasible problem: status 2, and the last
    iterate in [x]. *)
Definition infeasible_report (c : list cell) : OptimizeResult :=
  {| x := map (fun _ => Num 0) c; fun_ := Num 0; success := false;
     status := 2;
     message := "The algorithm terminated successfully and determined that the problem is infeasible." |}.

(** A backend that reports every problem as infeasible. *)
Definition lp_infeasible : backend :=
  fun c _ _ => Ok (infeasible_report c).

(** Two units of the first good, at cost 2. *)
Definition optimum20 : OptimizeResult :=
  {| x := [Num 2; Num 0]; fun_ := Num 2; success := true; status := 0;
     message := "Optimization terminated successfully." |}.

(** A result close to the optimum of the scenario, as a floating-point
    method returns it: 2.000005 units of the first good. *)
Definition optimum_near : OptimizeResult :=
  {| x := [Num (2000005 # 1000000); Num 0]; fun_ := Num (2000005 # 1000000);
     success := true; status := 0;
     message := "Optimization terminated successfully." |}.

Definition lp_near : backend := fun _ _ _ => Ok optimum_near.

(** The tolerance of the notebooks, 1e-6. *)
Definition tol : cell := Num (1 # 1000000).

(** Four units of the first good, at cost 4: the optimum once the minimum
    is raised to 40. *)
Definition optimum40 : OptimizeResult :=
  {| x := [Num 4; Num 0]; fun_ := Num 4; success := true; status := 0;
     message := "Optimization terminated successfully." |}.

(** A backend that knows the optimum of the scenario for the minimum 20 and
    for the minimum 40. *)
Definition lp_20_40 : backend :=
  fun c A_ub b_ub =>
    match b_ub with
    | [Num q] => if Qeq_bool q (-20) then Ok optimum20
                 else if Qeq_bool q (-40) then Ok optimum40
                 else Ok (infeasible_report c)
    | _ => Ok (infeasible_report c)
    end.

(** A backend that knows the answers to the two problems of the scenario:
    with the single nutrient row, [optimum20]; with the cap row added,
    infeasible. *)
Definition lp_scenario : backend :=
  fun c A_ub b_ub =>
    match b_ub with
    | [_] => Ok optimum20
    | _ => lp_infeasible c A_ub b_ub
    end.

End Ex.

(** ** Worked inputs for the other cells *)

Module Ex2.

Open Scope string_scope.

(** A price sheet: flour seen at two prices, milk once without a usable
    price and once with one, salt only without a price. *)
Definition sheet : list (label * cell) :=
  [("Flour", Num 3); ("Milk", NaN); ("Flour", Num 2); ("Salt", NaN); ("Milk", Num 5)].

(** A sheet for the goods of the worked catalogue: B is seen first, at two
    prices; C is not in the catalogue. *)
Definition sheet_AB : list (label * cell) :=
  [("B", Num 4); ("C", Num 7); ("A", Num 1); ("B", Num 2)].

(** A backend that answers every call with two units of the first good at
    cost 2: the optimum of the scenario, with and without a cap of 12. *)
Definition lp_always20 : backend := fun _ _ _ => Ok Ex.optimum20.

(** Two units of the first good at cost 3: the optimum of the scenario once
    the price of A is 3/2. *)
Definition optimum_dear : OptimizeResult :=
  {| x := [Num 2; Num 0]; fun_ := Num 3; success := true; status := 0;
     message := "Optimization terminated successfully." |}.

(** A backend that knows the optimum of the scenario at the price 1 of A and
    at the price 3/2. *)
Definition lp_prices : backend :=
  fun c _ _ =>
    match c with
    | Num a :: _ => if Qeq_bool a 1 then Ok Ex.optimum20 else Ok optimum_dear
    | _ => Ok (Ex.infeasible_report c)
    end.

(** The catalogue of the scenario written differently: the columns in
    another order, a good D that has no price, and a nutrient Z that no
    bound names. *)
Definition catalogue2_shuffled : DataFrame :=
  {| rows := [("Z", [Num 7; Num 8; Num 9]); ("N", [Num 1; Num 5; Num 10])];
     columns := ["D"; "B"; "A"] |}.

(** A minimum on a nutrient that the worked catalogue does not list. *)
Definition min_zinc : Series := [("N", Num 20); ("Zinc", Num 11)].

(** The same nutrient bounded from above instead. *)
Definition max_zinc : Series := [("Zinc", Num 40)].

(** Prices that leave no usable good: C is not in the catalogue and the
    price of B is missing. *)
Definition prices_unlisted : Series := [("C", Num 7); ("B", NaN)].

(** The problem the builder returns for these prices and a minimum of 20
    units of N: one row, no column. *)
Definition problem_no_goods : Problem :=
  {| cost := []; A := {| rows := [("N", [])]; columns := [] |}; b := Ex.min20 |}.

End Ex2.

(** ** Lists of labels *)

Section Labels.

Lemma mem_In (l : label) (idx : Index) : mem l idx = true <-> In l idx.
Proof.
  unfold mem. rewrite existsb_exists. split.
  - intros [y [Hy Heq]]. apply String.eqb_eq in Heq. now subst.
  - intros H. exists l. split; [assumption | apply String.eqb_refl].
Qed.

Lemma mem_false (l : label) (idx : Index) : mem l idx = false <-> ~ In l idx.
Proof.
  rewrite <- mem_In. destruct (mem l idx); split; congruence.
Qed.

Lemma is_unique_NoDup (idx : Index) : is_unique idx = true <-> NoDup idx.
Proof.
  induction idx as [|l t IH]; simpl.
  - split; [constructor | reflexivity].
  - rewrite andb_true_iff, negb_true_iff, mem_false, IH. split.
    + intros [H1 H2]. now constructor.
    + intros H. inversion H; subst. now split.
Qed.

Lemma In_unique (l : label) (idx : Index) : In l (unique idx) <-> In l idx.
Proof.
  induction idx as [|a t IH]; simpl; [tauto|].
  rewrite filter_In, IH, negb_true_iff, String.eqb_neq.
  destruct (string_dec a l); [subst|]; tauto.
Qed.

Lemma NoDup_unique (idx : Index) : NoDup (unique idx).
Proof.
  induction idx as [|a t IH]; simpl; constructor.
  - rewrite filter_In, negb_true_iff, String.eqb_neq. tauto.
  - now apply NoDup_filter.
Qed.

Lemma In_intersection (l : label) (a c : Index) :
  In l (intersection a c) <-> In l a /\ In l c.
Proof.
  unfold intersection. now rewrite filter_In, In_unique, mem_In.
Qed.

Lemma NoDup_intersection (a c : Index) : NoDup (intersection a c).
Proof. apply NoDup_filter, NoDup_unique. Qed.

Lemma first_missing_None (keys idx : Index) :
  (forall k, In k keys -> In k idx) -> first_missing keys idx = None.
Proof.
  intros H. unfold first_missing.
  destruct (find _ keys) as [k|] eqn:E; [|reflexivity].
  apply find_some in E. destruct E as [Hin Hk].
  apply negb_true_iff, mem_false in Hk. now apply H in Hin.
Qed.

Lemma first_missing_Some (keys idx : Index) (k : label) :
  first_missing keys idx = Some k -> In k keys /\ ~ In k idx.
Proof.
  unfold first_missing. intros E. apply find_some in E.
  now rewrite negb_true_iff, mem_false in E.
Qed.

End Labels.

(** ** Selecting entries by label *)

Section Entries.

Variable V : Type.
Implicit Types (E : list (label * V)) (keys : Index) (l k : label).

Lemma In_take_labels keys E (e : label * V) :
  In e (take_labels keys E) <-> In (fst e) keys /\ In e E.
Proof.
  unfold take_labels. rewrite in_flat_map. split.
  - intros [k [Hk He]]. apply filter_In in He. destruct He as [He Hk'].
    apply String.eqb_eq in Hk'. subst. now split.
  - intros [Hk He]. exists (fst e). split; [assumption|].
    apply filter_In. split; [assumption | apply String.eqb_refl].
Qed.

Lemma lookup_app l E E' :
  lookup l (E ++ E') =
  match lookup l E with Some v => Some v | None => lookup l E' end.
Proof.
  induction E as [|e E IH]; simpl; [reflexivity|].
  destruct (String.eqb (fst e) l); [reflexivity | exact IH].
Qed.

Lemma lookup_filter l k E :
  lookup l (filter (fun e => String.eqb (fst e) k) E) =
  if String.eqb l k then lookup l E else None.
Proof.
  induction E as [|e E IH]; cbn [filter lookup].
  - now destruct (String.eqb l k).
  - destruct (String.eqb_spec (fst e) k) as [Ek|Ek]; cbn [lookup];
      destruct (String.eqb_spec (fst e) l) as [El|El]; try exact IH.
    + replace (String.eqb l k) with true; [reflexivity|].
      symmetry. apply String.eqb_eq. congruence.
    + rewrite IH. replace (String.eqb l k) with false; [reflexivity|].
      symmetry. apply String.eqb_neq. congruence.
Qed.

Lemma lookup_None l E : lookup l E = None <-> ~ In l (map fst E).
Proof.
  induction E as [|e E IH]; simpl; [tauto|].
  destruct (String.eqb (fst e) l) eqn:El.
  - apply String.eqb_eq in El. split; [discriminate | tauto].
  - apply String.eqb_neq in El. rewrite IH. tauto.
Qed.

Lemma lookup_take_labels l keys E :
  lookup l (take_labels keys E) = if mem l keys then lookup l E else None.
Proof.
  induction keys as [|k ks IH]; [reflexivity|].
  change (take_labels (k :: ks) E)
    with (filter (fun e => String.eqb (fst e) k) E ++ take_labels ks E).
  rewrite lookup_app, lookup_filter, IH. simpl.
  rewrite (String.eqb_sym l k).
  destruct (String.eqb k l); simpl; [|reflexivity].
  destruct (lookup l E); [reflexivity | now destruct (mem l ks)].
Qed.

Lemma lookup_NoDup E (e : label * V) :
  NoDup (map fst E) -> In e E -> lookup (fst e) E = Some (snd e).
Proof.
  induction E as [|a E IH]; simpl; [tauto|].
  intros Hnd [->|Hin].
  - now rewrite String.eqb_refl.
  - inversion Hnd; subst. destruct (String.eqb (fst a) (fst e)) eqn:Ea.
    + apply String.eqb_eq in Ea. exfalso. apply H1. rewrite Ea.
      now apply in_map.
    + now apply IH.
Qed.

Lemma filter_label_absent k E :
  ~ In k (map fst E) -> filter (fun e => String.eqb (fst e) k) E = [].
Proof.
  induction E as [|a E IH]; simpl; [reflexivity|].
  intros H. destruct (String.eqb (fst a) k) eqn:Ea.
  - apply String.eqb_eq in Ea. tauto.
  - apply IH. tauto.
Qed.

Lemma NoDup_take_labels keys E :
  NoDup keys -> NoDup (map fst E) -> NoDup (map fst (take_labels keys E)).
Proof.
  intros Hk HE. induction Hk as [|k ks Hnot Hks IH]; [constructor|].
  change (take_labels (k :: ks) E)
    with (filter (fun e => String.eqb (fst e) k) E ++ take_labels ks E).
  rewrite map_app. apply NoDup_app; [| exact IH |].
  - clear IH Hnot Hks. induction E as [|a E IHE]; simpl; [constructor|].
    inversion HE; subst. destruct (String.eqb (fst a) k) eqn:Ea.
    + apply String.eqb_eq in Ea. rewrite filter_label_absent.
      * repeat constructor. simpl. tauto.
      * now rewrite <- Ea.
    + now apply IHE.
  - intros l Hl Hl'. apply in_map_iff in Hl, Hl'.
    destruct Hl as [e [<- He]], Hl' as [e' [Heq He']].
    apply filter_In in He. destruct He as [_ He]. apply String.eqb_eq in He.
    apply In_take_labels in He'. destruct He' as [He' _].
    apply Hnot. congruence.
Qed.

End Entries.

Lemma lookup_map_snd (U W : Type) (f : U -> W) (l : label) (E : list (label * U)) :
  lookup l (map (fun e => (fst e, f (snd e))) E) = option_map f (lookup l E).
Proof.
  induction E as [|e E IH]; simpl; [reflexivity|].
  destruct (String.eqb (fst e) l); [reflexivity | exact IH].
Qed.

Lemma filter_eqb_NoDup (cols : Index) (k : label) :
  NoDup cols -> In k cols -> filter (fun c => String.eqb c k) cols = [k].
Proof.
  induction cols as [|c cs IH]; simpl; [tauto|].
  intros Hnd Hin. inversion Hnd; subst.
  destruct (String.eqb_spec c k) as [->|Hck].
  - f_equal. clear IH Hnd Hin H2. induction cs as [|d ds IHd]; simpl; [reflexivity|].
    destruct (String.eqb_spec d k) as [->|_]; [simpl in H1; tauto|].
    apply IHd. simpl in H1. tauto.
  - apply IH; [assumption | tauto].
Qed.

Lemma select_labels_NoDup (cols keys : Index) :
  NoDup cols -> (forall k, In k keys -> In k cols) ->
  flat_map (fun k => filter (fun c => String.eqb c k) cols) keys = keys.
Proof.
  intros Hnd. induction keys as [|k ks IH]; simpl; [reflexivity|].
  intros H. rewrite filter_eqb_NoDup, IH; auto.
Qed.

Section Builder.

Variables (FoodNutrients : DataFrame) (Prices : Series).

Lemma usable_prices_ok :
  usable_prices FoodNutrients Prices = Ok (usable FoodNutrients Prices).
Proof.
  unfold usable_prices, getitem, usable.
  rewrite first_missing_None; [reflexivity|].
  intros k Hk. apply In_intersection in Hk. tauto.
Qed.

Lemma usable_in_columns (g : label) :
  In g (sindex (usable FoodNutrients Prices)) -> In g (columns FoodNutrients).
Proof.
  unfold sindex, usable. intros H. apply in_map_iff in H.
  destruct H as [e [<- He]]. apply In_take_labels in He.
  destruct He as [He _]. apply In_intersection in He. tauto.
Qed.

Lemma getcols_usable :
  getcols FoodNutrients (sindex (usable FoodNutrients Prices)) =
  Ok {| rows := map (fun e => (fst e, select (sindex (usable FoodNutrients Prices))
                                             (columns FoodNutrients) (snd e)))
                    (rows FoodNutrients);
        columns := flat_map (fun k => filter (fun c => String.eqb c k)
                                             (columns FoodNutrients))
                            (sindex (usable FoodNutrients Prices)) |}.
Proof.
  unfold getcols. rewrite first_missing_None; [reflexivity|].
  exact usable_in_columns.
Qed.

End Builder.

Lemma bounded_rows_spec (Aall : DataFrame) (bound : Series) :
  NoDup (index Aall) ->
  bounded_rows Aall bound =
  Ok {| rows := map (fun l => (l, match lookup l (rows Aall) with
                                  | Some r => r
                                  | None => nan_row (columns Aall)
                                  end)) (sindex bound);
        columns := columns Aall |}.
Proof.
  intros Hnd. unfold bounded_rows, loc.
  rewrite first_missing_None
    by (intros k Hk; apply In_intersection in Hk; tauto).
  cbn [bind]. unfold reindex_rows. cbn [rows columns index].
  set (keys := intersection (index Aall) (sindex bound)).
  destruct (list_eq_dec string_dec _ (sindex bound)) as [Heq|Hne].
  - f_equal. f_equal. rewrite <- Heq. unfold index. cbn [rows]. rewrite map_map.
    rewrite <- (map_id (take_labels keys (rows Aall))) at 1.
    apply map_ext_in. intros [l r] He. apply In_take_labels in He.
    destruct He as [_ He].
    pose proof (lookup_NoDup _ (rows Aall) (l, r) Hnd He) as Hl.
    cbn [fst snd] in *. now rewrite Hl.
  - unfold index in *. cbn [rows] in *.
    assert (Hu : is_unique (map fst (take_labels keys (rows Aall))) = true).
    { apply is_unique_NoDup, NoDup_take_labels; [apply NoDup_intersection | exact Hnd]. }
    rewrite Hu. f_equal. f_equal. apply map_ext_in. intros l Hl.
    rewrite lookup_take_labels.
    destruct (mem l keys) eqn:Hm; [reflexivity|].
    apply mem_false in Hm. unfold keys in Hm. rewrite In_intersection in Hm.
    assert (Hnot : ~ In l (index Aall)) by tauto.
    apply lookup_None in Hnot. now rewrite Hnot.
Qed.

Lemma assemble_spec (FoodNutrients : DataFrame) (Prices dietmin dietmax : Series) :
  NoDup (index FoodNutrients) -> NoDup (columns FoodNutrients) ->
  assemble FoodNutrients Prices dietmin dietmax =
  Ok {| cost := usable FoodNutrients Prices;
        A := {| rows := nutrient_rows FoodNutrients Prices dietmin dietmax;
                columns := sindex (usable FoodNutrients Prices) |};
        b := dietmin ++ sneg dietmax |}.
Proof.
  intros Hrows Hcols. unfold assemble.
  rewrite usable_prices_ok. cbn [bind].
  rewrite getcols_usable. cbn [bind].
  rewrite (select_labels_NoDup _ _ Hcols (usable_in_columns FoodNutrients Prices)).
  set (goods := sindex (usable FoodNutrients Prices)).
  set (Aall := fillna (Num 0) _).
  assert (HA : NoDup (index Aall)).
  { unfold Aall, fillna, index. cbn [rows]. now rewrite !map_map. }
  assert (Hlk : forall l, match lookup l (rows Aall) with
                          | Some r => r
                          | None => nan_row (columns Aall)
                          end = yield_vector FoodNutrients Prices l).
  { intros l. unfold Aall, fillna, yield_vector. cbn [rows columns].
    rewrite map_map. cbn [fst snd].
    rewrite (lookup_map_snd _ _ (fun r => map (fill (Num 0))
                                          (select goods (columns FoodNutrients) r))).
    now destruct (lookup l (rows FoodNutrients)). }
  rewrite !bounded_rows_spec by exact HA. cbn [bind].
  unfold concat, neg. cbn [rows columns].
  destruct (list_eq_dec string_dec (columns Aall) (columns Aall)) as [_|Hne];
    [|congruence].
  cbn [bind]. unfold reindex_cols. cbn [rows columns].
  destruct (list_eq_dec string_dec (columns Aall) goods) as [_|Hne];
    [|exfalso; apply Hne; reflexivity].
  cbn [bind]. unfold reindex_rows, index, sconcat, sneg, sindex. cbn [rows columns].
  rewrite !map_app, !map_map. cbn [fst snd].
  destruct (list_eq_dec string_dec _ _) as [_|Hne];
    [|exfalso; apply Hne; reflexivity].
  cbn [bind]. unfold nutrient_rows. do 3 f_equal.
  f_equal; apply map_ext; intros e; cbn [fst snd]; now rewrite Hlk.
Qed.

Lemma filter_label_NoDup (V : Type) (E : list (label * V)) (e : label * V) :
  NoDup (map fst E) -> In e E ->
  filter (fun e' => String.eqb (fst e') (fst e)) E = [e].
Proof.
  induction E as [|a E IH]; simpl; [tauto|].
  intros Hnd Hin. inversion Hnd; subst.
  destruct Hin as [->|Hin].
  - rewrite String.eqb_refl, filter_label_absent; auto.
  - destruct (String.eqb_spec (fst a) (fst e)) as [Heq|_]; [|now apply IH].
    exfalso. apply H1. rewrite Heq. now apply in_map.
Qed.

Lemma take_labels_present (V : Type) (d : V) (keys : Index) (E : list (label * V)) :
  NoDup (map fst E) -> (forall k, In k keys -> In k (map fst E)) ->
  take_labels keys E =
  map (fun k => (k, match lookup k E with Some v => v | None => d end)) keys.
Proof.
  intros Hnd. induction keys as [|k ks IH]; intros Hin; [reflexivity|].
  change (take_labels (k :: ks) E)
    with (filter (fun e => String.eqb (fst e) k) E ++ take_labels ks E).
  rewrite IH by (intros; apply Hin; now right).
  destruct (proj1 (in_map_iff _ _ _) (Hin k (or_introl eq_refl))) as [e [<- He]].
  cbn [map]. rewrite (filter_label_NoDup _ E e Hnd He), (lookup_NoDup _ E e Hnd He).
  now destruct e.
Qed.

Lemma lecture_problem_spec (D : DataFrame) (Prices bmin bmax : Series) :
  NoDup (index D) -> NoDup (columns D) ->
  (forall n, In n (sindex bmin ++ sindex bmax) -> In n (index D)) ->
  lecture_problem D Prices bmin bmax =
  Ok {| cost := usable D Prices;
        A := {| rows := nutrient_rows D Prices bmin bmax;
                columns := sindex (usable D Prices) |};
        b := bmin ++ sneg bmax |}.
Proof.
  intros Hrows Hcols Hin. unfold lecture_problem.
  rewrite usable_prices_ok. cbn [bind].
  rewrite getcols_usable. cbn [bind].
  rewrite (select_labels_NoDup _ _ Hcols (usable_in_columns D Prices)).
  set (goods := sindex (usable D Prices)).
  set (Aall := fillna (Num 0) _).
  assert (Hidx : index Aall = index D).
  { unfold Aall, fillna, index. cbn [rows]. now rewrite !map_map. }
  assert (Hlk : forall l, match lookup l (rows Aall) with
                          | Some r => r
                          | None => nan_row goods
                          end = yield_vector D Prices l).
  { intros l. unfold Aall, fillna, yield_vector. cbn [rows columns].
    rewrite map_map. cbn [fst snd].
    rewrite (lookup_map_snd _ _ (fun r => map (fill (Num 0))
                                          (select goods (columns D) r))).
    now destruct (lookup l (rows D)). }
  unfold loc.
  rewrite !first_missing_None
    by (intros k Hk; rewrite Hidx; apply Hin, in_or_app; auto).
  cbn [bind]. unfold concat, neg. cbn [rows columns].
  destruct (list_eq_dec string_dec (columns Aall) (columns Aall)) as [_|Hne];
    [|congruence].
  unfold index in Hidx.
  rewrite !(take_labels_present _ (nan_row goods))
    by (rewrite ?Hidx; auto using in_or_app).
  unfold nutrient_rows, sconcat, sindex. rewrite !map_map. cbn [fst snd bind].
  do 3 f_equal.
  f_equal; apply map_ext; intros e; now rewrite Hlk.
Qed.

(** ** Invariants of the builder, for arbitrary inputs *)

Lemma bind_Ok (U W : Type) (m : exc U) (k : U -> exc W) (w : W) :
  bind m k = Ok w -> exists u, m = Ok u /\ k u = Ok w.
Proof. destruct m as [u|e]; simpl; [eauto | discriminate]. Qed.

Ltac bind_inv H :=
  let u := fresh "u" in
  let Hu := fresh "Hu" in
  apply bind_Ok in H; destruct H as [u [Hu H]].

Lemma reindex_cols_Ok (df df' : DataFrame) (target : Index) :
  reindex_cols df target = Ok df' ->
  columns df' = target /\ index df' = index df.
Proof.
  unfold reindex_cols. destruct (list_eq_dec string_dec _ _) as [Heq|_].
  - intros [= <-]. now split.
  - destruct (is_unique (columns df)); [|discriminate].
    intros [= <-]. unfold index. cbn [rows columns]. now rewrite map_map.
Qed.

Lemma reindex_rows_Ok (df df' : DataFrame) (target : Index) :
  reindex_rows df target = Ok df' ->
  index df' = target /\ columns df' = columns df.
Proof.
  unfold reindex_rows. destruct (list_eq_dec string_dec _ _) as [Heq|_].
  - intros [= <-]. now split.
  - destruct (is_unique (index df)); [|discriminate].
    intros [= <-]. unfold index. cbn [rows columns].
    now rewrite map_map, map_id.
Qed.

Lemma loc_Ok (df df' : DataFrame) (keys : Index) :
  loc df keys = Ok df' -> columns df' = columns df.
Proof.
  unfold loc. destruct (first_missing _ _); [discriminate|]. now intros [= <-].
Qed.

Lemma concat_Ok (a c df : DataFrame) :
  columns a = columns c -> concat a c = Ok df ->
  columns df = columns a /\ index df = index a ++ index c.
Proof.
  intros Heq. unfold concat.
  destruct (list_eq_dec string_dec _ _); [|contradiction].
  intros [= <-]. unfold index. cbn [rows columns]. now rewrite map_app.
Qed.

Lemma loc_set_Ok (df df' : DataFrame) (l : label) (v : cell) :
  loc_set df l v = Ok df' ->
  columns df' = columns df /\
  index df' = if mem l (index df) then index df else index df ++ [l].
Proof.
  unfold loc_set. destruct (mem l (index df)).
  - intros [= <-]. unfold index. cbn [rows columns]. split; [reflexivity|].
    rewrite map_map. apply map_ext. intros e.
    now destruct (String.eqb (fst e) l).
  - destruct (columns df) eqn:Hc; [discriminate|].
    intros [= <-]. unfold index. cbn [rows columns].
    now rewrite map_app.
Qed.

Lemma sindex_sloc_set (s : Series) (l : label) (v : cell) :
  sindex (sloc_set s l v) = if mem l (sindex s) then sindex s else sindex s ++ [l].
Proof.
  unfold sloc_set, sindex. destruct (mem l (map fst s)).
  - rewrite map_map. apply map_ext. intros e.
    now destruct (String.eqb (fst e) l).
  - now rewrite map_app.
Qed.

Lemma sindex_bounds (s t : Series) : sindex (s ++ sneg t) = sindex s ++ sindex t.
Proof. unfold sindex, sneg. now rewrite map_app, map_map. Qed.

Lemma assemble_Ok (FoodNutrients : DataFrame) (Prices dietmin dietmax : Series)
    (pb : Problem) :
  assemble FoodNutrients Prices dietmin dietmax = Ok pb ->
  cost pb = usable FoodNutrients Prices /\
  columns (A pb) = sindex (cost pb) /\
  index (A pb) = sindex (b pb) /\
  b pb = dietmin ++ sneg dietmax.
Proof.
  unfold assemble. rewrite usable_prices_ok. cbn [bind]. intros H.
  do 5 bind_inv H. bind_inv H. injection H as <-. cbn [cost A b].
  apply reindex_rows_Ok in Hu4. apply reindex_cols_Ok in Hu3.
  destruct Hu4 as [Hi Hc], Hu3 as [Hc' _].
  repeat split; congruence.
Qed.

Lemma build_Ok (FoodNutrients : DataFrame) (Prices dietmin dietmax : Series)
    (max_weight : option cell) (pb : Problem) :
  build FoodNutrients Prices dietmin dietmax max_weight = Ok pb ->
  cost pb = usable FoodNutrients Prices /\
  columns (A pb) = sindex (cost pb) /\
  index (A pb) = sindex (b pb).
Proof.
  unfold build. intros H. bind_inv H. apply assemble_Ok in Hu.
  destruct Hu as [Hp [Hc [Hi _]]].
  destruct max_weight as [w|]; cbn [add_max_weight] in H.
  - bind_inv H. injection H as <-. cbn [cost A b].
    apply loc_set_Ok in Hu. destruct Hu as [Hc' Hi'].
    rewrite sindex_sloc_set, Hi', Hc', <- Hi. now repeat split.
  - injection H as <-. now repeat split.
Qed.

Lemma combine_fst (U W : Type) (l : list U) (l' : list W) :
  List.length l = List.length l' -> map fst (combine l l') = l.
Proof.
  revert l'. induction l as [|a l IH]; intros [|a' l']; simpl; try discriminate;
    [reflexivity|].
  intros [= H]. now rewrite IH.
Qed.

Lemma combine_snd (U W : Type) (l : list U) (l' : list W) :
  List.length l = List.length l' -> map snd (combine l l') = l'.
Proof.
  revert l'. induction l as [|a l IH]; intros [|a' l']; simpl; try discriminate;
    [reflexivity|].
  intros [= H]. now rewrite IH.
Qed.

Lemma mkSeries_Ok (q : list cell) (idx : Index) (s : Series) :
  mkSeries q idx = Ok s -> sindex s = idx /\ svalues s = q.
Proof.
  unfold mkSeries. destruct (Nat.eqb_spec (List.length q) (List.length idx)) as [Hl|_];
    [|discriminate].
  intros [= <-]. unfold sindex, svalues.
  split; [apply combine_fst | apply combine_snd]; lia.
Qed.

Lemma make_diet_Ok (r : OptimizeResult) (p d : Series) :
  make_diet r p = Ok d -> sindex d = sindex p.
Proof.
  unfold make_diet. destruct (success r).
  - intros H. now apply mkSeries_Ok in H.
  - intros H. bind_inv H. injection H as <-. apply mkSeries_Ok in Hu.
    destruct Hu as [Hu _]. rewrite <- Hu. unfold smul, sindex.
    now rewrite map_map.
Qed.

Lemma solve_Ok (lp : backend) (FoodNutrients : DataFrame)
    (Prices dietmin dietmax : Series) (max_weight : option cell) (tol : cell)
    (res : Result) :
  solve_subsistence_problem lp FoodNutrients Prices dietmin dietmax max_weight tol
    = Ok res ->
  exists pb,
    build FoodNutrients Prices dietmin dietmax max_weight = Ok pb /\
    lp (lp_c pb) (lp_A_ub pb) (lp_b_ub pb) = Ok (opt res) /\
    make_diet (opt res) (cost pb) = Ok (diet res) /\
    result_A res = A pb /\ result_b res = b pb.
Proof.
  unfold solve_subsistence_problem. intros H. do 3 bind_inv H.
  injection H as <-. exists u. now repeat split.
Qed.

Lemma build_None (FoodNutrients : DataFrame) (Prices dietmin dietmax : Series) :
  build FoodNutrients Prices dietmin dietmax None =
  assemble FoodNutrients Prices dietmin dietmax.
Proof.
  unfold build. now destruct (assemble FoodNutrients Prices dietmin dietmax).
Qed.

(** ** C1: the nutrient rows *)

(** For every catalogue, price series and pair of bound series for
    which the builder returns a problem, the rows of the constraint system
    are labelled by the entries of the minimum series, in their order,
    followed by the entries of the maximum series, in their order, and the
    bounds are the minimum bounds followed by the negated maximum bounds: one
    row per bound, those of the minimum series first.  When the labels of the
    catalogue's rows and of its columns do not repeat, the builder does
    return a problem: each row of the minimum block holds the row
    [yield_vector] of its nutrient, each row of the maximum block the negated
    one, and a nutrient bounded from both sides has two rows, the earlier
    one in the minimum block.  The lecture notebook's cells build the same system
    when every bounded nutrient is a row of the catalogue. *)
Lemma build_nutrient_rows (FoodNutrients : DataFrame) (Prices dietmin dietmax : Series) :
  (forall pb,
      build FoodNutrients Prices dietmin dietmax None = Ok pb ->
      index (A pb) = sindex dietmin ++ sindex dietmax /\
      b pb = dietmin ++ map (fun e => (fst e, cneg (snd e))) dietmax) /\
  (NoDup (index FoodNutrients) -> NoDup (columns FoodNutrients) ->
   exists pb,
     build FoodNutrients Prices dietmin dietmax None = Ok pb /\
     rows (A pb) =
       map (fun e => (fst e, yield_vector FoodNutrients Prices (fst e))) dietmin ++
       map (fun e => (fst e, map cneg (yield_vector FoodNutrients Prices (fst e))))
           dietmax /\
     b pb = dietmin ++ map (fun e => (fst e, cneg (snd e))) dietmax /\
     (forall n i j,
         nth_error (sindex dietmin) i = Some n ->
         nth_error (sindex dietmax) j = Some n ->
         nth_error (rows (A pb)) i = Some (n, yield_vector FoodNutrients Prices n) /\
         nth_error (rows (A pb)) (List.length dietmin + j) =
           Some (n, map cneg (yield_vector FoodNutrients Prices n)) /\
         i < List.length dietmin + j) /\
     ((forall n, In n (sindex dietmin ++ sindex dietmax) -> In n (index FoodNutrients)) ->
      lecture_problem FoodNutrients Prices dietmin dietmax = Ok pb)).
Proof.
  split.
  { intros pb H. rewrite build_None in H. apply assemble_Ok in H.
    destruct H as [_ [_ [Hi Hb]]]. split; [|exact Hb].
    now rewrite Hi, Hb, sindex_bounds. }
  intros Hrows Hcols. eexists. split.
  { unfold build. rewrite (assemble_spec _ Prices dietmin dietmax Hrows Hcols).
    reflexivity. }
  cbn [A b rows]. split; [reflexivity|]. split; [reflexivity|]. split.
  - intros n i j Hi Hj. unfold nutrient_rows, sindex in *.
    assert (Hlt : i < List.length dietmin).
    { rewrite <- (length_map fst dietmin). apply nth_error_Some. congruence. }
    split; [|split; [|lia]].
    + rewrite nth_error_app1 by now rewrite length_map.
      rewrite nth_error_map in *.
      destruct (nth_error dietmin i) as [e|]; [|discriminate].
      cbn in *. congruence.
    + rewrite nth_error_app2 by (rewrite length_map; lia).
      rewrite length_map.
      replace (List.length dietmin + j - List.length dietmin) with j by lia.
      rewrite nth_error_map in *.
      destruct (nth_error dietmax j) as [e|]; [|discriminate].
      cbn in *. congruence.
  - intros Hin. now apply lecture_problem_spec.
Qed.

Lemma build_nutrient_rows_example :
  NoDup (index Ex.catalogue) /\ NoDup (columns Ex.catalogue) /\
  exists pb,
    build Ex.catalogue Ex.prices Ex.dietmin Ex.dietmax None = Ok pb /\
    rows (A pb) =
      [("N", [Num 10; Num 5]); ("M", [Num 3; Num 0]);
       ("N", [Num (-10); Num (-5)])]%string /\
    b pb = [("N", Num 20); ("M", Num 1); ("N", Num (-60))]%string.
Proof.
  assert (H1 : NoDup (index Ex.catalogue)) by (apply is_unique_NoDup; reflexivity).
  assert (H2 : NoDup (columns Ex.catalogue)) by (apply is_unique_NoDup; reflexivity).
  split; [exact H1|]. split; [exact H2|].
  destruct (proj2 (build_nutrient_rows Ex.catalogue Ex.prices Ex.dietmin Ex.dietmax) H1 H2)
    as [pb [Hb [HA [Hbv _]]]].
  exists pb. split; [exact Hb|]. split; [rewrite HA | rewrite Hbv]; reflexivity.
Qed.

(** The builder's row of a nutrient is the row of the specification when the
    nutrient labels a row of the catalogue. *)
Lemma yield_vector_zero_filled (FoodNutrients : DataFrame) (Prices : Series)
    (n : label) :
  In n (index FoodNutrients) ->
  yield_vector FoodNutrients Prices n = spec_yield_vector FoodNutrients Prices n.
Proof.
  intros Hn. unfold yield_vector, spec_yield_vector.
  destruct (lookup n (rows FoodNutrients)) as [r|] eqn:Hl; [reflexivity|].
  apply lookup_None in Hl. contradiction.
Qed.

(** So the builder's rows are the rows of the specification when every
    bounded nutrient is a row of the catalogue. *)
Lemma nutrient_rows_zero_filled (FoodNutrients : DataFrame)
    (Prices dietmin dietmax : Series) :
  (forall n, In n (sindex dietmin ++ sindex dietmax) -> In n (index FoodNutrients)) ->
  nutrient_rows FoodNutrients Prices dietmin dietmax =
  spec_nutrient_rows FoodNutrients Prices dietmin dietmax.
Proof.
  intros Hin. unfold nutrient_rows, spec_nutrient_rows. f_equal.
  - apply map_ext_in. intros e He. f_equal. apply yield_vector_zero_filled.
    apply Hin, in_or_app. left. unfold sindex. now apply in_map.
  - apply map_ext_in. intros e He. do 2 f_equal. apply yield_vector_zero_filled.
    apply Hin, in_or_app. right. unfold sindex. now apply in_map.
Qed.

(** C1.  The rows of the claim are read off the zero-filled catalogue: the
    row of a bounded nutrient holds its yields, a yield that is not known
    counting as zero.  The builder fills with zero first and lines the rows
    up with the bound series afterwards, so a bounded nutrient that labels
    no row of the catalogue gets a row of missing values.  Here Zinc is not
    in the catalogue.  With a minimum on Zinc the row of the claim is
    [0; 0] and the builder's is [NaN; NaN].  With a maximum on Zinc the
    claim's rows are satisfied by two units of A, and the builder's by no
    quantity vector at all. *)
Theorem C1_absent_nutrient_row_is_not_zero_filled :
  build Ex.catalogue Ex.prices Ex2.min_zinc [] None =
    Ok {| cost := [("A"%string, Num 1); ("B"%string, Num 2)];
          A := {| rows := [("N"%string, [Num 10; Num 5]);
                           ("Zinc"%string, [NaN; NaN])];
                  columns := ["A"%string; "B"%string] |};
          b := Ex2.min_zinc |} /\
  spec_nutrient_rows Ex.catalogue Ex.prices Ex2.min_zinc [] =
    [("N"%string, [Num 10; Num 5]); ("Zinc"%string, [Num 0; Num 0])] /\
  (exists pb,
    build Ex.catalogue Ex.prices Ex.min20 Ex2.max_zinc None = Ok pb /\
    rows (A pb) = [("N"%string, [Num 10; Num 5]); ("Zinc"%string, [NaN; NaN])] /\
    b pb = [("N"%string, Num 20); ("Zinc"%string, Num (-40))] /\
    spec_nutrient_rows Ex.catalogue Ex.prices Ex.min20 Ex2.max_zinc =
      [("N"%string, [Num 10; Num 5]); ("Zinc"%string, [Num 0; Num 0])] /\
    Forall2 (fun row bi => cle (snd bi) (dot (snd row) [Num 2; Num 0]))
            (spec_nutrient_rows Ex.catalogue Ex.prices Ex.min20 Ex2.max_zinc) (b pb) /\
    forall q, ~ canonical_feasible pb q).
Proof.
  split; [reflexivity|]. split; [reflexivity|].
  eexists. split; [reflexivity|]. cbn [A b rows].
  split; [reflexivity|]. split; [reflexivity|]. split; [reflexivity|]. split.
  - repeat constructor; cbn; lra.
  - intros q [Hlen [Hrows _]]. cbn [A rows cost List.length] in Hlen, Hrows.
    destruct q as [|u [|v [|w q]]]; try discriminate Hlen.
    inversion Hrows as [|? ? ? ? _ Hrows']; subst.
    inversion Hrows' as [|? ? ? ? H2 _]; subst.
    cbn in H2. destruct u; exact H2.
Qed.

(** ** C2: the usable goods *)

Lemma In_usable (FoodNutrients : DataFrame) (Prices : Series) (e : label * cell) :
  In e (usable FoodNutrients Prices) <->
  In e Prices /\ isna (snd e) = false /\ In (fst e) (columns FoodNutrients).
Proof.
  unfold usable, dropna. rewrite In_take_labels, In_intersection, filter_In.
  rewrite negb_true_iff. unfold sindex. split.
  - tauto.
  - intros [He [Hna Hc]]. repeat split; try assumption.
    apply in_map, filter_In. now rewrite negb_true_iff.
Qed.

(** C2.  The price entries the builder keeps are exactly the entries of the
    price series whose value is not missing and whose good is a column of
    the catalogue; so a good is usable exactly when it has a defined price
    and is a catalogue column.  A good without a price, with a missing
    price, or priced but not in the catalogue is therefore in no component:
    whenever the builder returns a problem its cost vector is that selection
    and the columns of its matrix carry the same labels in the same order,
    and whenever the function returns, the matrix it reports and the index
    of the diet it reports carry them too. *)
Theorem C2_usable_goods (FoodNutrients : DataFrame) (Prices dietmin dietmax : Series)
    (max_weight : option cell) :
  (forall e, In e (usable FoodNutrients Prices) <->
             In e Prices /\ isna (snd e) = false /\ In (fst e) (columns FoodNutrients)) /\
  (forall g, In g (sindex (usable FoodNutrients Prices)) <->
             (exists v, In (g, v) Prices /\ isna v = false) /\
             In g (columns FoodNutrients)) /\
  (forall pb, build FoodNutrients Prices dietmin dietmax max_weight = Ok pb ->
              cost pb = usable FoodNutrients Prices /\
              columns (A pb) = sindex (usable FoodNutrients Prices)) /\
  (forall lp tol res,
      solve_subsistence_problem lp FoodNutrients Prices dietmin dietmax max_weight tol
        = Ok res ->
      columns (result_A res) = sindex (usable FoodNutrients Prices) /\
      sindex (diet res) = sindex (usable FoodNutrients Prices)).
Proof.
  split; [intros e; apply In_usable|]. split; [|split].
  - intros g. unfold sindex. rewrite in_map_iff. split.
    + intros [[g' v] [<- He]]. apply In_usable in He. cbn [fst snd] in *.
      split; [exists v|]; tauto.
    + intros [[v [Hv Hna]] Hc]. exists (g, v). split; [reflexivity|].
      apply In_usable. now repeat split.
  - intros pb H. apply build_Ok in H. destruct H as [Hp [Hc _]].
    split; congruence.
  - intros lp tol res H. apply solve_Ok in H.
    destruct H as [pb [Hb [_ [Hd [HA _]]]]].
    apply build_Ok in Hb. destruct Hb as [Hp [Hc _]].
    apply make_diet_Ok in Hd. split; congruence.
Qed.

(** The worked input: C and D are dropped, A and B stay, in the order of the
    price series. *)
Lemma C2_usable_goods_witness :
  usable Ex.catalogue Ex.prices = [("A", Num 1); ("B", Num 2)]%string /\
  (forall pb, build Ex.catalogue Ex.prices Ex.dietmin Ex.dietmax (Some (Num 12)) = Ok pb ->
              cost pb = usable Ex.catalogue Ex.prices /\
              columns (A pb) = sindex (usable Ex.catalogue Ex.prices)) /\
  exists pb, build Ex.catalogue Ex.prices Ex.dietmin Ex.dietmax (Some (Num 12)) = Ok pb.
Proof.
  split; [reflexivity|]. split.
  - exact (proj1 (proj2 (proj2
      (C2_usable_goods Ex.catalogue Ex.prices Ex.dietmin Ex.dietmax (Some (Num 12)))))).
  - eexists. reflexivity.
Defined.

(** ** C3: the problem handed to the backend *)

Lemma ceq_refl (a : cell) : ceq a a.
Proof. destruct a; simpl; [reflexivity | exact I]. Qed.

Lemma dot_neg (r q : list cell) : ceq (dot (map cneg r) q) (cneg (dot r q)).
Proof.
  revert q. induction r as [|a r IH]; intros [|c q]; simpl; try reflexivity.
  specialize (IH q).
  destruct a as [a|], c as [c|], (dot (map cneg r) q) as [u|], (dot r q) as [d|];
    cbn [ceq cneg cmul cadd] in *; try tauto.
  rewrite IH. ring.
Qed.

Lemma cle_neg (u d bi : cell) :
  ceq u (cneg d) -> (cle u (cneg bi) <-> cle bi d).
Proof.
  destruct u as [u|], d as [d|], bi as [bi|]; cbn [ceq cle cneg]; try tauto.
  intros Hu. split; intros H; lra.
Qed.

Lemma rows_neg_feasible (R : list (label * list cell)) (B : Series) (q : list cell) :
  Forall2 (fun row bi => cle (dot row q) bi)
          (values (neg {| rows := R; columns := [] |})) (svalues (sneg B)) <->
  Forall2 (fun row bi => cle (snd bi) (dot (snd row) q)) R B.
Proof.
  unfold values, neg, svalues, sneg. cbn [rows].
  revert B. induction R as [|r R IH]; intros [|bi B]; simpl; split; intros H;
    try (inversion H; fail); try constructor.
  - inversion H; subst. now apply (cle_neg _ _ _ (dot_neg (snd r) q)).
  - inversion H; subst. now apply IH.
  - inversion H; subst. now apply (cle_neg _ _ _ (dot_neg (snd r) q)).
  - inversion H; subst. now apply IH.
Qed.

Lemma backend_canonical (pb : Problem) (q : list cell) :
  backend_feasible (lp_c pb) (lp_A_ub pb) (lp_b_ub pb) q <-> canonical_feasible pb q.
Proof.
  unfold backend_feasible, canonical_feasible, lp_c, lp_A_ub, lp_b_ub, svalues.
  rewrite length_map.
  rewrite <- (rows_neg_feasible (rows (A pb)) (b pb) q).
  reflexivity.
Qed.

Lemma minimum_backend_canonical (pb : Problem) (q : list cell) (v : cell) :
  minimum (lp_c pb) (backend_feasible (lp_c pb) (lp_A_ub pb) (lp_b_ub pb)) q v <->
  minimum (lp_c pb) (canonical_feasible pb) q v.
Proof.
  unfold minimum. rewrite backend_canonical.
  split; intros [Hf [Hv Hmin]]; (split; [exact Hf|]; split; [exact Hv|]);
    intros q' Hq'; apply Hmin; now apply backend_canonical.
Qed.

(** C3.  The backend is called with the price vector and with every row of
    [A] and every entry of [b] negated, once.  A quantity vector satisfies
    the backend's constraints [(-A) q <= (-b)], [q >= 0] exactly when it
    satisfies the canonical ones [A q >= b], [q >= 0]; the two problems share
    the objective, so they have the same minimisers and the same minimum
    value. *)
Theorem C3_backend_problem_is_canonical (pb : Problem) :
  lp_A_ub pb = map (map cneg) (values (A pb)) /\
  lp_b_ub pb = map cneg (svalues (b pb)) /\
  (forall q, backend_feasible (lp_c pb) (lp_A_ub pb) (lp_b_ub pb) q <->
             canonical_feasible pb q) /\
  (forall q v,
      minimum (lp_c pb) (backend_feasible (lp_c pb) (lp_A_ub pb) (lp_b_ub pb)) q v <->
      minimum (lp_c pb) (canonical_feasible pb) q v) /\
  (forall lp FoodNutrients Prices dietmin dietmax max_weight tol res,
      solve_subsistence_problem lp FoodNutrients Prices dietmin dietmax max_weight tol
        = Ok res ->
      exists pb',
        build FoodNutrients Prices dietmin dietmax max_weight = Ok pb' /\
        lp (lp_c pb') (lp_A_ub pb') (lp_b_ub pb') = Ok (opt res)).
Proof.
  split; [|split; [|split; [|split]]].
  - unfold lp_A_ub, values, neg. cbn [rows]. now rewrite !map_map.
  - unfold lp_b_ub, svalues, sneg. now rewrite !map_map.
  - apply backend_canonical.
  - apply minimum_backend_canonical.
  - intros lp F P dmin dmax mw tol res H. apply solve_Ok in H.
    destruct H as [pb' [Hb [Hlp _]]]. now exists pb'.
Qed.

(** ** C4: an infeasible problem *)

Lemma nan_series (p : Series) (q : list cell) :
  List.length q = List.length p ->
  smul (combine (sindex p) q) NaN = map (fun e => (fst e, NaN)) p.
Proof.
  intros Hl. unfold smul, sindex.
  transitivity (map (fun g : label => (g, NaN)) (map fst (combine (map fst p) q))).
  - rewrite map_map. apply map_ext. intros [g c]. now destruct c.
  - rewrite combine_fst by (rewrite length_map; lia). now rewrite map_map.
Qed.

Lemma make_diet_failure (r : OptimizeResult) (p : Series) :
  success r = false -> List.length (x r) = List.length p ->
  make_diet r p = Ok (map (fun e => (fst e, NaN)) p).
Proof.
  intros Hs Hl. unfold make_diet, mkSeries, sindex. rewrite Hs, length_map.
  rewrite (proj2 (Nat.eqb_eq _ _) Hl). cbn [bind]. f_equal.
  now apply nan_series.
Qed.

Lemma make_diet_success (r : OptimizeResult) (p : Series) :
  success r = true -> List.length (x r) = List.length p ->
  make_diet r p = Ok (combine (sindex p) (x r)).
Proof.
  intros Hs Hl. unfold make_diet, mkSeries, sindex. rewrite Hs, length_map.
  now rewrite (proj2 (Nat.eqb_eq _ _) Hl).
Qed.

Lemma sound_infeasible (pb : Problem) (r : OptimizeResult) :
  backend_sound (lp_c pb) (lp_A_ub pb) (lp_b_ub pb) r ->
  (forall q, ~ canonical_feasible pb q) ->
  success r = false.
Proof.
  intros Hsound Hinf. destruct (success r) eqn:Hs; [|reflexivity].
  destruct (Hsound Hs) as [Hf _]. apply backend_canonical in Hf.
  now apply Hinf in Hf.
Qed.

(** Take any input for which the builder returns a problem, and a
    backend call on it that returns a result with one quantity per good and
    that reports success only with a feasible minimiser.  If no quantity
    vector satisfies the constraints, the function does not raise: it
    returns a result whose success flag is false, whose diet has the
    missing-value marker for every usable good, and which carries the
    backend's own result, with its status and message, unchanged. *)
Lemma infeasible_result (lp : backend) (FoodNutrients : DataFrame)
    (Prices dietmin dietmax : Series) (max_weight : option cell) (tol : cell)
    (pb : Problem) (r : OptimizeResult) :
  build FoodNutrients Prices dietmin dietmax max_weight = Ok pb ->
  lp (lp_c pb) (lp_A_ub pb) (lp_b_ub pb) = Ok r ->
  List.length (x r) = List.length (cost pb) ->
  backend_sound (lp_c pb) (lp_A_ub pb) (lp_b_ub pb) r ->
  (forall q, ~ canonical_feasible pb q) ->
  exists res,
    solve_subsistence_problem lp FoodNutrients Prices dietmin dietmax max_weight tol
      = Ok res /\
    success (opt res) = false /\
    diet res = map (fun e => (fst e, NaN)) (cost pb) /\
    Forall (fun e => snd e = NaN) (diet res) /\
    sindex (diet res) = sindex (cost pb) /\
    opt res = r.
Proof.
  intros Hb Hlp Hlen Hsound Hinf.
  pose proof (sound_infeasible pb r Hsound Hinf) as Hs.
  eexists. split.
  { unfold solve_subsistence_problem. rewrite Hb. cbn [bind]. rewrite Hlp.
    cbn [bind]. rewrite (make_diet_failure _ _ Hs Hlen). reflexivity. }
  cbn [opt diet]. repeat split; try assumption.
  - apply Forall_forall. intros e He. apply in_map_iff in He.
    now destruct He as [e' [<- _]].
  - unfold sindex. now rewrite map_map.
Qed.

(** Two quantities that are not negative. *)
Lemma nonneg_pair (q : list cell) :
  List.length q = 2 -> nonneg q ->
  exists u v, q = [Num u; Num v] /\ (0 <= u)%Q /\ (0 <= v)%Q.
Proof.
  intros Hl Hn. destruct q as [|a [|c [|d q]]]; try discriminate.
  inversion Hn as [|? ? Ha Hn']; subst. inversion Hn' as [|? ? Hc _]; subst.
  destruct a as [u|], c as [v|]; cbn [cle] in *; try contradiction.
  now exists u, v.
Qed.

(** With a minimum of 1000 units of N and at most one unit of food, nothing
    is feasible: one unit of food yields at most 10 units of N. *)
Lemma min1000_cap1_infeasible (pb : Problem) :
  build Ex.catalogue2 Ex.prices2 Ex.min1000 [] (Some (Num 1)) = Ok pb ->
  forall q, ~ canonical_feasible pb q.
Proof.
  intros H q [Hlen [Hrows Hnn]]. vm_compute in H. injection H as <-.
  cbn [cost A b rows List.length] in Hlen, Hrows.
  destruct (nonneg_pair q Hlen Hnn) as [u [v [-> [Hu Hv]]]].
  inversion Hrows as [|? ? ? ? H1 Hrows']; subst.
  inversion Hrows' as [|? ? ? ? H2 _]; subst.
  cbn [snd dot cmul cadd cle] in H1, H2. lra.
Qed.

Lemma infeasible_result_example :
  exists res,
    solve_subsistence_problem Ex.lp_infeasible Ex.catalogue2 Ex.prices2 Ex.min1000 []
      (Some (Num 1)) (Num (1 # 1000000)) = Ok res /\
    success (opt res) = false /\
    diet res = [("A", NaN); ("B", NaN)]%string.
Proof.
  destruct (build Ex.catalogue2 Ex.prices2 Ex.min1000 [] (Some (Num 1)))
    as [pb|e] eqn:Hb; [|discriminate Hb].
  destruct (infeasible_result Ex.lp_infeasible Ex.catalogue2 Ex.prices2 Ex.min1000 []
              (Some (Num 1)) (Num (1 # 1000000)) pb
              (Ex.infeasible_report (lp_c pb)) Hb eq_refl)
    as [res [Hres [Hs [Hd _]]]].
  - unfold Ex.infeasible_report, lp_c, svalues. cbn [x]. now rewrite !length_map.
  - intros Hs. discriminate Hs.
  - exact (min1000_cap1_infeasible pb Hb).
  - exists res. split; [exact Hres|]. split; [exact Hs|].
    rewrite Hd. vm_compute in Hb. injection Hb as <-. reflexivity.
Qed.

(** The function has no handler around the backend call: what the backend
    raises, the function raises. *)
Lemma backend_exception_propagates (lp : backend) (FoodNutrients : DataFrame)
    (Prices dietmin dietmax : Series) (max_weight : option cell) (tol : cell)
    (pb : Problem) (e : exn) :
  build FoodNutrients Prices dietmin dietmax max_weight = Ok pb ->
  lp (lp_c pb) (lp_A_ub pb) (lp_b_ub pb) = Raise e ->
  solve_subsistence_problem lp FoodNutrients Prices dietmin dietmax max_weight tol
    = Raise e.
Proof.
  intros Hb Hlp. unfold solve_subsistence_problem. rewrite Hb. cbn [bind].
  now rewrite Hlp.
Qed.

(** C4.  No good of these prices is usable, and 20 units of N are asked for:
    the problem has one row and no column, and no quantity vector satisfies
    it.  With a cap the function does not reach the backend: writing the cap
    row into a matrix without columns raises, whatever the backend is.
    Without a cap the backend is called on the problem without columns, and
    an exception of the backend comes out of the function as it is. *)
Theorem C4_no_usable_good_raises (lp : backend) (tol : cell) :
  build Ex.catalogue2 Ex2.prices_unlisted Ex.min20 [] None = Ok Ex2.problem_no_goods /\
  (forall q, ~ canonical_feasible Ex2.problem_no_goods q) /\
  solve_subsistence_problem lp Ex.catalogue2 Ex2.prices_unlisted Ex.min20 []
    (Some (Num 1)) tol = Raise NoDefinedColumns /\
  (forall e,
     lp (lp_c Ex2.problem_no_goods) (lp_A_ub Ex2.problem_no_goods)
        (lp_b_ub Ex2.problem_no_goods) = Raise e ->
     solve_subsistence_problem lp Ex.catalogue2 Ex2.prices_unlisted Ex.min20 []
       None tol = Raise e).
Proof.
  split; [reflexivity|]. split; [|split; [reflexivity|]].
  - intros q [Hlen [Hrows _]]. cbn [Ex2.problem_no_goods cost A b rows] in Hlen, Hrows.
    destruct q; [|discriminate Hlen].
    inversion Hrows as [|? ? ? ? H1 _]; subst. cbn in H1. lra.
  - intros e He.
    now apply (backend_exception_propagates lp Ex.catalogue2 Ex2.prices_unlisted
                 Ex.min20 [] None tol Ex2.problem_no_goods e).
Qed.

(** ** C8: the two-good scenario *)

Lemma solve_with (lp : backend) (FoodNutrients : DataFrame)
    (Prices dietmin dietmax : Series) (max_weight : option cell) (tol : cell)
    (pb : Problem) (r : OptimizeResult) (d : Series) :
  build FoodNutrients Prices dietmin dietmax max_weight = Ok pb ->
  lp (lp_c pb) (lp_A_ub pb) (lp_b_ub pb) = Ok r ->
  make_diet r (cost pb) = Ok d ->
  solve_subsistence_problem lp FoodNutrients Prices dietmin dietmax max_weight tol =
  Ok {| opt := r; result_A := A pb; result_b := b pb; diet := d |}.
Proof.
  intros Hb Hlp Hd. unfold solve_subsistence_problem.
  rewrite Hb. cbn [bind]. rewrite Hlp. cbn [bind]. now rewrite Hd.
Qed.

Lemma build_min20 :
  build Ex.catalogue2 Ex.prices2 Ex.min20 [] None = Ok Ex.problem20.
Proof. reflexivity. Qed.

Lemma build_min1000_cap1 :
  build Ex.catalogue2 Ex.prices2 Ex.min1000 [] (Some (Num 1)) = Ok Ex.problem1000.
Proof. reflexivity. Qed.

(** In the first problem of the scenario, two units of A and none of B cost
    2 and nothing feasible is cheaper. *)
Lemma min20_minimum :
  minimum [Num 1; Num 2]
          (backend_feasible [Num 1; Num 2] [[Num (-10); Num (-5)]] [Num (-20)])
          [Num 2; Num 0] (Num 2).
Proof.
  split; [|split].
  - split; [reflexivity|]. split.
    + repeat constructor. cbn [dot cmul cadd cle]. lra.
    + repeat constructor; cbn [cle]; lra.
  - cbn [dot cmul cadd ceq]. lra.
  - intros q' [Hlen [Hrows Hnn]].
    destruct (nonneg_pair q' Hlen Hnn) as [u [v [-> [Hu Hv]]]].
    inversion Hrows as [|? ? ? ? H1 _]; subst.
    cbn [dot cmul cadd cle] in *. lra.
Qed.

(** ... and it is the only minimiser. *)
Lemma min20_minimum_unique (q : list cell) (v : cell) :
  minimum [Num 1; Num 2]
          (backend_feasible [Num 1; Num 2] [[Num (-10); Num (-5)]] [Num (-20)]) q v ->
  exists qa qb, q = [Num qa; Num qb] /\ (qa == 2)%Q /\ (qb == 0)%Q /\ ceq v (Num 2).
Proof.
  intros [[Hlen [Hrows Hnn]] [Hv Hmin]].
  destruct (nonneg_pair q Hlen Hnn) as [qa [qb [-> [Ha Hb]]]].
  specialize (Hmin _ (proj1 min20_minimum)).
  inversion Hrows as [|? ? ? ? H1 _]; subst.
  cbn [dot cmul cadd cle] in *.
  exists qa, qb. split; [reflexivity|].
  assert (Hqb : (qb == 0)%Q) by lra.
  assert (Hqa : (qa == 2)%Q) by lra.
  split; [exact Hqa|]. split; [exact Hqb|].
  destruct v as [v|]; cbn [ceq] in *; [lra | contradiction].
Qed.

(** C8.  For the two-good input the function calls the backend on: minimise
    [1 a + 2 b] subject to [-10 a - 5 b <= -20].  With a backend that is
    right about that call (it reports success when a minimiser exists, and
    then returns one with its value), the function returns success, the diet
    A = 2 and B = 0, and the cost 2.  With the minimum raised to 1000 and a
    cap of one unit of food, the call is: [-10 a - 5 b <= -1000] and
    [a + b <= 1]; with a backend that reports success only with a feasible
    point, the function returns with success false. *)
Theorem C8_two_good_scenario (lp : backend) (tol : cell) (r1 r2 : OptimizeResult) :
  lp [Num 1; Num 2] [[Num (-10); Num (-5)]] [Num (-20)] = Ok r1 ->
  backend_sound [Num 1; Num 2] [[Num (-10); Num (-5)]] [Num (-20)] r1 ->
  backend_complete [Num 1; Num 2] [[Num (-10); Num (-5)]] [Num (-20)] r1 ->
  lp [Num 1; Num 2] [[Num (-10); Num (-5)]; [Num 1; Num 1]] [Num (-1000); Num 1]
    = Ok r2 ->
  backend_sound [Num 1; Num 2] [[Num (-10); Num (-5)]; [Num 1; Num 1]]
                [Num (-1000); Num 1] r2 ->
  List.length (x r2) = 2 ->
  (exists res,
      solve_subsistence_problem lp Ex.catalogue2 Ex.prices2 Ex.min20 [] None tol
        = Ok res /\
      success (opt res) = true /\
      (exists qa qb, diet res = [("A"%string, Num qa); ("B"%string, Num qb)] /\
                     (qa == 2)%Q /\ (qb == 0)%Q) /\
      ceq (fun_ (opt res)) (Num 2)) /\
  (exists res,
      solve_subsistence_problem lp Ex.catalogue2 Ex.prices2 Ex.min1000 []
        (Some (Num 1)) tol = Ok res /\
      success (opt res) = false /\
      diet res = [("A"%string, NaN); ("B"%string, NaN)]).
Proof.
  intros Hlp1 Hsound1 Hcomplete1 Hlp2 Hsound2 Hlen2. split.
  - assert (Hs : success r1 = true).
    { apply Hcomplete1. exists [Num 2; Num 0], (Num 2). exact min20_minimum. }
    destruct (min20_minimum_unique _ _ (Hsound1 Hs)) as [qa [qb [Hx [Hqa [Hqb Hv]]]]].
    eexists. split.
    { eapply solve_with; [exact build_min20 | exact Hlp1 |].
      apply make_diet_success; [exact Hs | now rewrite Hx]. }
    cbn [opt diet cost]. split; [exact Hs|]. split; [|exact Hv].
    exists qa, qb. rewrite Hx. now repeat split.
  - assert (Hs : success r2 = false).
    { apply (sound_infeasible Ex.problem1000 r2 Hsound2).
      exact (min1000_cap1_infeasible _ build_min1000_cap1). }
    eexists. split.
    { eapply solve_with; [exact build_min1000_cap1 | exact Hlp2 |].
      apply make_diet_failure; [exact Hs | exact Hlen2]. }
    cbn [opt diet cost]. split; [exact Hs | reflexivity].
Qed.

Lemma C8_two_good_scenario_witness :
  (exists res,
      solve_subsistence_problem Ex.lp_scenario Ex.catalogue2 Ex.prices2 Ex.min20 []
        None (Num (1 # 1000000)) = Ok res /\
      success (opt res) = true /\
      (exists qa qb, diet res = [("A"%string, Num qa); ("B"%string, Num qb)] /\
                     (qa == 2)%Q /\ (qb == 0)%Q) /\
      ceq (fun_ (opt res)) (Num 2)) /\
  (exists res,
      solve_subsistence_problem Ex.lp_scenario Ex.catalogue2 Ex.prices2 Ex.min1000 []
        (Some (Num 1)) (Num (1 # 1000000)) = Ok res /\
      success (opt res) = false /\
      diet res = [("A"%string, NaN); ("B"%string, NaN)]).
Proof.
  apply (C8_two_good_scenario Ex.lp_scenario (Num (1 # 1000000))
           Ex.optimum20 (Ex.infeasible_report [Num 1; Num 2]) eq_refl).
  - intros _. exact min20_minimum.
  - intros _. reflexivity.
  - reflexivity.
  - intros Hs. discriminate Hs.
  - reflexivity.
Defined.

(** ** C5: the total-quantity cap *)

(** When no bound carries the label of the cap row and there is a usable
    good, the cap adds one final row: -1 for every usable good, against the
    bound -cap. *)
Lemma cap_row_appended (FoodNutrients : DataFrame) (Prices dietmin dietmax : Series)
    (w : cell) (pb : Problem) :
  build FoodNutrients Prices dietmin dietmax None = Ok pb ->
  ~ In Hectograms (sindex dietmin ++ sindex dietmax) ->
  usable FoodNutrients Prices <> [] ->
  build FoodNutrients Prices dietmin dietmax (Some w) =
  Ok {| cost := cost pb;
        A := {| rows := rows (A pb) ++
                        [(Hectograms, map (fun _ => Num (-1)) (cost pb))];
                columns := columns (A pb) |};
        b := b pb ++ [(Hectograms, cneg w)] |}.
Proof.
  rewrite build_None. intros Hb Hnot Hne. unfold build. rewrite Hb.
  cbn [bind add_max_weight].
  apply assemble_Ok in Hb. destruct Hb as [Hp [Hc [Hi Hbv]]].
  assert (Hm : mem Hectograms (sindex (b pb)) = false).
  { apply mem_false. rewrite Hbv. unfold sindex, sneg in *.
    now rewrite map_app, map_map. }
  unfold loc_set, sloc_set. rewrite Hi, Hm, Hc.
  destruct (cost pb) as [|e p] eqn:Hcost; [congruence|].
  cbn [sindex map bind]. do 3 f_equal. f_equal. f_equal.
  unfold sindex. now rewrite map_map.
Qed.

(** Without a bound labelled like the cap row, the built system has one
    column per usable price entry and one row per bound, plus one for the
    cap. *)
Lemma build_shape (FoodNutrients : DataFrame) (Prices dietmin dietmax : Series)
    (max_weight : option cell) (pb : Problem) :
  build FoodNutrients Prices dietmin dietmax max_weight = Ok pb ->
  ~ In Hectograms (sindex dietmin ++ sindex dietmax) ->
  List.length (rows (A pb)) =
    List.length dietmin + List.length dietmax +
    match max_weight with Some _ => 1 | None => 0 end /\
  List.length (columns (A pb)) = List.length (usable FoodNutrients Prices).
Proof.
  intros H Hnot. pose proof (build_Ok _ _ _ _ _ _ H) as [Hp [Hc _]].
  split; [|rewrite Hc, Hp; apply length_map].
  unfold build in H. bind_inv H. apply assemble_Ok in Hu.
  destruct Hu as [_ [_ [Hi Hbv]]].
  assert (Hlen : List.length (index (A u)) = List.length dietmin + List.length dietmax).
  { rewrite Hi, Hbv, sindex_bounds, length_app. unfold sindex.
    now rewrite !length_map. }
  rewrite <- (length_map fst (rows (A pb))). fold (index (A pb)).
  destruct max_weight as [w|]; cbn [add_max_weight] in H.
  - bind_inv H. injection H as <-. cbn [A]. apply loc_set_Ok in Hu.
    destruct Hu as [_ Hi']. rewrite Hi', Hi, Hbv, sindex_bounds.
    rewrite (proj2 (mem_false _ _) Hnot), length_app. cbn [List.length].
    rewrite <- sindex_bounds, <- Hbv, <- Hi. lia.
  - injection H as <-. lia.
Qed.

(** C5.  The cap row is written under the fixed label [Hectograms].  When a
    bound already carries that label the builder adds no row: it overwrites
    the coefficients of that nutrient's row with -1 and its bound with -cap.
    Here the minimum of 3 hectograms is lost and the system has two rows for
    two bounds and a cap. *)
Theorem C5_cap_overwrites_row_labelled_Hectograms :
  build Ex.catalogue_weight Ex.prices2 Ex.min_weight [] (Some (Num 12)) =
  Ok {| cost := Ex.prices2;
        A := {| rows := [("N"%string, [Num 10; Num 5]);
                         (Hectograms, [Num (-1); Num (-1)])];
                columns := ["A"%string; "B"%string] |};
        b := [("N"%string, Num 20); (Hectograms, Num (-12))] |} /\
  build Ex.catalogue_weight Ex.prices2 Ex.min_weight [] None =
  Ok {| cost := Ex.prices2;
        A := {| rows := [("N"%string, [Num 10; Num 5]);
                         (Hectograms, [Num 1; Num 1])];
                columns := ["A"%string; "B"%string] |};
        b := [("N"%string, Num 20); (Hectograms, Num 3)] |}.
Proof. split; reflexivity. Qed.

(** ** C10: a bounded nutrient that the catalogue does not have *)

Lemma add_max_weight_keeps_row (pb pb' : Problem) (max_weight : option cell)
    (i : nat) (n : label) (r : list cell) :
  add_max_weight pb max_weight = Ok pb' ->
  max_weight = None \/ n <> Hectograms ->
  nth_error (rows (A pb)) i = Some (n, r) ->
  nth_error (rows (A pb')) i = Some (n, r).
Proof.
  intros H Hn Hi. destruct max_weight as [w|]; cbn [add_max_weight] in H.
  - destruct Hn as [Hn|Hn]; [discriminate|].
    bind_inv H. injection H as <-. cbn [A]. unfold loc_set in Hu.
    destruct (mem Hectograms (index (A pb))).
    + injection Hu as <-. cbn [rows]. rewrite nth_error_map, Hi. cbn [option_map fst].
      destruct (String.eqb_spec n Hectograms) as [Heq|_]; [contradiction | reflexivity].
    + destruct (columns (A pb)); [discriminate|]. injection Hu as <-. cbn [rows].
      rewrite nth_error_app1; [exact Hi|]. apply nth_error_Some. congruence.
  - now injection H as <-.
Qed.

Lemma yield_vector_absent (FoodNutrients : DataFrame) (Prices : Series) (n : label) :
  ~ In n (index FoodNutrients) ->
  yield_vector FoodNutrients Prices n = nan_row (sindex (usable FoodNutrients Prices)).
Proof.
  intros Hn. unfold yield_vector.
  now rewrite (proj2 (lookup_None _ n (rows FoodNutrients)) Hn).
Qed.

Lemma yield_vector_present (FoodNutrients : DataFrame) (Prices : Series) (n : label) :
  In n (index FoodNutrients) ->
  Forall (fun c => isna c = false) (yield_vector FoodNutrients Prices n).
Proof.
  intros Hn. unfold yield_vector.
  destruct (lookup n (rows FoodNutrients)) as [r|] eqn:Hl.
  - apply Forall_forall. intros c Hc. apply in_map_iff in Hc.
    destruct Hc as [c' [<- _]]. now destruct c'.
  - apply lookup_None in Hl. contradiction.
Qed.

(** C10.  Let the labels of the catalogue's rows and columns not repeat, and
    let [n] be a nutrient that labels no row of the catalogue.  The builder
    still returns a problem, and for every entry of the minimum series
    labelled [n] the row at that position is labelled [n] and holds the
    missing-value marker for every usable good; likewise, in the maximum
    block, for every entry of the maximum series labelled [n].  The
    backend receives these rows as they are.  A nutrient that does label a
    catalogue row has no missing coefficient: the zero fill applies to it
    alone.  The same rows are in the problem built with a cap, unless [n] is
    the label of the cap row. *)
Theorem C10_absent_nutrient_row_is_nan (FoodNutrients : DataFrame)
    (Prices dietmin dietmax : Series) (n : label) :
  NoDup (index FoodNutrients) -> NoDup (columns FoodNutrients) ->
  ~ In n (index FoodNutrients) ->
  let nans := nan_row (sindex (usable FoodNutrients Prices)) in
  exists pb,
    build FoodNutrients Prices dietmin dietmax None = Ok pb /\
    (forall i, nth_error (sindex dietmin) i = Some n ->
               nth_error (rows (A pb)) i = Some (n, nans) /\
               nth_error (lp_A_ub pb) i = Some nans) /\
    (forall j, nth_error (sindex dietmax) j = Some n ->
               nth_error (rows (A pb)) (List.length dietmin + j) = Some (n, nans) /\
               nth_error (lp_A_ub pb) (List.length dietmin + j) = Some nans) /\
    (forall m, In m (index FoodNutrients) ->
               Forall (fun c => isna c = false) (yield_vector FoodNutrients Prices m)) /\
    (forall max_weight pb' i,
        build FoodNutrients Prices dietmin dietmax max_weight = Ok pb' ->
        max_weight = None \/ n <> Hectograms ->
        nth_error (rows (A pb)) i = Some (n, nans) ->
        nth_error (rows (A pb')) i = Some (n, nans)).
Proof.
  intros Hrows Hcols Hn nans.
  pose proof (assemble_spec FoodNutrients Prices dietmin dietmax Hrows Hcols) as Hspec.
  eexists. split; [rewrite build_None; exact Hspec|].
  assert (Hneg : map cneg nans = nans).
  { unfold nans, nan_row. rewrite map_map. reflexivity. }
  assert (Hmin : forall i, nth_error (sindex dietmin) i = Some n ->
                 nth_error (nutrient_rows FoodNutrients Prices dietmin dietmax) i
                 = Some (n, nans)).
  { intros i Hi. unfold nutrient_rows, sindex in *.
    rewrite nth_error_app1
      by (rewrite length_map, <- (length_map fst dietmin);
          apply nth_error_Some; congruence).
    rewrite nth_error_map in *.
    destruct (nth_error dietmin i) as [e|]; [|discriminate].
    cbn in Hi |- *. injection Hi as ->.
    now rewrite (yield_vector_absent _ _ _ Hn). }
  assert (Hmax : forall j, nth_error (sindex dietmax) j = Some n ->
                 nth_error (nutrient_rows FoodNutrients Prices dietmin dietmax)
                           (List.length dietmin + j) = Some (n, nans)).
  { intros j Hj. unfold nutrient_rows, sindex in *.
    rewrite nth_error_app2 by (rewrite length_map; lia).
    rewrite length_map.
    replace (List.length dietmin + j - List.length dietmin) with j by lia.
    rewrite nth_error_map in *.
    destruct (nth_error dietmax j) as [e|]; [|discriminate].
    cbn in Hj |- *. injection Hj as ->.
    rewrite (yield_vector_absent _ _ _ Hn).
    change (nan_row (sindex (usable FoodNutrients Prices))) with nans.
    now rewrite Hneg. }
  assert (Hlp : forall i, nth_error (nutrient_rows FoodNutrients Prices dietmin dietmax) i
                          = Some (n, nans) ->
                nth_error (map snd (map (fun e : label * list cell =>
                                           (fst e, map cneg (snd e)))
                             (nutrient_rows FoodNutrients Prices dietmin dietmax))) i
                = Some nans).
  { intros i Hi. rewrite !nth_error_map, Hi. cbn. now rewrite Hneg. }
  cbn [A rows]. unfold lp_A_ub, values, neg. cbn [A rows].
  split; [|split; [|split; [|]]].
  - intros i Hi. split; [|apply Hlp]; now apply Hmin.
  - intros j Hj. split; [|apply Hlp]; now apply Hmax.
  - intros m. apply yield_vector_present.
  - intros mw pb' i Hb' Hcase Hi. unfold build in Hb'. rewrite Hspec in Hb'.
    cbn [bind] in Hb'.
    now apply (add_max_weight_keeps_row _ pb' mw i n nans Hb' Hcase).
Qed.

Lemma C10_absent_nutrient_row_is_nan_witness :
  exists pb,
    build Ex.catalogue Ex.prices [("N", Num 20); ("Zinc", Num 11)]%string
          [("Zinc", Num 40)]%string None = Ok pb /\
    nth_error (rows (A pb)) 1 = Some ("Zinc"%string, [NaN; NaN]) /\
    nth_error (lp_A_ub pb) 1 = Some [NaN; NaN] /\
    nth_error (rows (A pb)) 2 = Some ("Zinc"%string, [NaN; NaN]).
Proof.
  assert (H1 : NoDup (index Ex.catalogue)) by (apply is_unique_NoDup; reflexivity).
  assert (H2 : NoDup (columns Ex.catalogue)) by (apply is_unique_NoDup; reflexivity).
  assert (H3 : ~ In "Zinc"%string (index Ex.catalogue))
    by (apply mem_false; reflexivity).
  destruct (C10_absent_nutrient_row_is_nan Ex.catalogue Ex.prices
              [("N", Num 20); ("Zinc", Num 11)]%string [("Zinc", Num 40)]%string
              "Zinc"%string H1 H2 H3) as [pb [Hb [Hmin [Hmax _]]]].
  exists pb. split; [exact Hb|].
  destruct (Hmin 1 eq_refl) as [Ha Hl]. destruct (Hmax 0 eq_refl) as [Ha' _].
  repeat split; assumption.
Defined.

(** ** C9: repeated labels *)

Lemma length_filter_mem_cons (V : Type) (k : label) (ks : Index)
    (E : list (label * V)) :
  ~ In k ks ->
  List.length (filter (fun e => mem (fst e) (k :: ks)) E) =
  List.length (filter (fun e => String.eqb (fst e) k) E) +
  List.length (filter (fun e => mem (fst e) ks) E).
Proof.
  intros Hnot. induction E as [|e E IHE]; [reflexivity|].
  cbn [filter]. change (mem (fst e) (k :: ks))
    with (String.eqb (fst e) k || mem (fst e) ks).
  destruct (String.eqb_spec (fst e) k) as [Heq|Hne]; cbn [orb].
  - rewrite Heq, (proj2 (mem_false k ks) Hnot). cbn [List.length]. now rewrite IHE.
  - destruct (mem (fst e) ks); cbn [List.length]; rewrite IHE; lia.
Qed.

Lemma length_take_labels (V : Type) (keys : Index) (E : list (label * V)) :
  NoDup keys ->
  List.length (take_labels keys E) =
  List.length (filter (fun e => mem (fst e) keys) E).
Proof.
  intros Hk. induction Hk as [|k ks Hnot Hks IH].
  - induction E; simpl; auto.
  - change (take_labels (k :: ks) E)
      with (filter (fun e => String.eqb (fst e) k) E ++ take_labels ks E).
    now rewrite length_app, IH, length_filter_mem_cons.
Qed.

Lemma usable_length (FoodNutrients : DataFrame) (Prices : Series) :
  List.length (usable FoodNutrients Prices) =
  List.length (filter (fun e => mem (fst e) (columns FoodNutrients)) (dropna Prices)).
Proof.
  unfold usable. rewrite length_take_labels by apply NoDup_intersection.
  f_equal. apply filter_ext_in. intros e He.
  destruct (mem (fst e) (columns FoodNutrients)) eqn:Hm.
  - apply mem_In, In_intersection. split; [now apply in_map | now apply mem_In].
  - apply mem_false. rewrite In_intersection. apply mem_false in Hm. tauto.
Qed.

(** A label that occurs twice in an axis survives twice in any selection
    that asks for it. *)
Lemma take_labels_repeated (V : Type) (keys : Index) (E : list (label * V)) (n : label) :
  In n keys -> count_occ string_dec (map fst E) n >= 2 ->
  ~ NoDup (map fst (take_labels keys E)).
Proof.
  intros Hin Hcount Hnd. apply in_split in Hin. destruct Hin as [k1 [k2 ->]].
  unfold take_labels in Hnd. rewrite flat_map_app in Hnd. cbn [flat_map] in Hnd.
  rewrite !map_app in Hnd.
  apply NoDup_app_remove_l, NoDup_app_remove_r in Hnd.
  clear k1 k2. induction E as [|e E IH]; simpl in *; [lia|].
  destruct (string_dec (fst e) n) as [Heq|Hne].
  - rewrite (proj2 (String.eqb_eq _ _) Heq) in Hnd. simpl in Hnd.
    inversion Hnd as [|? ? Hnotin _]; subst. apply Hnotin.
    assert (Hc : count_occ string_dec (map fst E) (fst e) > 0) by lia.
    apply count_occ_In, in_map_iff in Hc. destruct Hc as [e' [He' Hin']].
    apply in_map_iff. exists e'. split; [exact He'|].
    apply filter_In. split; [exact Hin' | now apply String.eqb_eq].
  - rewrite (proj2 (String.eqb_neq _ _) Hne) in Hnd. now apply IH.
Qed.

(** A catalogue with two rows for a nutrient of a duplicate-free bound
    series stops the selection of the bounded rows. *)
Lemma bounded_rows_duplicate (Aall : DataFrame) (bound : Series) (n : label) :
  In n (sindex bound) -> NoDup (sindex bound) ->
  count_occ string_dec (index Aall) n >= 2 ->
  bounded_rows Aall bound = Raise DuplicateLabels.
Proof.
  intros Hin Hnd Hcount. unfold bounded_rows, loc.
  rewrite first_missing_None
    by (intros k Hk; apply In_intersection in Hk; tauto).
  cbn [bind]. unfold reindex_rows, index. cbn [rows].
  assert (Hdup : ~ NoDup (map fst (take_labels
                   (intersection (index Aall) (sindex bound)) (rows Aall)))).
  { apply take_labels_repeated with (n := n); [|exact Hcount].
    apply In_intersection. split; [|exact Hin].
    apply (count_occ_In string_dec). unfold index in *. lia. }
  destruct (list_eq_dec string_dec _ _) as [Heq|_].
  - exfalso. apply Hdup. unfold index in *. now rewrite Heq.
  - destruct (is_unique _) eqn:Hu; [|reflexivity].
    apply is_unique_NoDup in Hu. contradiction.
Qed.

Lemma bounded_rows_raises (Aall : DataFrame) (bound : Series) (e : exn) :
  bounded_rows Aall bound = Raise e -> e = DuplicateLabels.
Proof.
  unfold bounded_rows, loc.
  rewrite first_missing_None
    by (intros k Hk; apply In_intersection in Hk; tauto).
  cbn [bind]. unfold reindex_rows.
  destruct (list_eq_dec string_dec _ _); [discriminate|].
  destruct (is_unique _); [discriminate|]. now intros [= <-].
Qed.

Lemma length_filter_eqb (cols : Index) (k : label) :
  List.length (filter (fun c => String.eqb c k) cols) = count_occ string_dec cols k.
Proof.
  induction cols as [|c cs IH]; simpl; [reflexivity|].
  destruct (String.eqb_spec c k) as [Heq|Hne], (string_dec c k) as [Heq'|Hne'];
    simpl; congruence.
Qed.

Lemma selected_columns_longer (cols keys : Index) (g : label) :
  (forall k, In k keys -> In k cols) -> In g keys ->
  count_occ string_dec cols g >= 2 ->
  List.length (flat_map (fun k => filter (fun c => String.eqb c k) cols) keys)
  > List.length keys.
Proof.
  intros Hsub Hg Hcount.
  assert (Hge : forall ks, (forall k, In k ks -> In k cols) ->
                List.length (flat_map (fun k => filter (fun c => String.eqb c k) cols) ks)
                >= List.length ks).
  { induction ks as [|k ks IH]; intros Hks; simpl; [lia|].
    rewrite length_app, length_filter_eqb.
    assert (count_occ string_dec cols k > 0)
      by (apply count_occ_In, Hks; now left).
    assert (List.length (flat_map (fun k => filter (fun c => String.eqb c k) cols) ks)
            >= List.length ks) by (apply IH; intros; apply Hks; now right).
    lia. }
  apply in_split in Hg. destruct Hg as [k1 [k2 ->]].
  rewrite flat_map_app, !length_app. cbn [flat_map List.length].
  rewrite length_app, length_filter_eqb.
  assert (H1 : List.length (flat_map (fun k => filter (fun c => String.eqb c k) cols) k1)
               >= List.length k1)
    by (apply Hge; intros k Hk; apply Hsub, in_or_app; now left).
  assert (H2 : List.length (flat_map (fun k => filter (fun c => String.eqb c k) cols) k2)
               >= List.length k2)
    by (apply Hge; intros k Hk; apply Hsub, in_or_app; right; now right).
  lia.
Qed.

(** A usable good that labels two columns of the catalogue stops the
    builder at the reindexing of the columns. *)
Lemma assemble_duplicate_column (FoodNutrients : DataFrame)
    (Prices dietmin dietmax : Series) (g : label) :
  NoDup (index FoodNutrients) ->
  In g (sindex (usable FoodNutrients Prices)) ->
  count_occ string_dec (columns FoodNutrients) g >= 2 ->
  assemble FoodNutrients Prices dietmin dietmax = Raise DuplicateLabels.
Proof.
  intros Hrows Hg Hcount. unfold assemble.
  rewrite usable_prices_ok. cbn [bind].
  rewrite getcols_usable. cbn [bind].
  set (goods := sindex (usable FoodNutrients Prices)) in *.
  set (cols' := flat_map _ goods).
  set (Aall := fillna (Num 0) _).
  assert (HA : NoDup (index Aall)).
  { unfold Aall, fillna, index. cbn [rows]. now rewrite !map_map. }
  rewrite !bounded_rows_spec by exact HA. cbn [bind].
  unfold concat, neg. cbn [rows columns].
  destruct (list_eq_dec string_dec (columns Aall) (columns Aall)) as [_|Hne];
    [|congruence].
  cbn [bind]. unfold reindex_cols. cbn [rows columns].
  assert (Hlen : List.length cols' > List.length goods).
  { apply selected_columns_longer with (g := g); try assumption.
    apply usable_in_columns. }
  destruct (list_eq_dec string_dec (columns Aall) goods) as [Heq|_].
  { change (columns Aall) with cols' in Heq. rewrite Heq in Hlen. lia. }
  destruct (is_unique (columns Aall)) eqn:Hu; [|reflexivity].
  change (columns Aall) with cols' in Hu.
  exfalso. apply is_unique_NoDup in Hu.
  apply in_split in Hg. destruct Hg as [k1 [k2 Hsplit]].
  unfold cols' in Hu. rewrite Hsplit, flat_map_app in Hu. cbn [flat_map] in Hu.
  apply NoDup_app_remove_l, NoDup_app_remove_r in Hu.
  clear - Hu Hcount. induction (columns FoodNutrients) as [|c cs IH];
    simpl in *; [lia|].
  destruct (string_dec c g) as [Heq|Hne].
  - rewrite (proj2 (String.eqb_eq _ _) Heq) in Hu.
    inversion Hu as [|? ? Hnotin _]; subst. apply Hnotin.
    apply filter_In. split; [|apply String.eqb_refl].
    apply (count_occ_In string_dec). lia.
  - rewrite (proj2 (String.eqb_neq _ _) Hne) in Hu. now apply IH.
Qed.

(** A bounded nutrient that labels two rows of the catalogue stops the
    builder at the reindexing of the bounded rows, when the bound series
    that names it does not repeat a label. *)
Lemma assemble_duplicate_row (FoodNutrients : DataFrame)
    (Prices dietmin dietmax : Series) (n : label) :
  count_occ string_dec (index FoodNutrients) n >= 2 ->
  (In n (sindex dietmin) /\ NoDup (sindex dietmin)) \/
  (In n (sindex dietmax) /\ NoDup (sindex dietmax)) ->
  assemble FoodNutrients Prices dietmin dietmax = Raise DuplicateLabels.
Proof.
  intros Hcount Hcase. unfold assemble.
  rewrite usable_prices_ok. cbn [bind].
  rewrite getcols_usable. cbn [bind].
  set (Aall := fillna (Num 0) _).
  assert (HA : index Aall = index FoodNutrients).
  { unfold Aall, fillna, index. cbn [rows]. now rewrite !map_map. }
  rewrite <- HA in Hcount.
  destruct Hcase as [[Hin Hnd]|[Hin Hnd]].
  - now rewrite (bounded_rows_duplicate Aall dietmin n Hin Hnd Hcount).
  - destruct (bounded_rows Aall dietmin) as [Amin|e] eqn:Hmin.
    + cbn [bind]. now rewrite (bounded_rows_duplicate Aall dietmax n Hin Hnd Hcount).
    + apply bounded_rows_raises in Hmin. now subst.
Qed.

Lemma make_diet_total (r : OptimizeResult) (p : Series) :
  List.length (x r) = List.length p -> exists d, make_diet r p = Ok d.
Proof.
  intros Hl. destruct (success r) eqn:Hs.
  - eexists. now apply make_diet_success.
  - eexists. now apply make_diet_failure.
Qed.

(** Against C9 as stated: a minimum series that bounds N twice, or a price
    series that prices A twice, raises nothing.  The builder returns a
    problem that keeps both occurrences, and the function returns. *)
Lemma C9_repeated_keys_are_accepted :
  is_unique (sindex Ex.min_twice) = false /\
  build Ex.catalogue2 Ex.prices2 Ex.min_twice [] None =
    Ok {| cost := Ex.prices2;
          A := {| rows := [("N"%string, [Num 10; Num 5]); ("N"%string, [Num 10; Num 5])];
                  columns := ["A"%string; "B"%string] |};
          b := Ex.min_twice |} /\
  (exists res,
      solve_subsistence_problem Ex.lp_infeasible Ex.catalogue2 Ex.prices2 Ex.min_twice
        [] None (Num (1 # 1000000)) = Ok res) /\
  is_unique (sindex Ex.prices_twice) = false /\
  build Ex.catalogue2 Ex.prices_twice Ex.min20 [] None =
    Ok {| cost := Ex.prices_twice;
          A := {| rows := [("N"%string, [Num 10; Num 10; Num 5])];
                  columns := ["A"%string; "A"%string; "B"%string] |};
          b := Ex.min20 |}.
Proof.
  split; [reflexivity|]. split; [reflexivity|]. split; [|split; reflexivity].
  eexists. reflexivity.
Qed.

(** C9, amended.  The builder has no check for repeated labels.  When the
    labels of the catalogue's rows and of its columns do not repeat, it
    returns a problem whatever repeats in the price series and in the bound
    series: one cost entry per price entry that is defined and in the
    catalogue, one column per cost entry, one row per bound entry; and the
    function goes on to the backend and returns whenever the backend returns
    one quantity per column.  Only a repeated catalogue label stops the
    builder, with the reindexing error of pandas: the label of a usable good
    on two columns, or the label of a nutrient on two rows when a bound
    series that does not repeat a label bounds it. *)
Theorem C9_repeated_labels (FoodNutrients : DataFrame) (Prices dietmin dietmax : Series) :
  (NoDup (index FoodNutrients) -> NoDup (columns FoodNutrients) ->
   exists pb,
     build FoodNutrients Prices dietmin dietmax None = Ok pb /\
     List.length (cost pb) =
       List.length (filter (fun e => mem (fst e) (columns FoodNutrients))
                           (dropna Prices)) /\
     columns (A pb) = sindex (cost pb) /\
     index (A pb) = sindex dietmin ++ sindex dietmax /\
     sindex (b pb) = sindex dietmin ++ sindex dietmax /\
     (forall lp tol r,
         lp (lp_c pb) (lp_A_ub pb) (lp_b_ub pb) = Ok r ->
         List.length (x r) = List.length (cost pb) ->
         exists res,
           solve_subsistence_problem lp FoodNutrients Prices dietmin dietmax None tol
             = Ok res /\ opt res = r)) /\
  (forall g max_weight,
      NoDup (index FoodNutrients) ->
      In g (sindex (usable FoodNutrients Prices)) ->
      count_occ string_dec (columns FoodNutrients) g >= 2 ->
      build FoodNutrients Prices dietmin dietmax max_weight = Raise DuplicateLabels) /\
  (forall n max_weight,
      count_occ string_dec (index FoodNutrients) n >= 2 ->
      (In n (sindex dietmin) /\ NoDup (sindex dietmin)) \/
      (In n (sindex dietmax) /\ NoDup (sindex dietmax)) ->
      build FoodNutrients Prices dietmin dietmax max_weight = Raise DuplicateLabels).
Proof.
  split; [|split].
  - intros Hrows Hcols.
    pose proof (assemble_spec FoodNutrients Prices dietmin dietmax Hrows Hcols) as Hspec.
    rewrite <- build_None in Hspec.
    eexists. split; [exact Hspec|]. cbn [cost A b rows columns].
    split; [apply usable_length|]. split; [reflexivity|].
    assert (Hidx : forall f : label * cell -> cell,
               sindex (map (fun e => (fst e, f e)) dietmax) = sindex dietmax).
    { intros f. unfold sindex. rewrite map_map. reflexivity. }
    split; [|split].
    + unfold index, nutrient_rows. cbn [rows]. rewrite map_app, !map_map. reflexivity.
    + unfold sindex, sneg. rewrite map_app, map_map. reflexivity.
    + intros lp tol r Hlp Hlen.
      destruct (make_diet_total r _ Hlen) as [d Hd].
      eexists. split; [exact (solve_with lp _ _ _ _ _ tol _ r d Hspec Hlp Hd)|].
      reflexivity.
  - intros g mw Hrows Hg Hcount. unfold build.
    now rewrite (assemble_duplicate_column FoodNutrients Prices dietmin dietmax g).
  - intros n mw Hcount Hcase. unfold build.
    now rewrite (assemble_duplicate_row FoodNutrients Prices dietmin dietmax n).
Qed.

Lemma C9_repeated_labels_witness :
  (exists pb, build Ex.catalogue2 Ex.prices_twice Ex.min_twice [] None = Ok pb /\
              List.length (cost pb) = 3 /\
              index (A pb) = ["N"; "N"]%string) /\
  build Ex.catalogue_two_columns Ex.prices2 Ex.min20 [] None = Raise DuplicateLabels /\
  build Ex.catalogue_two_rows Ex.prices2 Ex.min20 [] None = Raise DuplicateLabels.
Proof.
  split; [|split].
  - assert (H1 : NoDup (index Ex.catalogue2)) by (apply is_unique_NoDup; reflexivity).
    assert (H2 : NoDup (columns Ex.catalogue2)) by (apply is_unique_NoDup; reflexivity).
    destruct (proj1 (C9_repeated_labels Ex.catalogue2 Ex.prices_twice Ex.min_twice [])
                H1 H2) as [pb [Hb [Hl [_ [Hi _]]]]].
    exists pb. split; [exact Hb|]. split; [exact Hl | exact Hi].
  - apply (proj1 (proj2 (C9_repeated_labels Ex.catalogue_two_columns Ex.prices2
                           Ex.min20 [])) "A"%string None).
    + apply is_unique_NoDup. reflexivity.
    + cbn. now left.
    + cbn. lia.
  - apply (proj2 (proj2 (C9_repeated_labels Ex.catalogue_two_rows Ex.prices2
                           Ex.min20 [])) "N"%string None).
    + cbn. lia.
    + left. split; [cbn; now left | apply is_unique_NoDup; reflexivity].
Defined.

(** ** C6: the diagnostics cells *)

Lemma combine_map (U U' W W' : Type) (f : U -> U') (g : W -> W')
    (l : list U) (l' : list W) :
  combine (map f l) (map g l') = map (fun e => (f (fst e), g (snd e))) (combine l l').
Proof.
  revert l'. induction l as [|a l IH]; intros [|a' l']; simpl; try reflexivity.
  now rewrite IH.
Qed.

Lemma outcome_table_aligned (A0 : DataFrame) (b0 diet0 : Series) :
  columns A0 = sindex diet0 -> index A0 = sindex b0 ->
  outcome_table A0 b0 diet0 =
  Ok {| rows := map (fun e => (fst (fst e),
                               [realized (snd (fst e)) (svalues diet0);
                                cabs (snd (snd e))]))
                    (combine (rows A0) b0);
        columns := ["Outcome"; "Recommendation"]%string |}.
Proof.
  intros Hc Hi. unfold outcome_table, frame_dot, abs. cbn [rows columns].
  destruct (list_eq_dec string_dec (columns A0) (sindex diet0)) as [_|Hne];
    [|contradiction].
  cbn [bind]. unfold frame_of_series, sabs, sindex, index in *.
  rewrite !map_map. cbn [fst snd].
  destruct (list_eq_dec string_dec _ _) as [_|Hne]; [|contradiction].
  f_equal. f_equal.
  rewrite (combine_map _ _ _ _ (fun e : label * list cell =>
                          (fst e, dot (map cabs (snd e)) (svalues diet0)))
                       (fun e : label * cell => (fst e, cabs (snd e)))).
  rewrite map_map. reflexivity.
Qed.

Lemma binding_of_table (E : list ((label * list cell) * (label * cell)))
    (dv : list cell) (threshold : cell) :
  binding {| rows := map (fun e => (fst (fst e),
                                    [realized (snd (fst e)) dv; cabs (snd (snd e))])) E;
             columns := ["Outcome"; "Recommendation"]%string |} threshold =
  map (fun e => fst (fst e))
      (filter (fun e => is_binding (snd (fst e)) (snd (snd e)) dv threshold) E).
Proof.
  unfold binding, iloc_col, diff_axis1, sindex. cbn [rows].
  induction E as [|e E IH]; [reflexivity|].
  cbn [map filter fst snd diff_cells nth] in *.
  change (cltb (cabs (csub (cabs (snd (snd e))) (realized (snd (fst e)) dv))) threshold)
    with (is_binding (snd (fst e)) (snd (snd e)) dv threshold).
  destruct (is_binding _ _ _ _); cbn [map fst]; now rewrite IH.
Qed.

(** The test, read on the numbers. *)
Lemma is_binding_spec (row : list cell) (bound : cell) (dv : list cell)
    (threshold : cell) :
  is_binding row bound dv threshold = true <->
  exists qb qo qt,
    bound = Num qb /\ realized row dv = Num qo /\ threshold = Num qt /\
    (Qabs (Qabs qb - qo) < qt)%Q.
Proof.
  unfold is_binding.
  destruct bound as [qb|], (realized row dv) as [qo|], threshold as [qt|];
    cbn [cabs csub cltb]; split; try discriminate;
    try (intros [? [? [? [? [? [? _]]]]]]; discriminate).
  - intros H. exists qb, qo, qt. repeat split.
    apply negb_true_iff in H. apply Qnot_le_lt. intros Hle.
    apply Qle_bool_iff in Hle. congruence.
  - intros [qb' [qo' [qt' [[= <-] [[= <-] [[= <-] Hlt]]]]]].
    apply negb_true_iff. destruct (Qle_bool qt _) eqn:Hle; [|reflexivity].
    apply Qle_bool_iff in Hle. exfalso. now apply (Qlt_not_le _ _ Hlt).
Qed.

(** Against C6 as stated, for the cell of Project2/diet_problem2.ipynb.  The
    backend stops at 2.000005 units of A; the outcome for N is 20.00005
    against the bound 20, a difference of 0.00005, fifty times the tolerance
    1e-6.  The cell still lists N as constraining; the cell of the lecture
    notebook, on the same problem and result, does not. *)
Lemma C6_listed_outside_the_tolerance :
  exists res,
    solve_subsistence_problem Ex.lp_near Ex.catalogue2 Ex.prices2 Ex.min20 [] None
      Ex.tol = Ok res /\
    constraining_nutrients res Ex.tol = Ok ["N"%string] /\
    (exists d, cabs (csub (cabs (Num 20))
                          (realized [Num 10; Num 5] (svalues (diet res)))) = Num d /\
               (d == 5 # 100000)%Q /\ ~ (d <= 1 # 1000000)%Q) /\
    lecture_constraining_nutrients Ex.problem20 (opt res) Ex.tol = Ok [].
Proof.
  eexists. split; [reflexivity|]. split; [reflexivity|]. split; [|reflexivity].
  eexists. split; [reflexivity|]. split; [reflexivity|].
  intros H. vm_compute in H. now apply H.
Qed.

(** C6, amended.  For every result the function returns, the diagnostics
    cell tabulates, constraint by constraint and in the order of the rows,
    the outcome [|A| . diet] next to [|b|], and lists the labels of the
    constraints whose absolute difference between the two is strictly below
    the cell's threshold.  In Project2/diet_problem2.ipynb the threshold is
    100 times [tol]; in the lecture notebook, whose cell works on the
    problem of that notebook and on the quantities the backend returned, it
    is [tol]. *)
Theorem C6_binding_constraints (lp : backend) (FoodNutrients : DataFrame)
    (Prices dietmin dietmax : Series) (max_weight : option cell) (tol : cell)
    (res : Result) :
  solve_subsistence_problem lp FoodNutrients Prices dietmin dietmax max_weight tol
    = Ok res ->
  let dv := svalues (diet res) in
  let constraints := combine (rows (result_A res)) (result_b res) in
  outcome_table (result_A res) (result_b res) (diet res) =
    Ok {| rows := map (fun e => (fst (fst e),
                                 [realized (snd (fst e)) dv; cabs (snd (snd e))]))
                      constraints;
          columns := ["Outcome"; "Recommendation"]%string |} /\
  List.length constraints = List.length (result_b res) /\
  constraining_nutrients res tol =
    Ok (map (fun e => fst (fst e))
            (filter (fun e => is_binding (snd (fst e)) (snd (snd e)) dv
                                         (cmul tol (Num 100)))
                    constraints)) /\
  (forall pb r,
      columns (A pb) = sindex (cost pb) -> index (A pb) = sindex (b pb) ->
      List.length (x r) = List.length (cost pb) ->
      lecture_constraining_nutrients pb r tol =
        Ok (map (fun e => fst (fst e))
                (filter (fun e => is_binding (snd (fst e)) (snd (snd e)) (x r) tol)
                        (combine (rows (A pb)) (b pb))))) /\
  (forall row bound threshold,
      is_binding row bound dv threshold = true <->
      exists qb qo qt,
        bound = Num qb /\ realized row dv = Num qo /\ threshold = Num qt /\
        (Qabs (Qabs qb - qo) < qt)%Q).
Proof.
  intros H dv constraints. apply solve_Ok in H.
  destruct H as [pb [Hb [Hlp [Hd [HA Hbv]]]]].
  pose proof (build_Ok _ _ _ _ _ _ Hb) as [Hp [Hc Hi]].
  pose proof (make_diet_Ok _ _ _ Hd) as Hdi.
  assert (Hcol : columns (result_A res) = sindex (diet res)) by congruence.
  assert (Hidx : index (result_A res) = sindex (result_b res)) by congruence.
  pose proof (outcome_table_aligned _ _ _ Hcol Hidx) as Htab.
  split; [exact Htab|]. split; [|split; [|split]].
  - unfold constraints. rewrite length_combine.
    assert (Hl : List.length (rows (result_A res)) = List.length (result_b res)).
    { unfold index, sindex in Hidx.
      rewrite <- (length_map fst (rows (result_A res))), Hidx. apply length_map. }
    lia.
  - unfold constraining_nutrients. rewrite Htab. cbn [bind]. f_equal.
    apply binding_of_table.
  - intros pb' r Hc' Hi' Hl'. unfold lecture_constraining_nutrients, mkSeries.
    unfold sindex at 1. rewrite length_map, (proj2 (Nat.eqb_eq _ _) Hl').
    cbn [bind]. rewrite outcome_table_aligned.
    + cbn [bind]. unfold svalues.
      rewrite combine_snd by (unfold sindex; rewrite length_map; lia).
      f_equal. apply binding_of_table.
    + rewrite Hc'. unfold sindex.
      now rewrite combine_fst by (rewrite length_map; lia).
    + exact Hi'.
  - intros row bound threshold. apply is_binding_spec.
Qed.

Lemma C6_binding_constraints_witness :
  exists res,
    solve_subsistence_problem Ex.lp_near Ex.catalogue2 Ex.prices2 Ex.min20 [] None
      Ex.tol = Ok res /\
    constraining_nutrients res Ex.tol = Ok ["N"%string] /\
    lecture_constraining_nutrients Ex.problem20 Ex.optimum_near Ex.tol = Ok [].
Proof.
  destruct (solve_subsistence_problem Ex.lp_near Ex.catalogue2 Ex.prices2 Ex.min20 []
              None Ex.tol) as [res|e] eqn:Hres; [|discriminate Hres].
  exists res. split; [reflexivity|].
  destruct (C6_binding_constraints Ex.lp_near Ex.catalogue2 Ex.prices2 Ex.min20 []
              None Ex.tol res Hres) as [_ [_ [Hc [Hl _]]]].
  vm_compute in Hres. injection Hres as <-.
  split; [rewrite Hc | rewrite (Hl Ex.problem20 Ex.optimum_near eq_refl eq_refl eq_refl)];
    reflexivity.
Defined.

(** ** C7: tightening one bound *)

(** ** C7: tightening one bound *)

Lemma tighter_refl (s : Series) : Forall2 tighter s s.
Proof. induction s; constructor; [split; auto | assumption]. Qed.

Lemma tighter_sindex (s s' : Series) : Forall2 tighter s s' -> sindex s' = sindex s.
Proof.
  induction 1 as [|e e' s s' [Hf _] _ IH]; [reflexivity|].
  unfold sindex in *. simpl. now rewrite Hf, IH.
Qed.

Lemma sindex_set_bound (s : Series) (i : nat) (v : cell) :
  sindex (set_bound s i v) = sindex s.
Proof.
  unfold set_bound, sindex. rewrite <- (firstn_skipn i s) at 3.
  rewrite !map_app. f_equal. now destruct (skipn i s).
Qed.

(** Raising the value of one entry. *)
Lemma set_bound_raises (s : Series) (i : nat) (old new : cell) :
  nth_error (svalues s) i = Some old -> cle old new ->
  Forall2 tighter s (set_bound s i new).
Proof.
  revert i. induction s as [|e s IH]; intros [|i]; simpl; try discriminate.
  - intros [= <-] Hle. constructor; [|apply tighter_refl]. split; auto.
  - intros Hi Hle. constructor; [split; auto|]. now apply IH.
Qed.

(** Lowering the value of one entry raises the negated entry. *)
Lemma set_bound_lowers (s : Series) (j : nat) (old new : cell) :
  nth_error (svalues s) j = Some old -> cle new old ->
  Forall2 tighter (sneg s) (sneg (set_bound s j new)).
Proof.
  revert j. induction s as [|e s IH]; intros [|j]; simpl; try discriminate.
  - intros [= <-] Hle. constructor; [|apply tighter_refl]. split; [reflexivity|].
    right. cbn [snd]. destruct new as [qn|], (snd e) as [qo|]; cbn [cle cneg] in *;
      try contradiction. lra.
  - intros Hj Hle. constructor; [split; auto|]. now apply (IH j).
Qed.

Lemma tightens_bounds (dietmin dietmax dietmin' dietmax' : Series) :
  tightens_one_bound dietmin dietmax dietmin' dietmax' ->
  sindex dietmin' = sindex dietmin /\ sindex dietmax' = sindex dietmax /\
  Forall2 tighter (dietmin ++ sneg dietmax) (dietmin' ++ sneg dietmax').
Proof.
  intros [[i [old [new [Hi [Hle [-> ->]]]]]] | [j [old [new [Hj [Hle [-> ->]]]]]]].
  - split; [apply sindex_set_bound|]. split; [reflexivity|].
    apply Forall2_app; [now apply set_bound_raises with (old := old)|].
    apply tighter_refl.
  - split; [reflexivity|]. split; [apply sindex_set_bound|].
    apply Forall2_app; [apply tighter_refl|].
    now apply set_bound_lowers with (old := old).
Qed.

(** The builder reads the bound series' labels to build [A]; their values
    only go to [b]. *)
Lemma assemble_same_labels (FoodNutrients : DataFrame)
    (Prices dietmin dietmax dietmin' dietmax' : Series) :
  sindex dietmin' = sindex dietmin -> sindex dietmax' = sindex dietmax ->
  assemble FoodNutrients Prices dietmin' dietmax' =
  (pb <- assemble FoodNutrients Prices dietmin dietmax ;;
   Ok {| cost := cost pb; A := A pb; b := dietmin' ++ sneg dietmax' |}).
Proof.
  intros Hmin Hmax. unfold assemble, bounded_rows, sconcat.
  rewrite !sindex_bounds, Hmin, Hmax.
  repeat match goal with
         | |- bind ?m _ = _ => destruct m; cbn [bind]; try reflexivity
         end.
Qed.

Lemma sloc_set_tighter (s s' : Series) (l : label) (v : cell) :
  Forall2 tighter s s' -> Forall2 tighter (sloc_set s l v) (sloc_set s' l v).
Proof.
  intros H. unfold sloc_set. rewrite (tighter_sindex s s' H).
  destruct (mem l (sindex s)).
  - induction H as [|e e' s s' [Hf Hv] _ IH]; simpl; constructor; [|exact IH].
    rewrite Hf. destruct (String.eqb (fst e) l); split; auto.
  - apply Forall2_app; [exact H|]. constructor; [split; auto | constructor].
Qed.

Lemma build_tightened (FoodNutrients : DataFrame)
    (Prices dietmin dietmax dietmin' dietmax' : Series) (max_weight : option cell)
    (pb1 pb2 : Problem) :
  tightens_one_bound dietmin dietmax dietmin' dietmax' ->
  build FoodNutrients Prices dietmin dietmax max_weight = Ok pb1 ->
  build FoodNutrients Prices dietmin' dietmax' max_weight = Ok pb2 ->
  cost pb2 = cost pb1 /\ A pb2 = A pb1 /\ Forall2 tighter (b pb1) (b pb2).
Proof.
  intros Ht H1 H2. apply tightens_bounds in Ht. destruct Ht as [Hmin [Hmax Hb]].
  unfold build in *.
  rewrite (assemble_same_labels FoodNutrients Prices dietmin dietmax _ _ Hmin Hmax)
    in H2.
  bind_inv H1. bind_inv H2. bind_inv Hu0. rewrite Hu in Hu1. injection Hu1 as <-.
  injection Hu0 as <-. apply assemble_Ok in Hu. destruct Hu as [_ [_ [_ Hbv]]].
  destruct max_weight as [w|]; cbn [add_max_weight cost A b] in *.
  - bind_inv H1. bind_inv H2. rewrite Hu in Hu0. injection Hu0 as <-.
    injection H1 as <-. injection H2 as <-. cbn [cost A b].
    split; [reflexivity|]. split; [reflexivity|].
    apply sloc_set_tighter. now rewrite Hbv.
  - injection H1 as <-. injection H2 as <-. cbn [cost A b].
    split; [reflexivity|]. split; [reflexivity|]. now rewrite Hbv.
Qed.

(** A quantity vector that satisfies the tightened problem satisfies the
    original one. *)
Lemma tightened_feasible (pb1 pb2 : Problem) (q : list cell) :
  cost pb2 = cost pb1 -> A pb2 = A pb1 -> Forall2 tighter (b pb1) (b pb2) ->
  canonical_feasible pb2 q -> canonical_feasible pb1 q.
Proof.
  intros Hc HA Hb [Hlen [Hrows Hnn]]. rewrite Hc, HA in *.
  split; [exact Hlen|]. split; [|exact Hnn].
  revert Hrows. generalize (rows (A pb1)) as R. clear - Hb.
  induction Hb as [|e e' s s' [_ Hv] _ IH]; intros R HR; inversion HR; subst;
    constructor; [|now apply IH].
  destruct Hv as [Hv|Hv]; [now rewrite <- Hv|].
  destruct (snd e) as [u|], (snd e') as [u'|], (dot (snd x0) q) as [d|];
    cbn [cle] in *; try contradiction. lra.
Qed.

Lemma cle_ceq (u u' v v' : cell) : ceq u u' -> ceq v v' -> cle u' v' -> cle u v.
Proof.
  destruct u as [a|], u' as [a'|], v as [c|], v' as [c'|]; cbn [ceq cle];
    try contradiction. intros Ha Hc Hle. lra.
Qed.

(** The minimum cost of the tightened problem is at least the minimum cost
    of the original one. *)
Lemma tightened_minimum (pb1 pb2 : Problem) (q1 q2 : list cell) (v1 v2 : cell) :
  cost pb2 = cost pb1 ->
  (forall q, canonical_feasible pb2 q -> canonical_feasible pb1 q) ->
  minimum (lp_c pb1) (canonical_feasible pb1) q1 v1 ->
  minimum (lp_c pb2) (canonical_feasible pb2) q2 v2 ->
  cle v1 v2.
Proof.
  intros Hc Hsub [_ [Hv1 Hmin1]] [Hf2 [Hv2 _]].
  assert (Hcost : lp_c pb2 = lp_c pb1) by (unfold lp_c; now rewrite Hc).
  rewrite Hcost in Hv2.
  exact (cle_ceq _ _ _ _ Hv1 Hv2 (Hmin1 _ (Hsub _ Hf2))).
Qed.

(** C7.  Let two inputs differ in one bound only, which the second tightens
    (a minimum raised or a maximum lowered), and let the builder return a
    problem for each.  Every quantity vector feasible for the second problem
    is feasible for the first, so the minimum cost of the second problem is
    at least the minimum cost of the first.  When the backend is right about
    both calls (a success it reports carries a minimiser and its cost) and
    both results are successes, the cost reported for the second input is at
    least the cost reported for the first; and when the second problem has
    no feasible vector, its success flag is false. *)
Theorem C7_tightening_never_lowers_cost (lp : backend) (FoodNutrients : DataFrame)
    (Prices dietmin dietmax dietmin' dietmax' : Series) (max_weight : option cell)
    (tol : cell) (pb1 pb2 : Problem) (res1 res2 : Result) :
  tightens_one_bound dietmin dietmax dietmin' dietmax' ->
  build FoodNutrients Prices dietmin dietmax max_weight = Ok pb1 ->
  build FoodNutrients Prices dietmin' dietmax' max_weight = Ok pb2 ->
  solve_subsistence_problem lp FoodNutrients Prices dietmin dietmax max_weight tol
    = Ok res1 ->
  solve_subsistence_problem lp FoodNutrients Prices dietmin' dietmax' max_weight tol
    = Ok res2 ->
  backend_sound (lp_c pb1) (lp_A_ub pb1) (lp_b_ub pb1) (opt res1) ->
  backend_sound (lp_c pb2) (lp_A_ub pb2) (lp_b_ub pb2) (opt res2) ->
  (forall q, canonical_feasible pb2 q -> canonical_feasible pb1 q) /\
  (forall q1 v1 q2 v2,
      minimum (lp_c pb1) (canonical_feasible pb1) q1 v1 ->
      minimum (lp_c pb2) (canonical_feasible pb2) q2 v2 ->
      cle v1 v2) /\
  (success (opt res1) = true -> success (opt res2) = true ->
   cle (fun_ (opt res1)) (fun_ (opt res2))) /\
  ((forall q, ~ canonical_feasible pb2 q) -> success (opt res2) = false).
Proof.
  intros Ht Hb1 Hb2 Hres1 Hres2 Hsound1 Hsound2.
  destruct (build_tightened _ _ _ _ _ _ _ _ _ Ht Hb1 Hb2) as [Hc [HA Hb]].
  assert (Hsub : forall q, canonical_feasible pb2 q -> canonical_feasible pb1 q)
    by (intros q; now apply tightened_feasible).
  split; [exact Hsub|]. split; [|split].
  - intros q1 v1 q2 v2. now apply tightened_minimum.
  - intros Hs1 Hs2.
    apply (tightened_minimum pb1 pb2 (x (opt res1)) (x (opt res2)) _ _ Hc Hsub).
    + apply minimum_backend_canonical, Hsound1, Hs1.
    + apply minimum_backend_canonical, Hsound2, Hs2.
  - intros Hinf. exact (sound_infeasible pb2 (opt res2) Hsound2 Hinf).
Qed.

(** Once the minimum is raised to 40, four units of A and none of B cost 4
    and nothing feasible is cheaper. *)
Lemma min40_minimum :
  minimum [Num 1; Num 2]
          (backend_feasible [Num 1; Num 2] [[Num (-10); Num (-5)]] [Num (-40)])
          [Num 4; Num 0] (Num 4).
Proof.
  split; [|split].
  - split; [reflexivity|]. split.
    + repeat constructor. cbn [dot cmul cadd cle]. lra.
    + repeat constructor; cbn [cle]; lra.
  - cbn [dot cmul cadd ceq]. lra.
  - intros q' [Hlen [Hrows Hnn]].
    destruct (nonneg_pair q' Hlen Hnn) as [u [v [-> [Hu Hv]]]].
    inversion Hrows as [|? ? ? ? H1 _]; subst.
    cbn [dot cmul cadd cle] in *. lra.
Qed.

Lemma C7_tightening_never_lowers_cost_witness :
  exists res1 res2,
    solve_subsistence_problem Ex.lp_20_40 Ex.catalogue2 Ex.prices2 Ex.min20 [] None
      Ex.tol = Ok res1 /\
    solve_subsistence_problem Ex.lp_20_40 Ex.catalogue2 Ex.prices2
      (set_bound Ex.min20 0 (Num 40)) [] None Ex.tol = Ok res2 /\
    fun_ (opt res1) = Num 2 /\ fun_ (opt res2) = Num 4 /\
    cle (fun_ (opt res1)) (fun_ (opt res2)).
Proof.
  destruct (solve_subsistence_problem Ex.lp_20_40 Ex.catalogue2 Ex.prices2 Ex.min20 []
              None Ex.tol) as [res1|e] eqn:H1; [|discriminate H1].
  destruct (solve_subsistence_problem Ex.lp_20_40 Ex.catalogue2 Ex.prices2
              (set_bound Ex.min20 0 (Num 40)) [] None Ex.tol)
    as [res2|e] eqn:H2; [|discriminate H2].
  exists res1, res2. split; [reflexivity|]. split; [reflexivity|].
  assert (Ht : tightens_one_bound Ex.min20 [] (set_bound Ex.min20 0 (Num 40)) []).
  { left. exists 0, (Num 20), (Num 40). repeat split. cbn [cle]. lra. }
  destruct (build Ex.catalogue2 Ex.prices2 Ex.min20 [] None) as [pb1|e] eqn:Hb1;
    [|discriminate Hb1].
  destruct (build Ex.catalogue2 Ex.prices2 (set_bound Ex.min20 0 (Num 40)) [] None)
    as [pb2|e] eqn:Hb2; [|discriminate Hb2].
  assert (Hs1 : backend_sound (lp_c pb1) (lp_A_ub pb1) (lp_b_ub pb1) (opt res1)).
  { vm_compute in Hb1. injection Hb1 as <-. vm_compute in H1. injection H1 as <-.
    intros _. exact min20_minimum. }
  assert (Hs2 : backend_sound (lp_c pb2) (lp_A_ub pb2) (lp_b_ub pb2) (opt res2)).
  { vm_compute in Hb2. injection Hb2 as <-. vm_compute in H2. injection H2 as <-.
    intros _. exact min40_minimum. }
  destruct (C7_tightening_never_lowers_cost Ex.lp_20_40 Ex.catalogue2 Ex.prices2
              Ex.min20 [] (set_bound Ex.min20 0 (Num 40)) [] None Ex.tol
              pb1 pb2 res1 res2 Ht Hb1 Hb2 H1 H2 Hs1 Hs2) as [_ [_ [Hcost _]]].
  vm_compute in H1. injection H1 as <-. vm_compute in H2. injection H2 as <-.
  split; [reflexivity|]. split; [reflexivity|].
  apply Hcost; reflexivity.
Defined.

(** * Further properties of the notebooks' code *)

(** ** The price series: the lowest observed price of each food *)

Lemma group_min_nan (vals : list cell) :
  group_min vals = NaN <-> Forall (fun c => c = NaN) vals.
Proof.
  induction vals as [|a vals IH]; simpl.
  - split; [constructor | reflexivity].
  - split.
    + intros H. destruct a as [u|].
      * destruct (group_min vals) as [v|]; simpl in H; [|discriminate].
        destruct (Qle_bool u v); discriminate.
      * constructor; [reflexivity|]. apply IH. exact H.
    + intros H. inversion H; subst. simpl. now apply IH.
Qed.

Lemma group_min_num (vals : list cell) (q : Q) :
  group_min vals = Num q ->
  In (Num q) vals /\ forall q', In (Num q') vals -> (q <= q')%Q.
Proof.
  revert q. induction vals as [|a vals IH]; simpl; [discriminate|].
  intros q H. destruct a as [u|].
  - destruct (group_min vals) as [v|] eqn:Hg; simpl in H.
    + destruct (IH v eq_refl) as [Hin Hlow].
      destruct (Qle_bool u v) eqn:Hle; injection H as <-.
      * apply Qle_bool_iff in Hle. split; [now left|].
        intros q' [[= <-]|Hq']; [apply Qle_refl|].
        apply Qle_trans with v; auto.
      * assert (Hlt : (v < u)%Q).
        { apply Qnot_le_lt. intros Hc. apply Qle_bool_iff in Hc. congruence. }
        split; [now right|].
        intros q' [[= <-]|Hq']; [now apply Qlt_le_weak | auto].
    + injection H as <-. split; [now left|].
      intros q' [[= <-]|Hq']; [apply Qle_refl|].
      apply group_min_nan in Hg. rewrite Forall_forall in Hg.
      apply Hg in Hq'. discriminate.
  - destruct (IH q H) as [Hin Hlow]. split; [now right|].
    intros q' [Heq|Hq']; [discriminate | auto].
Qed.

Lemma In_group (df : list (label * cell)) (f : label) (c : cell) :
  In c (map snd (filter (fun e => String.eqb (fst e) f) df)) <-> In (f, c) df.
Proof.
  rewrite in_map_iff. split.
  - intros [[f' c'] [<- He]]. apply filter_In in He. destruct He as [He Hf].
    apply String.eqb_eq in Hf. cbn in *. now subst.
  - intros H. exists (f, c). split; [reflexivity|].
    apply filter_In. split; [exact H | apply String.eqb_refl].
Qed.

(** X1.  The price series built from the sheet has one entry per food, in
    the order in which the foods first appear.  The price of a food is the
    lowest of its prices that are not missing, and it is one of them; it is
    missing only when every price of the food is. *)
Theorem groupby_min_lowest_price (df : list (label * cell)) :
  sindex (groupby_min df) = unique (map fst df) /\
  NoDup (sindex (groupby_min df)) /\
  (forall f, In f (map fst df) -> exists v, In (f, v) (groupby_min df)) /\
  (forall f v, In (f, v) (groupby_min df) ->
     In f (map fst df) /\
     (forall q, v = Num q ->
        In (f, Num q) df /\ forall q', In (f, Num q') df -> (q <= q')%Q) /\
     (v = NaN -> forall c, In (f, c) df -> c = NaN)).
Proof.
  assert (Hidx : sindex (groupby_min df) = unique (map fst df)).
  { unfold groupby_min, sindex. rewrite map_map. apply map_id. }
  split; [exact Hidx|]. split; [rewrite Hidx; apply NoDup_unique|]. split.
  - intros f Hf. eexists. unfold groupby_min. apply in_map_iff.
    exists f. split; [reflexivity | now apply (proj2 (In_unique f (map fst df)))].
  - intros f v Hin. unfold groupby_min in Hin. apply in_map_iff in Hin.
    destruct Hin as [f' [[= <- <-] Hf]]. apply (proj1 (In_unique _ _)) in Hf.
    split; [exact Hf|]. split.
    + intros q Hq. apply group_min_num in Hq. destruct Hq as [Hin Hlow].
      split; [now apply In_group|].
      intros q' Hq'. apply Hlow. now apply In_group.
    + intros Hnan c Hc. apply group_min_nan in Hnan.
      rewrite Forall_forall in Hnan. apply Hnan. now apply In_group.
Qed.

Lemma groupby_min_lowest_price_witness :
  groupby_min Ex2.sheet = [("Flour", Num 2); ("Milk", Num 5); ("Salt", NaN)]%string /\
  NoDup (sindex (groupby_min Ex2.sheet)).
Proof.
  split; [reflexivity|].
  exact (proj1 (proj2 (groupby_min_lowest_price Ex2.sheet))).
Defined.

(** ** The cost vector follows the price series *)

Lemma filter_all (U : Type) (f : U -> bool) (l : list U) :
  (forall u, In u l -> f u = true) -> filter f l = l.
Proof.
  induction l as [|a l IH]; simpl; [reflexivity|].
  intros H. rewrite (H a (or_introl eq_refl)), IH; auto.
Qed.

Lemma unique_NoDup (idx : Index) : NoDup idx -> unique idx = idx.
Proof.
  induction 1 as [|a t Hnot Hnd IH]; simpl; [reflexivity|].
  rewrite IH. f_equal. apply filter_all.
  intros u Hu. apply negb_true_iff, String.eqb_neq. congruence.
Qed.

Lemma filter_map_fst (V : Type) (f : label -> bool) (E : list (label * V)) :
  filter f (map fst E) = map fst (filter (fun e => f (fst e)) E).
Proof.
  induction E as [|e E IH]; simpl; [reflexivity|].
  destruct (f (fst e)); simpl; now rewrite IH.
Qed.

Lemma NoDup_filter_labels (V : Type) (f : label * V -> bool) (E : list (label * V)) :
  NoDup (map fst E) -> NoDup (map fst (filter f E)).
Proof.
  induction E as [|e E IH]; simpl; [auto|].
  intros H. inversion H as [|? ? Hnot Hnd]; subst.
  destruct (f e); simpl; [|auto]. constructor; [|auto].
  intros Hin. apply Hnot. apply in_map_iff in Hin.
  destruct Hin as [e' [Heq He']]. apply filter_In in He'.
  apply in_map_iff. exists e'. tauto.
Qed.

Lemma take_labels_filter (V : Type) (d : V) (f : label -> bool) (E : list (label * V)) :
  NoDup (map fst E) ->
  take_labels (filter f (map fst E)) E = filter (fun e => f (fst e)) E.
Proof.
  intros Hnd.
  rewrite (take_labels_present V d)
    by (auto; intros k Hk; apply filter_In in Hk; tauto).
  rewrite filter_map_fst, map_map.
  rewrite <- (map_id (filter (fun e => f (fst e)) E)) at 2.
  apply map_ext_in. intros e He. apply filter_In in He. destruct He as [He _].
  rewrite (lookup_NoDup V E e Hnd He). now destruct e.
Qed.

Lemma usable_filter (FoodNutrients : DataFrame) (Prices : Series) :
  NoDup (sindex Prices) ->
  usable FoodNutrients Prices =
  filter (fun e => negb (isna (snd e)) && mem (fst e) (columns FoodNutrients)) Prices.
Proof.
  intros Hnd. unfold usable, intersection.
  assert (Hd : NoDup (sindex (dropna Prices)))
    by (unfold sindex, dropna; now apply NoDup_filter_labels).
  rewrite (unique_NoDup _ Hd). unfold sindex in *.
  rewrite (take_labels_filter cell NaN) by exact Hd.
  unfold dropna. clear. induction Prices as [|e P IH]; simpl; [reflexivity|].
  destruct (isna (snd e)); simpl; [exact IH|].
  destruct (mem (fst e) (columns FoodNutrients)); simpl; now rewrite IH.
Qed.

Lemma groupby_min_NoDup (df : list (label * cell)) : NoDup (sindex (groupby_min df)).
Proof.
  unfold groupby_min, sindex. rewrite map_map, map_id. apply NoDup_unique.
Qed.

(** X2.  When no label repeats in the price series, the cost vector of the
    built problem is the price series itself with the entries left out whose
    price is missing or whose good is not a column of the catalogue: the
    goods keep the order of the price series, whatever the order of the
    catalogue's columns, and none repeats.  The matrix columns carry the
    same labels.  This is the case of the price series the notebook builds
    from the sheet. *)
Theorem cost_follows_price_series (FoodNutrients : DataFrame)
    (dietmin dietmax : Series) (max_weight : option cell) :
  (forall Prices pb,
      NoDup (sindex Prices) ->
      build FoodNutrients Prices dietmin dietmax max_weight = Ok pb ->
      cost pb =
        filter (fun e => negb (isna (snd e)) && mem (fst e) (columns FoodNutrients))
               Prices /\
      NoDup (sindex (cost pb)) /\
      columns (A pb) = sindex (cost pb)) /\
  (forall df pb,
      build FoodNutrients (groupby_min df) dietmin dietmax max_weight = Ok pb ->
      cost pb =
        filter (fun e => negb (isna (snd e)) && mem (fst e) (columns FoodNutrients))
               (groupby_min df) /\
      NoDup (sindex (cost pb))).
Proof.
  assert (H : forall Prices pb,
      NoDup (sindex Prices) ->
      build FoodNutrients Prices dietmin dietmax max_weight = Ok pb ->
      cost pb =
        filter (fun e => negb (isna (snd e)) && mem (fst e) (columns FoodNutrients))
               Prices /\
      NoDup (sindex (cost pb)) /\
      columns (A pb) = sindex (cost pb)).
  { intros Prices pb Hnd Hb. apply build_Ok in Hb. destruct Hb as [Hp [Hc _]].
    rewrite Hp, (usable_filter _ _ Hnd) in *.
    split; [reflexivity|]. split; [|exact Hc].
    unfold sindex in *. now apply NoDup_filter_labels. }
  split; [exact H|].
  intros df pb Hb. destruct (H _ pb (groupby_min_NoDup df) Hb) as [Hc [Hu _]].
  now split.
Qed.

Lemma cost_follows_price_series_witness :
  exists pb,
    build Ex.catalogue (groupby_min Ex2.sheet_AB) Ex.dietmin Ex.dietmax (Some (Num 12))
      = Ok pb /\
    cost pb = [("B", Num 2); ("A", Num 1)]%string /\
    NoDup (sindex (cost pb)).
Proof.
  destruct (build Ex.catalogue (groupby_min Ex2.sheet_AB) Ex.dietmin Ex.dietmax
              (Some (Num 12))) as [pb|e] eqn:Hb; [|discriminate Hb].
  destruct (proj2 (cost_follows_price_series Ex.catalogue Ex.dietmin Ex.dietmax
                     (Some (Num 12))) Ex2.sheet_AB pb Hb) as [Hc Hu].
  exists pb. split; [reflexivity|]. split; [rewrite Hc; reflexivity | exact Hu].
Defined.

(** ** The shape of the problem handed to the backend *)

Lemma length_pick (k : label) (cols : Index) (r : list cell) :
  List.length (pick k cols r) =
  List.length (filter (fun c => String.eqb c k) cols).
Proof.
  revert r. induction cols as [|c cs IH]; intros r; simpl; [reflexivity|].
  rewrite length_app, IH. now destruct (String.eqb c k).
Qed.

Lemma length_select (keys cols : Index) (r : list cell) :
  List.length (select keys cols r) =
  List.length (flat_map (fun k => filter (fun c => String.eqb c k) cols) keys).
Proof.
  unfold select. induction keys as [|k ks IH]; simpl; [reflexivity|].
  now rewrite !length_app, length_pick, IH.
Qed.

Lemma getcols_rectangular (df df' : DataFrame) (keys : Index) :
  getcols df keys = Ok df' -> rectangular df'.
Proof.
  unfold getcols. destruct (first_missing _ _); [discriminate|].
  intros [= <-]. unfold rectangular. cbn [rows columns].
  apply Forall_forall. intros e He. apply in_map_iff in He.
  destruct He as [e' [<- _]]. apply length_select.
Qed.

Lemma fillna_rectangular (v : cell) (df : DataFrame) :
  rectangular df -> rectangular (fillna v df).
Proof.
  unfold rectangular, fillna. cbn [rows columns]. rewrite !Forall_forall.
  intros H e He. apply in_map_iff in He. destruct He as [e' [<- He']].
  cbn [snd]. rewrite length_map. now apply H.
Qed.

Lemma neg_rectangular (df : DataFrame) : rectangular df -> rectangular (neg df).
Proof.
  unfold rectangular, neg. cbn [rows columns]. rewrite !Forall_forall.
  intros H e He. apply in_map_iff in He. destruct He as [e' [<- He']].
  cbn [snd]. rewrite length_map. now apply H.
Qed.

Lemma loc_rectangular (df df' : DataFrame) (keys : Index) :
  rectangular df -> loc df keys = Ok df' -> rectangular df'.
Proof.
  unfold loc. destruct (first_missing _ _); [discriminate|].
  intros H [= <-]. unfold rectangular in *. cbn [rows columns].
  rewrite Forall_forall in *. intros e He. apply In_take_labels in He.
  apply H. tauto.
Qed.

Lemma lookup_In (V : Type) (l : label) (E : list (label * V)) (v : V) :
  lookup l E = Some v -> In (l, v) E.
Proof.
  induction E as [|e E IH]; simpl; [discriminate|].
  destruct (String.eqb_spec (fst e) l) as [Heq|_].
  - intros [= <-]. left. destruct e. cbn in *. now subst.
  - intros H. right. now apply IH.
Qed.

Lemma reindex_rows_rectangular (df df' : DataFrame) (target : Index) :
  rectangular df -> reindex_rows df target = Ok df' -> rectangular df'.
Proof.
  unfold reindex_rows. destruct (list_eq_dec string_dec _ _).
  - now intros H [= <-].
  - destruct (is_unique _); [|discriminate].
    intros H [= <-]. unfold rectangular in *. cbn [rows columns].
    rewrite Forall_forall in *. intros e He. apply in_map_iff in He.
    destruct He as [l [<- _]]. cbn [snd].
    destruct (lookup l (rows df)) as [r|] eqn:Hl.
    + apply lookup_In in Hl. exact (H _ Hl).
    + unfold nan_row. apply length_map.
Qed.

Lemma reindex_cols_rectangular (df df' : DataFrame) (target : Index) :
  rectangular df -> reindex_cols df target = Ok df' -> rectangular df'.
Proof.
  unfold reindex_cols. destruct (list_eq_dec string_dec _ _).
  - now intros H [= <-].
  - destruct (is_unique _); [|discriminate].
    intros _ [= <-]. unfold rectangular. cbn [rows columns].
    apply Forall_forall. intros e He. apply in_map_iff in He.
    destruct He as [e' [<- _]]. apply length_map.
Qed.

Lemma concat_rectangular (a c df : DataFrame) :
  rectangular a -> rectangular c -> concat a c = Ok df -> rectangular df.
Proof.
  intros Ha Hc. unfold concat. destruct (list_eq_dec string_dec _ _) as [Heq|_].
  - intros [= <-]. unfold rectangular in *. cbn [rows columns].
    apply Forall_app. split; [exact Ha | now rewrite Heq].
  - destruct (_ && _); [|discriminate]. intros H. do 2 bind_inv H.
    injection H as <-.
    pose proof (reindex_cols_rectangular _ _ _ Ha Hu) as Ha'.
    pose proof (reindex_cols_rectangular _ _ _ Hc Hu0) as Hc'.
    apply reindex_cols_Ok in Hu, Hu0. destruct Hu as [Hu _], Hu0 as [Hu0 _].
    unfold rectangular in *. cbn [rows columns].
    apply Forall_app. split; [now rewrite <- Hu | now rewrite <- Hu0].
Qed.

Lemma loc_set_rectangular (df df' : DataFrame) (l : label) (v : cell) :
  rectangular df -> loc_set df l v = Ok df' -> rectangular df'.
Proof.
  unfold loc_set. intros H. destruct (mem l (index df)).
  - intros [= <-]. unfold rectangular in *. cbn [rows columns].
    rewrite Forall_forall in *. intros e He. apply in_map_iff in He.
    destruct He as [e' [<- He']].
    destruct (String.eqb (fst e') l); cbn [snd]; rewrite ?length_map; now apply H.
  - destruct (columns df) eqn:Hc; [discriminate|]. intros [= <-].
    unfold rectangular in *. cbn [rows columns].
    apply Forall_app. split; [now rewrite <- Hc|].
    constructor; [|constructor]. cbn [snd List.length]. now rewrite length_map.
Qed.

Lemma bounded_rows_rectangular (Aall df : DataFrame) (bound : Series) :
  rectangular Aall -> bounded_rows Aall bound = Ok df -> rectangular df.
Proof.
  intros HA H. unfold bounded_rows in H.
  apply bind_Ok in H. destruct H as [Asel [Hsel H]].
  eapply reindex_rows_rectangular; [|exact H].
  eapply loc_rectangular; eauto.
Qed.

Lemma build_rectangular (FoodNutrients : DataFrame) (Prices dietmin dietmax : Series)
    (max_weight : option cell) (pb : Problem) :
  build FoodNutrients Prices dietmin dietmax max_weight = Ok pb -> rectangular (A pb).
Proof.
  unfold build, assemble. intros H.
  apply bind_Ok in H. destruct H as [pb0 [H0 H]].
  apply bind_Ok in H0. destruct H0 as [p [_ H0]].
  apply bind_Ok in H0. destruct H0 as [Asel [Hsel H0]].
  apply bind_Ok in H0. destruct H0 as [Amin [Hmin H0]].
  apply bind_Ok in H0. destruct H0 as [Amax [Hmax H0]].
  apply bind_Ok in H0. destruct H0 as [A0 [HA0 H0]].
  apply bind_Ok in H0. destruct H0 as [A1 [HA1 H0]].
  apply bind_Ok in H0. destruct H0 as [A2 [HA2 H0]].
  injection H0 as <-.
  assert (Hall : rectangular (fillna (Num 0) Asel))
    by (apply fillna_rectangular; eapply getcols_rectangular; eauto).
  assert (HA : rectangular A2).
  { eapply reindex_rows_rectangular; [|exact HA2].
    eapply reindex_cols_rectangular; [|exact HA1].
    eapply concat_rectangular; [| |exact HA0].
    - eapply bounded_rows_rectangular; eauto.
    - apply neg_rectangular. eapply bounded_rows_rectangular; eauto. }
  destruct max_weight as [w|]; cbn [add_max_weight A] in H.
  - apply bind_Ok in H. destruct H as [A' [HA' H]]. injection H as <-. cbn [A].
    eapply loc_set_rectangular; eauto.
  - now injection H as <-.
Qed.

(** X3.  Whatever the inputs, when the builder returns a problem, the
    problem handed to the backend is well shaped: every row of the matrix
    has exactly one coefficient per entry of the cost vector, there is one
    bound per row, and the rows of [A] and the entries of [b] carry the same
    labels in the same order, the row of the cap included. *)
Theorem backend_problem_well_shaped (FoodNutrients : DataFrame)
    (Prices dietmin dietmax : Series) (max_weight : option cell) (pb : Problem) :
  build FoodNutrients Prices dietmin dietmax max_weight = Ok pb ->
  Forall (fun row => List.length row = List.length (lp_c pb)) (lp_A_ub pb) /\
  List.length (lp_A_ub pb) = List.length (lp_b_ub pb) /\
  index (A pb) = sindex (b pb) /\
  columns (A pb) = sindex (cost pb).
Proof.
  intros Hb. pose proof (build_rectangular _ _ _ _ _ _ Hb) as Hrect.
  apply build_Ok in Hb. destruct Hb as [_ [Hc Hi]].
  split; [|split; [|split; assumption]].
  - unfold lp_A_ub, lp_c, values, neg, svalues, rectangular in *. cbn [rows].
    rewrite map_map. cbn [snd]. apply Forall_forall. intros row Hrow.
    apply in_map_iff in Hrow. destruct Hrow as [e [<- He]].
    rewrite Forall_forall in Hrect. rewrite !length_map, (Hrect e He), Hc.
    unfold sindex. apply length_map.
  - unfold lp_A_ub, lp_b_ub, values, neg, svalues, sneg. cbn [rows].
    rewrite !length_map.
    rewrite <- (length_map fst (rows (A pb))), <- (length_map fst (b pb)).
    unfold index, sindex in Hi. now rewrite Hi.
Qed.

Lemma backend_problem_well_shaped_witness :
  exists pb,
    build Ex.catalogue Ex.prices Ex.dietmin Ex.dietmax (Some (Num 12)) = Ok pb /\
    Forall (fun row => List.length row = 2) (lp_A_ub pb) /\
    List.length (lp_A_ub pb) = 4 /\ List.length (lp_b_ub pb) = 4.
Proof.
  destruct (build Ex.catalogue Ex.prices Ex.dietmin Ex.dietmax (Some (Num 12)))
    as [pb|e] eqn:Hb; [|discriminate Hb].
  destruct (backend_problem_well_shaped Ex.catalogue Ex.prices Ex.dietmin Ex.dietmax
              (Some (Num 12)) pb Hb) as [Hrows [Hlen _]].
  exists pb. split; [reflexivity|].
  vm_compute in Hb. injection Hb as <-.
  split; [exact Hrows|]. split; reflexivity.
Defined.

(** ** The cap on the total quantity *)

Lemma dot_minus_ones (U : Type) (c : list U) (q : list cell) :
  List.length q = List.length c ->
  ceq (dot (map (fun _ => Num (-1)) c) q) (cneg (total q)).
Proof.
  unfold total. revert q.
  induction c as [|a c IH]; intros [|u q];
    cbn [map dot fold_right List.length]; try discriminate.
  - intros _. cbn [cneg ceq]. lra.
  - intros Hl. injection Hl as Hl. specialize (IH q Hl).
    destruct u as [u|], (dot (map (fun _ => Num (-1)) c) q) as [d|],
      (fold_right cadd (Num 0) q) as [t|];
      cbn [cmul cadd cneg ceq] in *; try tauto. lra.
Qed.

Lemma cle_neg_total (u t w : cell) :
  ceq u (cneg t) -> (cle (cneg w) u <-> cle t w).
Proof.
  destruct u as [u|], t as [t|], w as [w|]; cbn [ceq cle cneg]; try tauto.
  intros Hu. split; intros H; lra.
Qed.

Lemma Forall2_snoc (U W : Type) (R : U -> W -> Prop) (l : list U) (l' : list W)
    (a : U) (c : W) :
  Forall2 R (l ++ [a]) (l' ++ [c]) <-> Forall2 R l l' /\ R a c.
Proof.
  split.
  - intros H. apply Forall2_app_inv_l in H.
    destruct H as [l1 [l2 [H1 [H2 Heq]]]].
    inversion H2 as [|? c' ? ? HR Hnil]; subst. inversion Hnil; subst.
    apply app_inj_tail in Heq. destruct Heq as [-> ->]. now split.
  - intros [H1 H2]. apply Forall2_app; [exact H1|]. now constructor.
Qed.

Lemma build_cap_Ok (FoodNutrients : DataFrame) (Prices dietmin dietmax : Series)
    (w : cell) (pb0 pb' : Problem) :
  build FoodNutrients Prices dietmin dietmax None = Ok pb0 ->
  build FoodNutrients Prices dietmin dietmax (Some w) = Ok pb' ->
  ~ In Hectograms (sindex dietmin ++ sindex dietmax) ->
  cost pb' = cost pb0 /\
  rows (A pb') = rows (A pb0) ++ [(Hectograms, map (fun _ => Num (-1)) (cost pb0))] /\
  b pb' = b pb0 ++ [(Hectograms, cneg w)].
Proof.
  rewrite build_None. intros H0 H' Hnot. unfold build in H'. rewrite H0 in H'.
  cbn [bind add_max_weight] in H'.
  apply assemble_Ok in H0. destruct H0 as [_ [Hc [Hi Hbv]]].
  assert (Hm : mem Hectograms (sindex (b pb0)) = false).
  { apply mem_false. now rewrite Hbv, sindex_bounds. }
  unfold loc_set, sloc_set in H'. rewrite Hi, Hm in H'.
  destruct (columns (A pb0)) as [|c cs] eqn:Hcols; [discriminate|].
  cbn [bind] in H'. injection H' as <-. cbn [cost A b rows].
  split; [reflexivity|]. split; [|reflexivity].
  do 2 f_equal.
  change (Num (-1) :: map (fun _ : label => Num (-1)) cs)
    with (map (fun _ : label => Num (-1)) (c :: cs)).
  rewrite Hc. unfold sindex. now rewrite map_map.
Qed.

Lemma capped_feasible (pb0 pb' : Problem) (w : cell) (q : list cell) :
  cost pb' = cost pb0 ->
  rows (A pb') = rows (A pb0) ++ [(Hectograms, map (fun _ => Num (-1)) (cost pb0))] ->
  b pb' = b pb0 ++ [(Hectograms, cneg w)] ->
  canonical_feasible pb' q <-> canonical_feasible pb0 q /\ cle (total q) w.
Proof.
  intros Hc HA Hb.
  unfold canonical_feasible. rewrite Hc, HA, Hb, Forall2_snoc. cbn [snd].
  split.
  - intros [Hl [[Hrows Hcap] Hnn]]. repeat split; try assumption.
    now apply (cle_neg_total _ _ _ (dot_minus_ones _ (cost pb0) q Hl)).
  - intros [[Hl [Hrows Hnn]] Hcap]. repeat split; try assumption.
    now apply (cle_neg_total _ _ _ (dot_minus_ones _ (cost pb0) q Hl)).
Qed.

(** X4.  When no bound is labelled like the cap row, the builder puts the
    cap in one last row, -1 for every usable good against the bound
    [-max_weight], and the problem built with the cap has exactly the
    feasible quantity vectors of the problem built without it whose total
    quantity is at most [max_weight]. *)
Theorem cap_bounds_total_quantity (FoodNutrients : DataFrame)
    (Prices dietmin dietmax : Series) (w : cell) (pb0 pb' : Problem) :
  build FoodNutrients Prices dietmin dietmax None = Ok pb0 ->
  build FoodNutrients Prices dietmin dietmax (Some w) = Ok pb' ->
  ~ In Hectograms (sindex dietmin ++ sindex dietmax) ->
  rows (A pb') = rows (A pb0) ++ [(Hectograms, map (fun _ => Num (-1)) (cost pb0))] /\
  b pb' = b pb0 ++ [(Hectograms, cneg w)] /\
  forall q, canonical_feasible pb' q <-> canonical_feasible pb0 q /\ cle (total q) w.
Proof.
  intros H0 H' Hnot.
  destruct (build_cap_Ok _ _ _ _ _ _ _ H0 H' Hnot) as [Hc [HA Hb]].
  split; [exact HA|]. split; [exact Hb|].
  intros q. now apply capped_feasible.
Qed.

Lemma cap_bounds_total_quantity_witness :
  canonical_feasible Ex.problem1000 [Num 1; Num 0] <->
  canonical_feasible
    {| cost := Ex.prices2;
       A := {| rows := [("N"%string, [Num 10; Num 5])];
               columns := ["A"%string; "B"%string] |};
       b := Ex.min1000 |} [Num 1; Num 0] /\ cle (total [Num 1; Num 0]) (Num 1).
Proof.
  apply (cap_bounds_total_quantity Ex.catalogue2 Ex.prices2 Ex.min1000 [] (Num 1)).
  - reflexivity.
  - reflexivity.
  - cbn. intros [H|[]]. discriminate H.
Defined.

(** X5.  Under the same condition, adding the cap never lowers the minimum
    cost; and when the backend is right about both calls and reports two
    successes, the cost returned with the cap is at least the cost returned
    without it. *)
Theorem cap_never_lowers_cost (lp : backend) (FoodNutrients : DataFrame)
    (Prices dietmin dietmax : Series) (w tol : cell) (pb0 pb' : Problem)
    (res0 res' : Result) :
  build FoodNutrients Prices dietmin dietmax None = Ok pb0 ->
  build FoodNutrients Prices dietmin dietmax (Some w) = Ok pb' ->
  ~ In Hectograms (sindex dietmin ++ sindex dietmax) ->
  solve_subsistence_problem lp FoodNutrients Prices dietmin dietmax None tol = Ok res0 ->
  solve_subsistence_problem lp FoodNutrients Prices dietmin dietmax (Some w) tol
    = Ok res' ->
  backend_sound (lp_c pb0) (lp_A_ub pb0) (lp_b_ub pb0) (opt res0) ->
  backend_sound (lp_c pb') (lp_A_ub pb') (lp_b_ub pb') (opt res') ->
  (forall q0 v0 q' v',
      minimum (lp_c pb0) (canonical_feasible pb0) q0 v0 ->
      minimum (lp_c pb') (canonical_feasible pb') q' v' ->
      cle v0 v') /\
  (success (opt res0) = true -> success (opt res') = true ->
   cle (fun_ (opt res0)) (fun_ (opt res'))).
Proof.
  intros H0 H' Hnot _ _ Hsound0 Hsound'.
  assert (Hsub : forall q, canonical_feasible pb' q -> canonical_feasible pb0 q).
  { destruct (build_cap_Ok _ _ _ _ _ _ _ H0 H' Hnot) as [Hc [HA Hb]].
    intros q Hq. now apply (capped_feasible pb0 pb' w q Hc HA Hb) in Hq. }
  destruct (build_cap_Ok _ _ _ _ _ _ _ H0 H' Hnot) as [Hc _].
  split.
  - intros q0 v0 q' v'. now apply tightened_minimum.
  - intros Hs0 Hs'.
    apply (tightened_minimum pb0 pb' (x (opt res0)) (x (opt res')) _ _ Hc Hsub).
    + apply minimum_backend_canonical, Hsound0, Hs0.
    + apply minimum_backend_canonical, Hsound', Hs'.
Qed.

Lemma min20_cap12_minimum :
  minimum [Num 1; Num 2]
          (backend_feasible [Num 1; Num 2] [[Num (-10); Num (-5)]; [Num 1; Num 1]]
                            [Num (-20); Num 12])
          [Num 2; Num 0] (Num 2).
Proof.
  split; [|split].
  - split; [reflexivity|]. split.
    + repeat constructor; cbn [dot cmul cadd cle]; lra.
    + repeat constructor; cbn [cle]; lra.
  - cbn [dot cmul cadd ceq]. lra.
  - intros q' [Hlen [Hrows Hnn]].
    destruct (nonneg_pair q' Hlen Hnn) as [u [v [-> [Hu Hv]]]].
    inversion Hrows as [|? ? ? ? H1 _]; subst.
    cbn [dot cmul cadd cle] in *. lra.
Qed.

Lemma cap_never_lowers_cost_witness :
  exists res0 res',
    solve_subsistence_problem Ex2.lp_always20 Ex.catalogue2 Ex.prices2 Ex.min20 []
      None Ex.tol = Ok res0 /\
    solve_subsistence_problem Ex2.lp_always20 Ex.catalogue2 Ex.prices2 Ex.min20 []
      (Some (Num 12)) Ex.tol = Ok res' /\
    success (opt res0) = true /\ success (opt res') = true /\
    cle (fun_ (opt res0)) (fun_ (opt res')).
Proof.
  destruct (solve_subsistence_problem Ex2.lp_always20 Ex.catalogue2 Ex.prices2 Ex.min20
              [] None Ex.tol) as [res0|e] eqn:H0; [|discriminate H0].
  destruct (solve_subsistence_problem Ex2.lp_always20 Ex.catalogue2 Ex.prices2 Ex.min20
              [] (Some (Num 12)) Ex.tol) as [res'|e] eqn:H'; [|discriminate H'].
  exists res0, res'. split; [reflexivity|]. split; [reflexivity|].
  destruct (build Ex.catalogue2 Ex.prices2 Ex.min20 [] None) as [pb0|e] eqn:Hb0;
    [|discriminate Hb0].
  destruct (build Ex.catalogue2 Ex.prices2 Ex.min20 [] (Some (Num 12)))
    as [pb'|e] eqn:Hb'; [|discriminate Hb'].
  assert (Hnot : ~ In Hectograms (sindex Ex.min20 ++ sindex [])).
  { cbn. intros [H|[]]. discriminate H. }
  assert (Hs0 : backend_sound (lp_c pb0) (lp_A_ub pb0) (lp_b_ub pb0) (opt res0)).
  { vm_compute in Hb0. injection Hb0 as <-. vm_compute in H0. injection H0 as <-.
    intros _. exact min20_minimum. }
  assert (Hs' : backend_sound (lp_c pb') (lp_A_ub pb') (lp_b_ub pb') (opt res')).
  { vm_compute in Hb'. injection Hb' as <-. vm_compute in H'. injection H' as <-.
    intros _. exact min20_cap12_minimum. }
  destruct (cap_never_lowers_cost Ex2.lp_always20 Ex.catalogue2 Ex.prices2 Ex.min20 []
              (Num 12) Ex.tol pb0 pb' res0 res' Hb0 Hb' Hnot H0 H' Hs0 Hs')
    as [_ Hcost].
  vm_compute in H0. injection H0 as <-. vm_compute in H'. injection H' as <-.
  split; [reflexivity|]. split; [reflexivity|]. apply Hcost; reflexivity.
Defined.

(** ** Changing one price *)

Lemma Forall2_filter (U : Type) (S : U -> U -> Prop) (f : U -> bool) (l l' : list U) :
  Forall2 S l l' -> (forall u u', S u u' -> f u' = f u) ->
  Forall2 S (filter f l) (filter f l').
Proof.
  intros H Hf. induction H as [|u u' l l' HS _ IH]; simpl; [constructor|].
  rewrite (Hf _ _ HS). destruct (f u); [constructor|]; assumption.
Qed.

Lemma Forall2_flat_map (U K : Type) (S : U -> U -> Prop) (F G : K -> list U)
    (keys : list K) :
  (forall k, Forall2 S (F k) (G k)) ->
  Forall2 S (flat_map F keys) (flat_map G keys).
Proof.
  intros H. induction keys as [|k ks IH]; simpl; [constructor|].
  apply Forall2_app; auto.
Qed.

Lemma Forall2_sindex (S : label * cell -> label * cell -> Prop) (s s' : Series) :
  (forall e e', S e e' -> fst e' = fst e) ->
  Forall2 S s s' -> sindex s' = sindex s.
Proof.
  intros HS H. induction H as [|e e' s s' He _ IH]; [reflexivity|].
  unfold sindex in *. simpl. now rewrite (HS _ _ He), IH.
Qed.

(** The builder keeps the same goods, entry by entry, for two price series
    that agree on the labels and on which prices are missing. *)
Lemma usable_related (S : label * cell -> label * cell -> Prop)
    (FoodNutrients : DataFrame) (Prices Prices' : Series) :
  (forall e e', S e e' -> same_good e e') ->
  Forall2 S Prices Prices' ->
  Forall2 S (usable FoodNutrients Prices) (usable FoodNutrients Prices').
Proof.
  intros HS H.
  assert (Hd : Forall2 S (dropna Prices) (dropna Prices')).
  { unfold dropna. apply Forall2_filter; [exact H|].
    intros e e' He. destruct (HS _ _ He) as [_ Hna]. now rewrite Hna. }
  unfold usable.
  rewrite (Forall2_sindex S _ _ (fun e e' He => proj1 (HS e e' He)) Hd).
  unfold take_labels. apply Forall2_flat_map. intros k.
  apply Forall2_filter; [exact Hd|].
  intros e e' He. destruct (HS _ _ He) as [Hf _]. now rewrite Hf.
Qed.

(** The builder reads the price series to choose the goods and to fill the
    cost vector, and for nothing else. *)
Lemma assemble_same_goods (FoodNutrients : DataFrame)
    (Prices Prices' dietmin dietmax : Series) :
  sindex (usable FoodNutrients Prices') = sindex (usable FoodNutrients Prices) ->
  assemble FoodNutrients Prices' dietmin dietmax =
  (pb <- assemble FoodNutrients Prices dietmin dietmax ;;
   Ok {| cost := usable FoodNutrients Prices'; A := A pb; b := b pb |}).
Proof.
  intros Hidx. unfold assemble.
  rewrite !usable_prices_ok. cbn [bind]. rewrite Hidx.
  repeat match goal with
         | |- bind ?m _ = _ => destruct m; cbn [bind]; try reflexivity
         end.
Qed.

Lemma build_same_goods (FoodNutrients : DataFrame)
    (Prices Prices' dietmin dietmax : Series) (max_weight : option cell) :
  sindex (usable FoodNutrients Prices') = sindex (usable FoodNutrients Prices) ->
  build FoodNutrients Prices' dietmin dietmax max_weight =
  (pb <- build FoodNutrients Prices dietmin dietmax max_weight ;;
   Ok {| cost := usable FoodNutrients Prices'; A := A pb; b := b pb |}).
Proof.
  intros Hidx. unfold build.
  rewrite (assemble_same_goods _ Prices Prices' _ _ Hidx).
  destruct (assemble FoodNutrients Prices dietmin dietmax) as [pb0|e];
    cbn [bind]; [|reflexivity].
  destruct max_weight as [w|]; cbn [add_max_weight cost A b bind]; [|reflexivity].
  destruct (loc_set _ _ _); reflexivity.
Qed.

Lemma scaled_at_same_good (Prices : Series) (i : nat) (sq : Q) :
  Forall2 same_good Prices (scaled_at Prices i (Num sq)).
Proof.
  assert (Hrefl : forall s : Series, Forall2 same_good s s)
    by (induction s; constructor; [split; reflexivity | assumption]).
  unfold scaled_at. destruct (nth_error (svalues Prices) i) as [p|] eqn:Hp;
    [|apply Hrefl].
  revert i Hp. induction Prices as [|e P IH]; intros [|i] Hp; simpl in *;
    try discriminate.
  - injection Hp as <-. constructor; [|apply Hrefl].
    split; [reflexivity|]. cbn [snd]. now destruct (snd e).
  - constructor; [split; reflexivity|]. now apply IH.
Qed.

(** X6.  In the loop that changes one price at a time, every pass solves a
    problem with the same constraint matrix and the same bounds as the base
    problem: multiplying a price by a number changes the cost vector only,
    at the entries of that good, and never which goods are usable.  The
    builder returns for the changed prices whenever it returns for the
    original ones. *)
Theorem price_change_keeps_constraints (FoodNutrients : DataFrame)
    (Prices dietmin dietmax : Series) (max_weight : option cell)
    (i : nat) (sq : Q) (pb : Problem) :
  build FoodNutrients Prices dietmin dietmax max_weight = Ok pb ->
  exists pb',
    build FoodNutrients (scaled_at Prices i (Num sq)) dietmin dietmax max_weight
      = Ok pb' /\
    A pb' = A pb /\ b pb' = b pb /\
    sindex (cost pb') = sindex (cost pb) /\
    Forall2 same_good (cost pb) (cost pb').
Proof.
  intros Hb.
  pose proof (usable_related same_good FoodNutrients Prices _ (fun e e' H => H)
                (scaled_at_same_good Prices i sq)) as Hrel.
  pose proof (Forall2_sindex same_good _ _ (fun e e' H => proj1 H) Hrel) as Hidx.
  eexists. split.
  { rewrite (build_same_goods _ Prices _ _ _ _ Hidx), Hb. reflexivity. }
  cbn [cost A b]. apply build_Ok in Hb. destruct Hb as [Hp _]. rewrite Hp.
  repeat split; assumption.
Qed.

Lemma price_change_keeps_constraints_witness :
  exists pb',
    build Ex.catalogue2 (scaled_at Ex.prices2 1 (Num (3 # 2))) Ex.min20 [] None
      = Ok pb' /\
    A pb' = A Ex.problem20 /\ b pb' = b Ex.problem20 /\
    cost pb' = [("A", Num 1); ("B", Num (6 # 2))]%string.
Proof.
  destruct (price_change_keeps_constraints Ex.catalogue2 Ex.prices2 Ex.min20 [] None
              1 (3 # 2) Ex.problem20 eq_refl) as [pb' [Hb [HA [Hbv _]]]].
  exists pb'. split; [exact Hb|]. split; [exact HA|]. split; [exact Hbv|].
  vm_compute in Hb. injection Hb as <-. reflexivity.
Defined.

Lemma tighter_same_good (e e' : label * cell) : tighter e e' -> same_good e e'.
Proof.
  intros [Hf [Hv|Hv]]; split; try assumption; [now rewrite Hv|].
  destruct (snd e), (snd e'); cbn [cle] in Hv; try contradiction; reflexivity.
Qed.

Lemma usable_defined (FoodNutrients : DataFrame) (Prices : Series) :
  Forall (fun e => isna (snd e) = false) (usable FoodNutrients Prices).
Proof.
  apply Forall_forall. intros e He. apply In_usable in He. tauto.
Qed.

(** With quantities that are not negative, higher prices cost more. *)
Lemma dot_raised (c c' : Series) (q : list cell) :
  Forall (fun e => isna (snd e) = false) c -> Forall2 tighter c c' -> nonneg q ->
  cle (dot (svalues c) q) (dot (svalues c') q).
Proof.
  intros Hdef Hrel. revert q.
  induction Hrel as [|e e' c c' [_ Hv] _ IH]; intros q Hq; cbn [svalues map dot].
  - destruct q; cbn [cle]; lra.
  - inversion Hdef as [|? ? He Hdef']; subst.
    destruct q as [|u q]; [cbn [cle]; lra|].
    inversion Hq as [|? ? Hu Hq']; subst.
    specialize (IH Hdef' q Hq'). unfold svalues in IH.
    destruct (snd e) as [a|]; [|discriminate].
    destruct u as [u|]; [|contradiction].
    destruct (dot (map snd c) q) as [d|], (dot (map snd c') q) as [d'|];
      try contradiction.
    destruct Hv as [->|Hv].
    + cbn [cmul cadd cle] in *. lra.
    + destruct (snd e') as [a'|]; [|contradiction].
      cbn [cmul cadd cle] in *.
      pose proof (Qmult_le_compat_r a a' u Hv Hu). lra.
Qed.

Lemma cle_trans (u v w : cell) : cle u v -> cle v w -> cle u w.
Proof.
  destruct u, v, w; cbn [cle]; try contradiction. apply Qle_trans.
Qed.

(** The minimum cost under raised prices is at least the minimum cost under
    the original ones, the constraints being the same. *)
Lemma raised_minimum (pb pb' : Problem) (q q' : list cell) (v v' : cell) :
  A pb' = A pb -> b pb' = b pb ->
  Forall (fun e => isna (snd e) = false) (cost pb) ->
  Forall2 tighter (cost pb) (cost pb') ->
  minimum (lp_c pb) (canonical_feasible pb) q v ->
  minimum (lp_c pb') (canonical_feasible pb') q' v' ->
  cle v v'.
Proof.
  intros HA Hb Hdef Hrel [_ [Hv Hmin]] [[Hlen [Hrows Hnn]] [Hv' _]].
  assert (Hf : canonical_feasible pb q').
  { split; [|split; [|exact Hnn]].
    - rewrite Hlen. apply (Forall2_length Hrel) || (symmetry; apply (Forall2_length Hrel)).
    - now rewrite <- HA, <- Hb. }
  apply (cle_ceq _ _ _ _ Hv Hv').
  apply cle_trans with (dot (lp_c pb) q'); [now apply Hmin|].
  unfold lp_c. now apply dot_raised.
Qed.

Lemma set_bound_cut (s : Series) (i : nat) (old new : cell) :
  nth_error (svalues s) i = Some old -> cle new old ->
  Forall2 tighter (set_bound s i new) s.
Proof.
  revert i. induction s as [|e s IH]; intros [|i]; simpl; try discriminate.
  - intros [= <-] Hle. constructor; [|apply tighter_refl]. split; auto.
  - intros Hi Hle. constructor; [split; auto|]. now apply IH.
Qed.

(** X7.  In the loop that changes one price at a time: when the new price
    of the good is at least the old one, as it is for a price that is not
    negative and a scale of at least one, the minimum cost of the new
    problem is at least the minimum cost of the base problem; when it is at
    most the old one, at most.  With a backend that is right about both
    calls and reports two successes, the same holds of the two costs the
    function returns. *)
Theorem price_rise_never_lowers_cost (lp : backend) (FoodNutrients : DataFrame)
    (Prices dietmin dietmax : Series) (max_weight : option cell) (tol : cell)
    (i : nat) (p s : cell) (pb pb' : Problem) (res res' : Result) :
  nth_error (svalues Prices) i = Some p ->
  build FoodNutrients Prices dietmin dietmax max_weight = Ok pb ->
  build FoodNutrients (scaled_at Prices i s) dietmin dietmax max_weight = Ok pb' ->
  solve_subsistence_problem lp FoodNutrients Prices dietmin dietmax max_weight tol
    = Ok res ->
  price_response_step lp FoodNutrients Prices dietmin dietmax max_weight tol i s
    = Ok res' ->
  backend_sound (lp_c pb) (lp_A_ub pb) (lp_b_ub pb) (opt res) ->
  backend_sound (lp_c pb') (lp_A_ub pb') (lp_b_ub pb') (opt res') ->
  (cle p (cmul p s) ->
   (forall q v q' v',
       minimum (lp_c pb) (canonical_feasible pb) q v ->
       minimum (lp_c pb') (canonical_feasible pb') q' v' -> cle v v') /\
   (success (opt res) = true -> success (opt res') = true ->
    cle (fun_ (opt res)) (fun_ (opt res')))) /\
  (cle (cmul p s) p ->
   (forall q v q' v',
       minimum (lp_c pb) (canonical_feasible pb) q v ->
       minimum (lp_c pb') (canonical_feasible pb') q' v' -> cle v' v) /\
   (success (opt res) = true -> success (opt res') = true ->
    cle (fun_ (opt res')) (fun_ (opt res)))) /\
  (forall pq sq, p = Num pq -> s = Num sq -> (0 <= pq)%Q ->
     ((1 <= sq)%Q -> cle p (cmul p s)) /\ ((sq <= 1)%Q -> cle (cmul p s) p)).
Proof.
  intros Hp Hb Hb' _ _ Hsound Hsound'.
  assert (Hsame : forall S : label * cell -> label * cell -> Prop,
             (forall e e', S e e' -> same_good e e') ->
             forall P1 P2 pb1 pb2,
             Forall2 S P1 P2 ->
             build FoodNutrients P1 dietmin dietmax max_weight = Ok pb1 ->
             build FoodNutrients P2 dietmin dietmax max_weight = Ok pb2 ->
             A pb2 = A pb1 /\ b pb2 = b pb1 /\ Forall2 S (cost pb1) (cost pb2)).
  { intros S HS P1 P2 pb1 pb2 HP H1 H2.
    pose proof (usable_related S FoodNutrients P1 P2 HS HP) as Hrel.
    pose proof (Forall2_sindex S _ _ (fun e e' H => proj1 (HS e e' H)) Hrel) as Hidx.
    rewrite (build_same_goods _ P1 _ _ _ _ Hidx), H1 in H2.
    cbn [bind] in H2. injection H2 as <-. cbn [cost A b].
    apply build_Ok in H1. destruct H1 as [-> _]. now repeat split. }
  assert (Hdef : forall P0 pb0,
             build FoodNutrients P0 dietmin dietmax max_weight = Ok pb0 ->
             Forall (fun e => isna (snd e) = false) (cost pb0)).
  { intros P0 pb0 H0. apply build_Ok in H0. destruct H0 as [-> _].
    apply usable_defined. }
  assert (Hscaled : scaled_at Prices i s = set_bound Prices i (cmul p s))
    by (unfold scaled_at; now rewrite Hp).
  rewrite Hscaled in Hb'.
  split; [|split].
  - intros Hle.
    destruct (Hsame tighter tighter_same_good _ _ _ _
                (set_bound_raises Prices i p _ Hp Hle) Hb Hb') as [HA [Hbv Hrel]].
    split.
    + intros q v q' v'. apply raised_minimum; auto. exact (Hdef _ _ Hb).
    + intros Hs Hs'.
      apply (raised_minimum pb pb' (x (opt res)) (x (opt res')) _ _ HA Hbv
               (Hdef _ _ Hb) Hrel).
      * apply minimum_backend_canonical, Hsound, Hs.
      * apply minimum_backend_canonical, Hsound', Hs'.
  - intros Hle.
    destruct (Hsame tighter tighter_same_good _ _ _ _
                (set_bound_cut Prices i p _ Hp Hle) Hb' Hb) as [HA [Hbv Hrel]].
    split.
    + intros q v q' v' Hm Hm'.
      exact (raised_minimum pb' pb q' q v' v HA Hbv (Hdef _ _ Hb') Hrel Hm' Hm).
    + intros Hs Hs'.
      apply (raised_minimum pb' pb (x (opt res')) (x (opt res)) _ _ HA Hbv
               (Hdef _ _ Hb') Hrel).
      * apply minimum_backend_canonical, Hsound', Hs'.
      * apply minimum_backend_canonical, Hsound, Hs.
  - intros pq sq -> -> Hpq. cbn [cmul cle]. split; intros Hsq.
    + pose proof (Qmult_le_compat_r 1 sq pq Hsq Hpq). lra.
    + pose proof (Qmult_le_compat_r sq 1 pq Hsq Hpq). lra.
Qed.

Lemma min20_dear_minimum :
  minimum [Num (3 # 2); Num 2]
          (backend_feasible [Num (3 # 2); Num 2] [[Num (-10); Num (-5)]] [Num (-20)])
          [Num 2; Num 0] (Num 3).
Proof.
  split; [|split].
  - split; [reflexivity|]. split.
    + repeat constructor. cbn [dot cmul cadd cle]. lra.
    + repeat constructor; cbn [cle]; lra.
  - cbn [dot cmul cadd ceq]. lra.
  - intros q' [Hlen [Hrows Hnn]].
    destruct (nonneg_pair q' Hlen Hnn) as [u [v [-> [Hu Hv]]]].
    inversion Hrows as [|? ? ? ? H1 _]; subst.
    cbn [dot cmul cadd cle] in *. lra.
Qed.

Lemma price_rise_never_lowers_cost_witness :
  exists res res',
    solve_subsistence_problem Ex2.lp_prices Ex.catalogue2 Ex.prices2 Ex.min20 [] None
      Ex.tol = Ok res /\
    price_response_step Ex2.lp_prices Ex.catalogue2 Ex.prices2 Ex.min20 [] None Ex.tol
      0 (Num (3 # 2)) = Ok res' /\
    fun_ (opt res) = Num 2 /\ fun_ (opt res') = Num 3 /\
    cle (fun_ (opt res)) (fun_ (opt res')).
Proof.
  destruct (solve_subsistence_problem Ex2.lp_prices Ex.catalogue2 Ex.prices2 Ex.min20 []
              None Ex.tol) as [res|e] eqn:H; [|discriminate H].
  destruct (price_response_step Ex2.lp_prices Ex.catalogue2 Ex.prices2 Ex.min20 [] None
              Ex.tol 0 (Num (3 # 2))) as [res'|e] eqn:H'; [|discriminate H'].
  exists res, res'. split; [reflexivity|]. split; [reflexivity|].
  destruct (build Ex.catalogue2 Ex.prices2 Ex.min20 [] None) as [pb|e] eqn:Hb;
    [|discriminate Hb].
  destruct (build Ex.catalogue2 (scaled_at Ex.prices2 0 (Num (3 # 2))) Ex.min20 []
              None) as [pb'|e] eqn:Hb'; [|discriminate Hb'].
  assert (Hs : backend_sound (lp_c pb) (lp_A_ub pb) (lp_b_ub pb) (opt res)).
  { vm_compute in Hb. injection Hb as <-. vm_compute in H. injection H as <-.
    intros _. exact min20_minimum. }
  assert (Hs' : backend_sound (lp_c pb') (lp_A_ub pb') (lp_b_ub pb') (opt res')).
  { vm_compute in Hb'. injection Hb' as <-. vm_compute in H'. injection H' as <-.
    intros _. exact min20_dear_minimum. }
  destruct (price_rise_never_lowers_cost Ex2.lp_prices Ex.catalogue2 Ex.prices2
              Ex.min20 [] None Ex.tol 0 (Num 1) (Num (3 # 2)) pb pb' res res'
              eq_refl Hb Hb' H H' Hs Hs') as [Hrise _].
  assert (Hle : cle (Num 1) (cmul (Num 1) (Num (3 # 2)))) by (cbn [cmul cle]; lra).
  destruct (Hrise Hle) as [_ Hcost].
  vm_compute in H. injection H as <-. vm_compute in H'. injection H' as <-.
  split; [reflexivity|]. split; [reflexivity|]. apply Hcost; reflexivity.
Defined.

(** ** What the diagnostics cell shows after a failure *)

Lemma filter_none (U : Type) (f : U -> bool) (l : list U) :
  (forall u, In u l -> f u = false) -> filter f l = [].
Proof.
  induction l as [|a l IH]; simpl; [reflexivity|].
  intros H. rewrite (H a (or_introl eq_refl)). apply IH. auto.
Qed.

Lemma make_diet_failure_nan (r : OptimizeResult) (p d : Series) :
  success r = false -> make_diet r p = Ok d ->
  Forall (fun e => snd e = NaN) d.
Proof.
  unfold make_diet. intros -> H. apply bind_Ok in H. destruct H as [s [_ H]].
  injection H as <-. unfold smul. apply Forall_forall. intros e He.
  apply in_map_iff in He. destruct He as [e' [<- _]]. cbn [snd].
  now destruct (snd e').
Qed.

Lemma realized_nan (row dv : list cell) :
  row <> [] -> dv <> [] -> Forall (fun c => c = NaN) dv -> realized row dv = NaN.
Proof.
  unfold realized. destruct row as [|a row]; [congruence|].
  destruct dv as [|c dv]; [congruence|]. intros _ _ H.
  inversion H; subst. cbn [map dot]. now destruct (cabs a).
Qed.

(** X8.  When the backend reports a failure, the diagnostics cell prints an
    empty diet, whatever the tolerance, and, provided there is a usable
    good, an empty list of constraining nutrients. *)
Theorem failed_result_shows_nothing (lp : backend) (FoodNutrients : DataFrame)
    (Prices dietmin dietmax : Series) (max_weight : option cell) (tol tol' : cell)
    (res : Result) :
  solve_subsistence_problem lp FoodNutrients Prices dietmin dietmax max_weight tol
    = Ok res ->
  success (opt res) = false ->
  shown_diet (diet res) tol' = [] /\
  (diet res <> [] -> constraining_nutrients res tol' = Ok []).
Proof.
  intros H Hs. apply solve_Ok in H. destruct H as [pb [Hb [_ [Hd [HA Hbv]]]]].
  pose proof (make_diet_failure_nan _ _ _ Hs Hd) as Hnan.
  rewrite Forall_forall in Hnan. split.
  - unfold shown_diet. apply filter_none. intros e He. rewrite (Hnan e He).
    now destruct tol'.
  - intros Hne.
    pose proof (build_rectangular _ _ _ _ _ _ Hb) as Hrect.
    pose proof (build_Ok _ _ _ _ _ _ Hb) as [_ [Hc Hi]].
    pose proof (make_diet_Ok _ _ _ Hd) as Hdi.
    assert (Hcol : columns (result_A res) = sindex (diet res)) by congruence.
    assert (Hidx : index (result_A res) = sindex (result_b res)) by congruence.
    unfold constraining_nutrients.
    rewrite (outcome_table_aligned _ _ _ Hcol Hidx). cbn [bind].
    rewrite binding_of_table. f_equal.
    rewrite filter_none; [reflexivity|].
    intros [[l row] bi] He. apply in_combine_l in He. cbn [fst snd].
    unfold is_binding. rewrite realized_nan.
    + now destruct (cabs (snd bi)).
    + unfold rectangular in Hrect. rewrite Forall_forall in Hrect.
      rewrite HA in He. specialize (Hrect _ He). cbn [snd] in Hrect.
      rewrite <- HA, Hcol in Hrect. intros ->.
      destruct (diet res); [congruence | discriminate].
    + unfold svalues. destruct (diet res); [congruence | discriminate].
    + unfold svalues. apply Forall_forall. intros c Hc'.
      apply in_map_iff in Hc'. destruct Hc' as [e [<- He']]. now apply Hnan.
Qed.

Lemma failed_result_shows_nothing_witness :
  exists res,
    solve_subsistence_problem Ex.lp_infeasible Ex.catalogue2 Ex.prices2 Ex.min1000 []
      (Some (Num 1)) Ex.tol = Ok res /\
    shown_diet (diet res) Ex.tol = [] /\
    constraining_nutrients res Ex.tol = Ok [].
Proof.
  destruct (solve_subsistence_problem Ex.lp_infeasible Ex.catalogue2 Ex.prices2
              Ex.min1000 [] (Some (Num 1)) Ex.tol) as [res|e] eqn:H; [|discriminate H].
  destruct (failed_result_shows_nothing Ex.lp_infeasible Ex.catalogue2 Ex.prices2
              Ex.min1000 [] (Some (Num 1)) Ex.tol Ex.tol res H) as [Hshown Hnone].
  - vm_compute in H. injection H as <-. reflexivity.
  - exists res. split; [reflexivity|]. split; [exact Hshown|]. apply Hnone.
    vm_compute in H. injection H as <-. discriminate.
Defined.

(** ** The outcome table of a successful run *)






(** ** What the builder reads of the catalogue *)

Lemma pick_singleton (k : label) (cols : Index) (r : list cell) :
  NoDup cols -> In k cols -> pick k cols r = [hd NaN (pick k cols r)].
Proof.
  intros Hnd Hin. pose proof (length_pick k cols r) as Hl.
  rewrite (filter_eqb_NoDup cols k Hnd Hin) in Hl.
  destruct (pick k cols r) as [|c [|c' t]]; try discriminate. reflexivity.
Qed.

Lemma select_cells (goods cols : Index) (r : list cell) :
  NoDup cols -> (forall g, In g goods -> In g cols) ->
  select goods cols r = map (fun g => hd NaN (pick g cols r)) goods.
Proof.
  intros Hnd. unfold select. induction goods as [|g gs IH]; intros Hin;
    [reflexivity|].
  cbn [flat_map map]. rewrite (pick_singleton g cols r Hnd) by (apply Hin; now left).
  cbn [app]. f_equal. apply IH. intros; apply Hin; now right.
Qed.

Lemma usable_same_columns (F F' : DataFrame) (Prices : Series) :
  (forall g, In g (sindex (dropna Prices)) ->
             (In g (columns F) <-> In g (columns F'))) ->
  usable F Prices = usable F' Prices.
Proof.
  intros H. unfold usable, intersection. f_equal. apply filter_ext_in.
  intros g Hg. apply (proj1 (In_unique _ _)) in Hg. specialize (H g Hg).
  destruct (mem g (columns F)) eqn:Hm, (mem g (columns F')) eqn:Hm';
    try reflexivity.
  - apply mem_In in Hm. apply mem_false in Hm'. tauto.
  - apply mem_false in Hm. apply mem_In in Hm'. tauto.
Qed.

Lemma yield_vector_cells (F F' : DataFrame) (Prices : Series) (n : label) :
  NoDup (columns F) -> NoDup (columns F') ->
  usable F Prices = usable F' Prices ->
  (forall g, In g (sindex (usable F Prices)) -> cell_at F n g = cell_at F' n g) ->
  yield_vector F Prices n = yield_vector F' Prices n.
Proof.
  intros Hc Hc' Hu Hcell. unfold yield_vector. rewrite <- Hu.
  set (goods := sindex (usable F Prices)) in *.
  assert (Hin : forall g, In g goods -> In g (columns F))
    by apply usable_in_columns.
  assert (Hin' : forall g, In g goods -> In g (columns F'))
    by (unfold goods; rewrite Hu; apply usable_in_columns).
  unfold cell_at in Hcell.
  destruct goods as [|g0 gs] eqn:Hg.
  { unfold select, nan_row. cbn.
    now destruct (lookup n (rows F)), (lookup n (rows F')). }
  pose proof (Hcell g0 (or_introl eq_refl)) as H0.
  destruct (lookup n (rows F)) as [r|], (lookup n (rows F')) as [r'|];
    try discriminate; [|reflexivity].
  rewrite (select_cells _ _ r Hc Hin), (select_cells _ _ r' Hc' Hin').
  f_equal. apply map_ext_in. intros g Hgin. specialize (Hcell g Hgin).
  now injection Hcell.
Qed.

(** X10.  For catalogues whose row labels and column labels do not repeat,
    the built problem depends on the catalogue only through the cells under
    a usable good in the row of a bounded nutrient.  Two catalogues that
    have the same priced goods among their columns and the same such cells
    give the same problem: the order of the rows and of the columns, the
    goods without a price and the nutrients without a bound do not
    matter. *)
Theorem build_reads_relevant_cells (F F' : DataFrame)
    (Prices dietmin dietmax : Series) (max_weight : option cell) :
  NoDup (index F) -> NoDup (columns F) ->
  NoDup (index F') -> NoDup (columns F') ->
  (forall g, In g (sindex (dropna Prices)) ->
             (In g (columns F) <-> In g (columns F'))) ->
  (forall n g, In n (sindex dietmin ++ sindex dietmax) ->
               In g (sindex (usable F Prices)) ->
               cell_at F n g = cell_at F' n g) ->
  build F Prices dietmin dietmax max_weight =
  build F' Prices dietmin dietmax max_weight.
Proof.
  intros Hr Hc Hr' Hc' Hcols Hcells. unfold build.
  rewrite (assemble_spec F Prices dietmin dietmax Hr Hc).
  rewrite (assemble_spec F' Prices dietmin dietmax Hr' Hc').
  pose proof (usable_same_columns F F' Prices Hcols) as Hu.
  assert (Hy : forall n, In n (sindex dietmin ++ sindex dietmax) ->
               yield_vector F Prices n = yield_vector F' Prices n).
  { intros n Hn. apply yield_vector_cells; auto. }
  assert (Hrows : nutrient_rows F Prices dietmin dietmax =
                  nutrient_rows F' Prices dietmin dietmax).
  { unfold nutrient_rows. f_equal; apply map_ext_in; intros e He;
      rewrite Hy; try reflexivity; apply in_or_app; [left|right];
      unfold sindex; now apply in_map. }
  now rewrite Hu, Hrows.
Qed.

Lemma build_reads_relevant_cells_witness :
  build Ex2.catalogue2_shuffled Ex.prices2 Ex.min20 [] None = Ok Ex.problem20 /\
  build Ex.catalogue2 Ex.prices2 Ex.min20 [] None =
  build Ex2.catalogue2_shuffled Ex.prices2 Ex.min20 [] None.
Proof.
  split; [reflexivity|].
  apply build_reads_relevant_cells; try (apply is_unique_NoDup; reflexivity).
  - intros g [<-|[<-|[]]]; cbn; intuition discriminate.
  - intros n g [<-|[]] [<-|[<-|[]]]; reflexivity.
Defined.

(** ** The lecture notebook's cells and a nutrient the catalogue lacks *)

Lemma first_missing_None_inv (keys idx : Index) :
  first_missing keys idx = None -> forall k, In k keys -> In k idx.
Proof.
  unfold first_missing. intros H k Hk.
  pose proof (find_none _ _ H k Hk) as Hf.
  apply negb_false_iff in Hf. now apply mem_In.
Qed.

Lemma fill_defined (r : list cell) :
  Forall (fun c => isna c = false) (map (fill (Num 0)) r).
Proof.
  apply Forall_forall. intros c Hc. apply in_map_iff in Hc.
  destruct Hc as [c' [<- _]]. now destruct c'.
Qed.

(** X11.  The cells of the lecture notebook take the bounded rows with
    [.loc].  When a bounded nutrient is not a row of the catalogue they stop
    with a KeyError that names such a nutrient.  So whenever the lecture
    cells do build a problem, every bounded nutrient is a row of the
    catalogue and no coefficient of the matrix is missing. *)
Theorem lecture_cells_need_every_bounded_nutrient (D : DataFrame)
    (Prices bmin bmax : Series) :
  (forall n, In n (sindex bmin ++ sindex bmax) -> ~ In n (index D) ->
     exists k, lecture_problem D Prices bmin bmax = Raise (KeyError k) /\
               In k (sindex bmin ++ sindex bmax) /\ ~ In k (index D)) /\
  (forall pb, lecture_problem D Prices bmin bmax = Ok pb ->
     (forall n, In n (sindex bmin ++ sindex bmax) -> In n (index D)) /\
     Forall (fun row => Forall (fun c => isna c = false) row) (values (A pb))).
Proof.
  unfold lecture_problem. rewrite usable_prices_ok. cbn [bind].
  rewrite getcols_usable. cbn [bind].
  set (Aall := fillna (Num 0) _).
  assert (Hidx : index Aall = index D).
  { unfold Aall, fillna, index. cbn [rows]. now rewrite !map_map. }
  assert (Hdef : forall e, In e (rows Aall) -> Forall (fun c => isna c = false) (snd e)).
  { intros e He. unfold Aall, fillna in He. cbn [rows] in He.
    apply in_map_iff in He. destruct He as [e' [<- _]]. apply fill_defined. }
  unfold loc. rewrite Hidx.
  destruct (first_missing (sindex bmin) (index D)) as [k|] eqn:Hmin.
  { apply first_missing_Some in Hmin. destruct Hmin as [Hk Hnot]. split.
    - intros n _ _. exists k. cbn [bind]. split; [reflexivity|].
      split; [apply in_or_app; now left | exact Hnot].
    - intros pb H. discriminate H. }
  cbn [bind].
  destruct (first_missing (sindex bmax) (index D)) as [k|] eqn:Hmax.
  { apply first_missing_Some in Hmax. destruct Hmax as [Hk Hnot]. split.
    - intros n _ _. exists k. cbn [bind]. split; [reflexivity|].
      split; [apply in_or_app; now right | exact Hnot].
    - intros pb H. discriminate H. }
  cbn [bind].
  assert (Hall : forall n, In n (sindex bmin ++ sindex bmax) -> In n (index D)).
  { intros n Hn. apply in_app_or in Hn. destruct Hn as [Hn|Hn].
    - exact (first_missing_None_inv _ _ Hmin n Hn).
    - exact (first_missing_None_inv _ _ Hmax n Hn). }
  split.
  - intros n Hn Hnot. exfalso. exact (Hnot (Hall n Hn)).
  - intros pb H. split; [exact Hall|].
    unfold concat, neg in H. cbn [rows columns] in H.
    destruct (list_eq_dec string_dec (columns Aall) (columns Aall)) as [_|Hne];
      [|congruence].
    injection H as <-. unfold values. cbn [A rows].
    apply Forall_forall. intros row Hrow. apply in_map_iff in Hrow.
    destruct Hrow as [e [<- He]]. apply in_app_or in He. destruct He as [He|He].
    + apply In_take_labels in He. apply Hdef. tauto.
    + apply in_map_iff in He. destruct He as [e' [<- He']]. cbn [snd].
      apply In_take_labels in He'. destruct He' as [_ He'].
      specialize (Hdef _ He'). rewrite Forall_forall in *.
      intros c Hc. apply in_map_iff in Hc. destruct Hc as [c' [<- Hc']].
      specialize (Hdef c' Hc'). now destruct c'.
Qed.

Lemma lecture_cells_need_every_bounded_nutrient_witness :
  lecture_problem Ex.catalogue Ex.prices [("N", Num 20); ("Zinc", Num 11)]%string []
    = Raise (KeyError "Zinc") /\
  exists pb, build Ex.catalogue Ex.prices [("N", Num 20); ("Zinc", Num 11)]%string []
               None = Ok pb.
Proof.
  split; [|eexists; reflexivity].
  destruct (proj1 (lecture_cells_need_every_bounded_nutrient Ex.catalogue Ex.prices
                     [("N", Num 20); ("Zinc", Num 11)]%string [])
                  "Zinc"%string) as [k [Hk _]].
  - cbn. tauto.
  - apply mem_false. reflexivity.
  - rewrite Hk. vm_compute in Hk. injection Hk as <-. reflexivity.
Defined.
